(** * A shallow embedding of the AIDL language model (aidl_language.cpp)

    The development follows the source file top to bottom: locations and
    diagnostics, the annotation schema table and annotation validation, the
    annotatable mixin, type specifiers (resolution and validation), member
    declarations, and the per-kind validators for parcelables, unions, enums
    and interfaces, up to the document-level check.

    Validation routines print diagnostics through AIDL_ERROR and may abort
    through AIDL_FATAL. Both effects are kept: a computation is a pair of an
    optional result (None after a fatal abort) and the diagnostics printed so
    far, in program order. *)

From stdpp Require Import base option list strings gmap pretty sorting.

Local Open Scope string_scope.
Local Open Scope list_scope.

Set Warnings "-register-all,-clear-no-such-hyp".

(** ** Locations and diagnostics *)

Record Point := mkPoint { line : nat; column : nat }.

Inductive Source := INTERNAL | EXTERNAL.

Record AidlLocation := mkLocation {
  file_ : string;
  begin_ : Point;
  end_ : Point;
  source_ : Source }.

(** AIDL_LOCATION_HERE: a synthesized location inside the compiler itself. *)
Definition AIDL_LOCATION_HERE (l : nat) : AidlLocation :=
  mkLocation "aidl_language.cpp" (mkPoint l 0) (mkPoint l 0) INTERNAL.

(** Modelled from the spec: LocationKnown is declared in aidl_language.h,
    which is not among the sources. A location carries begin and end points;
    it is taken as known when its begin line is set. *)
Definition LocationKnown (l : AidlLocation) : bool :=
  negb (Nat.eqb (line (begin_ l)) 0).

(** operator<<(std::ostream&, const AidlLocation&) *)
Definition AidlLocation_print (l : AidlLocation) : string :=
  file_ l +:+
  (if LocationKnown l then
     ":" +:+ pretty (line (begin_ l)) +:+ "." +:+ pretty (column (begin_ l)) +:+ "-" +:+
     (if Nat.eqb (line (begin_ l)) (line (end_ l)) then ""
      else pretty (line (end_ l)) +:+ ".") +:+
     pretty (column (end_ l))
   else "").

Inductive DiagnosticID := enum_zero | interface_name | inout_parameter.

Inductive Diagnostic :=
| Error (loc : AidlLocation) (msg : string)
| Advisory (loc : AidlLocation) (id : DiagnosticID) (msg : string).

Definition is_error (d : Diagnostic) : bool :=
  match d with Error _ _ => true | Advisory _ _ _ => false end.

(** ** Computations that print diagnostics and may abort

    A run that ends without a result (None) is one that the source ends in a
    fatal assertion, or that reads through a pointer to no object. *)

Definition M (A : Type) : Type := (option A * list Diagnostic)%type.

Definition ret {A} (a : A) : M A := (Some a, []).

Definition bind {A B} (m : M A) (k : A -> M B) : M B :=
  match m with
  | (Some a, ds) => let '(r, ds') := k a in (r, ds ++ ds')
  | (None, ds) => (None, ds)
  end.

Notation "x <- m ;; k" := (bind m (fun x => k))
  (at level 100, m at next level, right associativity).
Notation "m ;;; k" := (bind m (fun _ => k))
  (at level 100, right associativity).

Definition AIDL_ERROR (loc : AidlLocation) (msg : string) : M unit :=
  (Some tt, [Error loc msg]).

Definition Report (loc : AidlLocation) (id : DiagnosticID) (msg : string) : M unit :=
  (Some tt, [Advisory loc id msg]).

Definition AIDL_FATAL {A} : M A := (None, []).

Definition AIDL_FATAL_IF (c : bool) : M unit :=
  if c then AIDL_FATAL else ret tt.

Definition result {A} (m : M A) : option A := fst m.
Definition diagnostics {A} (m : M A) : list Diagnostic := snd m.

(** android::base::Join *)
Fixpoint Join (l : list string) (sep : string) : string :=
  match l with
  | [] => ""
  | [x] => x
  | x :: r => x +:+ sep +:+ Join r sep
  end.

Definition string_in (s : string) (l : list string) : bool :=
  bool_decide (s ∈ l).

(** ** Constant values

    The class hierarchy is visible through the visitor interface used by
    ConstReferenceFinder; evaluation itself lives in the constant-value
    engine, which is outside this file. *)

Inductive AidlConstantValue :=
| Integral (loc : AidlLocation) (value : string)
| Literal (loc : AidlLocation) (value : string)
| ArrayValue (loc : AidlLocation) (values : list AidlConstantValue)
| AidlUnaryConstExpression (loc : AidlLocation) (op : string) (rval : AidlConstantValue)
| AidlBinaryConstExpression (loc : AidlLocation) (lval : AidlConstantValue) (op : string)
    (rval : AidlConstantValue)
| AidlConstantReference (loc : AidlLocation) (value : string) (comments : string).

(** A value of type AidlConstantReference*: null, the address of a
    reference of the expression at hand (kept as the location and the text
    read through it), or any other value. *)
Inductive ReferencePointer :=
| nullptr
| address_of (loc : AidlLocation) (value : string)
| wild_pointer.

(** The conversion of a pointer to bool, negated: [!found]. *)
Definition is_null (p : ReferencePointer) : bool :=
  match p with nullptr => true | _ => false end.

(** struct ConstReferenceFinder. Its one member has no initialiser, and the
    struct has no constructor: a finder is built with whatever [found]
    happens to hold. *)
Record ConstReferenceFinder := mkFinder { found : ReferencePointer }.

(** ConstReferenceFinder::Visit(AidlConstantReference&); the other three
    overloads of Visit have an empty body. *)
Definition Visit_AidlConstantReference (finder : ConstReferenceFinder) (loc : AidlLocation)
    (value : string) : ConstReferenceFinder :=
  if is_null (found finder) then mkFinder (address_of loc value) else finder.

(** Modelled from the spec: Accept is implemented by the constant-value
    engine, which is not among the sources. It shows the visitor the nodes
    of the expression tree in one pass, operands from left to right. *)
Fixpoint Accept (v : AidlConstantValue) (finder : ConstReferenceFinder) : ConstReferenceFinder :=
  match v with
  | Integral _ _ | Literal _ _ => finder
  | ArrayValue _ vs =>
      (fix go (l : list AidlConstantValue) (finder : ConstReferenceFinder) :=
         match l with
         | [] => finder
         | x :: r => go r (Accept x finder)
         end) vs finder
  | AidlUnaryConstExpression _ _ r => Accept r finder
  | AidlBinaryConstExpression _ l _ r => Accept r (Accept l finder)
  | AidlConstantReference loc value _ => Visit_AidlConstantReference finder loc value
  end.

(** ** Annotations and type specifiers: data *)

Module AidlAnnotation.
Inductive Type_ :=
| NULLABLE | UTF8_IN_CPP | SENSITIVE_DATA | VINTF_STABILITY | UNSUPPORTED_APP_USAGE
| JAVA_STABLE_PARCELABLE | HIDE | BACKING | JAVA_PASSTHROUGH | JAVA_DERIVE
| JAVA_ONLY_IMMUTABLE | FIXED_SIZE | DESCRIPTOR | RUST_DERIVE.

#[global] Instance Type_eq_dec : EqDecision Type_.
Proof. solve_decision. Defined.

(** Modelled from the spec: enum class Type is declared in aidl_language.h,
    which is not among the sources, and the spec names the kinds without
    numbering them. The enumerator values are taken to be BACKING = 1 and
    then, in steps of one, in this order. *)
Definition Type_value (t : Type_) : nat :=
  match t with
  | BACKING => 1 | HIDE => 2 | JAVA_STABLE_PARCELABLE => 3 | UNSUPPORTED_APP_USAGE => 4
  | VINTF_STABILITY => 5 | NULLABLE => 6 | UTF8_IN_CPP => 7 | SENSITIVE_DATA => 8
  | JAVA_PASSTHROUGH => 9 | JAVA_DERIVE => 10 | JAVA_ONLY_IMMUTABLE => 11
  | FIXED_SIZE => 12 | DESCRIPTOR => 13 | RUST_DERIVE => 14
  end.

(** std::set<Type>::insert: the elements are kept in the order of their
    values, each once. *)
Fixpoint set_insert (t : Type_) (l : list Type_) : list Type_ :=
  match l with
  | [] => [t]
  | x :: r =>
      if bool_decide (Type_value t < Type_value x) then t :: l
      else if bool_decide (Type_value t = Type_value x) then l
      else x :: set_insert t r
  end.

(** The sequence in which a std::set<Type> built from the initializer [l]
    is iterated. *)
Definition set_order (l : list Type_) : list Type_ := foldr set_insert [] l.
End AidlAnnotation.

(** An annotation instance refers to its schema through its kind: instances
    are only built by Parse, from an entry of the schema table. The parameter
    map is a std::map, kept here as a list in key order. *)
Record AidlAnnotation := mkAnnotation {
  annot_location : AidlLocation;
  annot_type : AidlAnnotation.Type_;
  parameters_ : list (string * AidlConstantValue) }.

Inductive AidlTypeSpecifier := mkTypeSpecifier {
  ts_location : AidlLocation;
  ts_annotations : list AidlAnnotation;
  unresolved_name_ : string;
  fully_qualified_name_ : string;
  is_array_ : bool;
  type_params_ : option (list AidlTypeSpecifier);
  comments_ : string;
  defined_type_ : option string }.

(** AidlTypeSpecifier::AidlTypeSpecifier *)
Definition newTypeSpecifier (loc : AidlLocation) (unresolved_name : string) (is_array : bool)
    (type_params : option (list AidlTypeSpecifier)) (comments : string) : AidlTypeSpecifier :=
  mkTypeSpecifier loc [] unresolved_name "" is_array type_params comments None.

Definition kStringType := newTypeSpecifier (AIDL_LOCATION_HERE 112) "String" false None "".
Definition kIntType := newTypeSpecifier (AIDL_LOCATION_HERE 113) "int" false None "".
Definition kLongType := newTypeSpecifier (AIDL_LOCATION_HERE 114) "long" false None "".
Definition kBooleanType := newTypeSpecifier (AIDL_LOCATION_HERE 115) "boolean" false None "".

(** The constant-value engine (aidl_constant_value.cpp) is an external
    collaborator; the validators below only call these entry points, and
    the engine is a parameter of everything that follows. [cv_ValueString v t]
    stands for [v->ValueString(t, AidlConstantValueDecorator)]. Diagnostics
    printed inside the engine are not part of the model.

    The last field is not an entry point of the engine. AidlAnnotation::
    CheckValid builds a ConstReferenceFinder for each parameter it examines
    and hands it to Accept without having set its member [found];
    [cv_found_before_Accept a name] is what that member holds when the
    finder for parameter [name] of annotation [a] is handed over. It is kept
    with the engine so that everything that ranges over engines ranges over
    every content of that storage as well. *)
Record ConstantValueEngine := {
  cv_CheckValid : AidlConstantValue -> bool;
  cv_ValueString : AidlConstantValue -> AidlTypeSpecifier -> string;
  cv_Default : AidlTypeSpecifier -> option AidlConstantValue;
  cv_Cast_string : AidlConstantValue -> option string;
  cv_GetFieldName : string -> string;
  cv_found_before_Accept : AidlAnnotation -> string -> ReferencePointer }.

(** ** Member declarations and defined types: data *)

Record AidlVariableDeclaration := mkVariableDeclaration {
  var_location : AidlLocation;
  var_type_ : AidlTypeSpecifier;
  var_name_ : string;
  default_user_specified_ : bool;
  default_value_ : option AidlConstantValue }.

Module AidlArgument.
Inductive Direction := IN_DIR | OUT_DIR | INOUT_DIR.

(** Modelled from the spec: the enumeration is declared in aidl_language.h;
    inout is both in and out, enum Direction { IN_DIR = 1, OUT_DIR = 2,
    INOUT_DIR = 3 }. *)
Definition Direction_bits (d : Direction) : Z :=
  match d with IN_DIR => 1 | OUT_DIR => 2 | INOUT_DIR => 3 end%Z.

#[global] Instance Direction_eq_dec : EqDecision Direction.
Proof. solve_decision. Defined.
End AidlArgument.

(** An argument is a variable declaration with a direction. *)
Record AidlArgument := mkArgument {
  arg_variable : AidlVariableDeclaration;
  direction_ : AidlArgument.Direction;
  direction_specified_ : bool }.

Record AidlConstantDeclaration := mkConstantDeclaration {
  const_location : AidlLocation;
  const_type_ : AidlTypeSpecifier;
  const_name_ : string;
  const_value_ : AidlConstantValue }.

Record AidlMethod := mkMethod {
  method_location : AidlLocation;
  oneway_ : bool;
  method_comments_ : string;
  method_type_ : AidlTypeSpecifier;
  method_name_ : string;
  arguments_ : list AidlArgument;
  in_arguments_ : list AidlArgument;
  out_arguments_ : list AidlArgument;
  id_ : Z;
  has_id_ : bool;
  is_user_defined_ : bool }.

Inductive AidlMember :=
| ConstantDeclaration (c : AidlConstantDeclaration)
| VariableDeclaration (v : AidlVariableDeclaration)
| Method (m : AidlMethod).

Record AidlEnumerator := mkEnumerator {
  enumerator_location : AidlLocation;
  enumerator_name_ : string;
  enumerator_value_ : option AidlConstantValue;
  enumerator_comments_ : string;
  value_user_specified_ : bool }.

(** The concrete classes below AidlDefinedType, with the members each adds. *)
Inductive DefinedTypeKind :=
| Parcelable (cpp_header_ : string) (type_params : option (list string))
| StructuredParcelable (type_params : option (list string))
| UnionDecl (type_params : option (list string))
| EnumDeclaration (enumerators_ : list AidlEnumerator) (backing_type_ : option AidlTypeSpecifier)
| Interface.

Record AidlDefinedType := mkDefinedType {
  dt_location : AidlLocation;
  dt_annotations : list AidlAnnotation;
  dt_name_ : string;
  dt_comments_ : string;
  dt_package_ : string;
  constants_ : list AidlConstantDeclaration;
  variables_ : list AidlVariableDeclaration;
  methods_ : list AidlMethod;
  members_ : list AidlMember;
  dt_kind : DefinedTypeKind }.

Record AidlDocument := mkDocument {
  doc_location : AidlLocation;
  imports_ : list (AidlLocation * string);
  defined_types_ : list AidlDefinedType }.

(** ** The type-name table

    AidlTypenames (aidl_typenames.cpp) is an external collaborator. The
    validators use the queries below; IsPrimitiveTypename and
    IsBuiltinTypename are static members of the same class. *)

Record ResolvedTypename := mkResolvedTypename {
  canonical_name : string;
  is_resolved : bool;
  defined_type : option string }.

Record AidlTypenames := {
  ResolveTypename : string -> ResolvedTypename;
  TryGetDefinedType : string -> option AidlDefinedType;
  GetEnumDeclaration : AidlTypeSpecifier -> option AidlDefinedType;
  GetInterface : AidlTypeSpecifier -> option AidlDefinedType;
  IsPrimitiveTypename : string -> bool;
  IsBuiltinTypename : string -> bool;
  CanBeJavaOnlyImmutable : AidlTypeSpecifier -> bool;
  CanBeFixedSize : AidlTypeSpecifier -> bool;
  CanBeOutParameter : AidlTypeSpecifier -> bool * string }.

(** ** Loops

    The validators use three loop shapes: a loop that leaves the function
    with [return false] as soon as its body fails, a loop that records a
    failure in a [success] flag and goes on, and a loop that carries a
    collection of names seen so far. *)

(** for (x : l) { if (!body(x)) return false; } *)
Fixpoint all_or_return {A} (body : A -> M bool) (l : list A) : M bool :=
  match l with
  | [] => ret true
  | x :: r => ok <- body x ;; if ok : bool then all_or_return body r else ret false
  end.

(** for (x : l) { success = step(success, x); } *)
Fixpoint accumulate {A S} (body : S -> A -> M S) (l : list A) (s : S) : M S :=
  match l with
  | [] => ret s
  | x :: r => s' <- body s x ;; accumulate body r s'
  end.

(** A loop over [l] with a state, whose body may leave the function with
    [return false] (None). *)
Fixpoint loop_or_return {A S} (body : S -> A -> M (option S)) (l : list A) (s : S)
  : M (option S) :=
  match l with
  | [] => ret (Some s)
  | x :: r =>
      o <- body s x ;;
      match o with
      | Some s' => loop_or_return body r s'
      | None => ret None
      end
  end.

(** if (c) { AIDL_ERROR(loc) << msg; return false; } *)
Definition reject_if (c : bool) (loc : AidlLocation) (msg : string) : M bool :=
  if c then AIDL_ERROR loc msg ;;; ret false else ret true.

(** Run [k] unless [m] has already left the function with [return false]. *)
Definition and_then (m : M bool) (k : M bool) : M bool :=
  ok <- m ;; if ok : bool then k else ret false.

Notation "m >>? k" := (and_then m k) (at level 95, right associativity).

Definition assoc_find {K V} `{EqDecision K} (k : K) (l : list (K * V)) : option V :=
  (fun p => snd (snd p)) <$> list_find (fun kv => fst kv = k) l.

(** ** The annotation schema table *)

Record Schema := mkSchema {
  schema_type : AidlAnnotation.Type_;
  schema_name : string;
  supported_parameters : list (string * AidlTypeSpecifier);
  repeatable : bool;
  required_parameters : list string }.

Import AidlAnnotation.

(** AidlAnnotation::AllSchemas. The parameter maps are std::map objects and
    are written here in key order. *)
Definition AllSchemas : list Schema :=
  [ mkSchema NULLABLE "nullable" [] false [];
    mkSchema UTF8_IN_CPP "utf8InCpp" [] false [];
    mkSchema SENSITIVE_DATA "SensitiveData" [] false [];
    mkSchema VINTF_STABILITY "VintfStability" [] false [];
    mkSchema UNSUPPORTED_APP_USAGE "UnsupportedAppUsage"
      [("expectedSignature", kStringType); ("implicitMember", kStringType);
       ("maxTargetSdk", kIntType); ("publicAlternatives", kStringType);
       ("trackingBug", kLongType)] false [];
    mkSchema JAVA_STABLE_PARCELABLE "JavaOnlyStableParcelable" [] false [];
    mkSchema HIDE "Hide" [] false [];
    mkSchema BACKING "Backing" [("type", kStringType)] false ["type"];
    mkSchema JAVA_PASSTHROUGH "JavaPassthrough" [("annotation", kStringType)] true
      ["annotation"];
    mkSchema JAVA_DERIVE "JavaDerive"
      [("equals", kBooleanType); ("toString", kBooleanType)] false [];
    mkSchema JAVA_ONLY_IMMUTABLE "JavaOnlyImmutable" [] false [];
    mkSchema FIXED_SIZE "FixedSize" [] false [];
    mkSchema DESCRIPTOR "Descriptor" [("value", kStringType)] false ["value"];
    mkSchema RUST_DERIVE "RustDerive"
      [("Clone", kBooleanType); ("Copy", kBooleanType); ("Eq", kBooleanType);
       ("Hash", kBooleanType); ("Ord", kBooleanType); ("PartialEq", kBooleanType);
       ("PartialOrd", kBooleanType)] false [] ].

(** The schema bound to an annotation of kind [t] by AidlAnnotation::Parse. *)
Definition schema_of (t : Type_) : Schema :=
  match list_find (fun s => schema_type s = t) AllSchemas with
  | Some (_, s) => s
  | None => mkSchema t "" [] false []
  end.

(** AidlAnnotation::TypeToString. Every kind has a table entry, so the fatal
    branch after the loop is not reached. *)
Definition TypeToString (t : Type_) : string := schema_name (schema_of t).

Definition schema_ (a : AidlAnnotation) : Schema := schema_of (annot_type a).

(** Modelled from the spec: GetName, GetType and Repeatable are declared in
    aidl_language.h, which is not among the sources. Each reads the
    corresponding entry of the schema of the annotation. *)
Definition AidlAnnotation_GetName (a : AidlAnnotation) : string := schema_name (schema_ a).

(** Modelled from the spec: see AidlAnnotation_GetName. *)
Definition AidlAnnotation_GetType (a : AidlAnnotation) : Type_ := schema_type (schema_ a).

(** Modelled from the spec: see AidlAnnotation_GetName. *)
Definition AidlAnnotation_Repeatable (a : AidlAnnotation) : bool := repeatable (schema_ a).

(** AidlAnnotation::Parse. The loop keeps the last schema with the wanted
    name; names are unique in the table. *)
Definition AidlAnnotation_Parse (location : AidlLocation) (name : string)
    (parameter_list : option (list (string * AidlConstantValue))) : M (option AidlAnnotation) :=
  match last (filter (fun a_schema => schema_name a_schema = name) AllSchemas) with
  | None =>
      AIDL_ERROR location
        ("'" +:+ name +:+ "' is not a recognized annotation. " +:+
         "It must be one of:" +:+
         String.concat "" ((fun s => " " +:+ schema_name s) <$> AllSchemas) +:+ ".") ;;;
      ret None
  | Some schema =>
      ret (Some (mkAnnotation location (schema_type schema) (default [] parameter_list)))
  end.

Section Validation.
Context (cv : ConstantValueEngine).

(** ** AidlAnnotation *)

Definition unsupported_parameter_message (a : AidlAnnotation) (param_name : string) : string :=
  "Parameter " +:+ param_name +:+ " not supported " +:+
  "for annotation " +:+ AidlAnnotation_GetName a +:+ ". " +:+
  "It must be one of:" +:+
  String.concat "" ((fun kv => " " +:+ fst kv) <$> supported_parameters (schema_ a)).

Definition invalid_value_message (a : AidlAnnotation) (param_name : string) : string :=
  "Invalid value for parameter " +:+ param_name +:+ " on annotation " +:+ AidlAnnotation_GetName a +:+ ".".

(** The body of the parameter loop of AidlAnnotation::CheckValid; [false]
    stands for leaving CheckValid with [return false]. The finder is
    declared without an initialiser, so [found] starts with the content of
    its storage. When it is not null after Accept, the location and the
    field name of the error are read through it; through a pointer to no
    reference that read has no result. *)
Definition CheckParameter (a : AidlAnnotation) (name_and_param : string * AidlConstantValue)
  : M bool :=
  let param_name := fst name_and_param in
  let param := snd name_and_param in
  match assoc_find param_name (supported_parameters (schema_ a)) with
  | None =>
      AIDL_ERROR (annot_location a) (unsupported_parameter_message a param_name) ;;;
      ret false
  | Some type =>
      let finder := Accept param (mkFinder (cv_found_before_Accept cv a param_name)) in
      match found finder with
      | address_of found_loc found_value =>
          AIDL_ERROR found_loc
            ("Value must be a constant expression but contains reference to " +:+
             cv_GetFieldName cv found_value +:+ ".") ;;;
          ret false
      | wild_pointer => (None, [])
      | nullptr =>
          if negb (cv_CheckValid cv param) then
            AIDL_ERROR (annot_location a) (invalid_value_message a param_name) ;;;
            ret false
          else if bool_decide (cv_ValueString cv param type = "") then
            AIDL_ERROR (annot_location a) (invalid_value_message a param_name) ;;;
            ret false
          else ret true
      end
  end.

Definition has_parameter (a : AidlAnnotation) (param : string) : bool :=
  bool_decide (param ∈ (fst <$> parameters_ a)).

(** The body of the loop over required parameters. *)
Definition CheckRequired (a : AidlAnnotation) (success : bool) (param : string) : M bool :=
  if negb (has_parameter a param) then
    AIDL_ERROR (annot_location a) ("Missing '" +:+ param +:+ "' on @" +:+ AidlAnnotation_GetName a +:+ ".") ;;;
    ret false
  else ret success.

(** AidlAnnotation::CheckValid *)
Definition AidlAnnotation_CheckValid (a : AidlAnnotation) : M bool :=
  ok <- all_or_return (CheckParameter a) (parameters_ a) ;;
  if ok : bool then accumulate (CheckRequired a) (required_parameters (schema_ a)) true
  else ret false.

(** AidlAnnotation::AnnotationParams, with AidlConstantValueDecorator. *)
Fixpoint AnnotationParams_loop (a : AidlAnnotation) (ps : list (string * AidlConstantValue))
  : M (list (string * string)) :=
  match ps with
  | [] => ret []
  | (param_name, param) :: r =>
      match assoc_find param_name (supported_parameters (schema_ a)) with
      | None =>
          AIDL_ERROR (annot_location a) (unsupported_parameter_message a param_name) ;;;
          AnnotationParams_loop a r
      | Some type =>
          if negb (cv_CheckValid cv param) then
            AIDL_ERROR (annot_location a) (invalid_value_message a param_name) ;;;
            AnnotationParams_loop a r
          else
            raw_params <- AnnotationParams_loop a r ;;
            ret ((param_name, cv_ValueString cv param type) :: raw_params)
      end
  end.

Definition AnnotationParams (a : AidlAnnotation) : M (list (string * string)) :=
  AnnotationParams_loop a (parameters_ a).

(** AidlAnnotation::ToString *)
Definition AidlAnnotation_ToString (a : AidlAnnotation) : M string :=
  match parameters_ a with
  | [] => ret ("@" +:+ AidlAnnotation_GetName a)
  | _ =>
      params <- AnnotationParams a ;;
      ret ("@" +:+ AidlAnnotation_GetName a +:+ "(" +:+
           Join ((fun nv => fst nv +:+ "=" +:+ snd nv) <$> params) ", " +:+ ")")
  end.


(** ** AidlAnnotatable *)

(** The lookup of GetAnnotation without its assertion. *)
Definition find_annotation (annotations : list AidlAnnotation) (type : Type_)
  : option AidlAnnotation :=
  snd <$> list_find (fun a => AidlAnnotation_GetType a = type) annotations.

(** GetAnnotation: the first annotation of the wanted kind; asking for a
    single annotation of a repeatable kind is a fatal error. *)
Definition GetAnnotation (annotations : list AidlAnnotation) (type : Type_)
  : M (option AidlAnnotation) :=
  match find_annotation annotations type with
  | Some a => AIDL_FATAL_IF (AidlAnnotation_Repeatable a) ;;; ret (Some a)
  | None => ret None
  end.

(** The accessors below ask for kinds that are not repeatable, so the
    assertion of GetAnnotation does not fire (see [GetAnnotation_single]). *)
Definition IsNullable (annotations : list AidlAnnotation) : bool :=
  bool_decide (is_Some (find_annotation annotations NULLABLE)).
Definition IsUtf8InCpp (annotations : list AidlAnnotation) : bool :=
  bool_decide (is_Some (find_annotation annotations UTF8_IN_CPP)).
Definition IsJavaOnlyImmutable (annotations : list AidlAnnotation) : bool :=
  bool_decide (is_Some (find_annotation annotations JAVA_ONLY_IMMUTABLE)).
Definition IsFixedSize (annotations : list AidlAnnotation) : bool :=
  bool_decide (is_Some (find_annotation annotations FIXED_SIZE)).
Definition BackingType (annotations : list AidlAnnotation) : option AidlAnnotation :=
  find_annotation annotations BACKING.

(** The body of the first loop of AidlAnnotatable::CheckValid.
    [supported_annotations] is the initializer of the std::set that
    GetSupportedAnnotations returns; the error text lists the set in the
    order in which it is iterated. *)
Definition CheckAnnotation (loc : AidlLocation) (supported_annotations : list Type_)
    (annotation : AidlAnnotation) : M bool :=
  if negb (bool_decide (AidlAnnotation_GetType annotation ∈ supported_annotations)) then
    AIDL_ERROR loc
      ("'" +:+ AidlAnnotation_GetName annotation +:+
       "' is not a supported annotation for this node. " +:+
       "It must be one of: " +:+
       Join (TypeToString <$> set_order supported_annotations) ", ") ;;;
    ret false
  else AidlAnnotation_CheckValid annotation.

(** The body of the second loop: [declared] maps each kind seen so far to
    the location of its first use. *)
Definition CheckRepeated (loc : AidlLocation) (declared : list (Type_ * AidlLocation))
    (annotation : AidlAnnotation) : M (option (list (Type_ * AidlLocation))) :=
  match assoc_find (AidlAnnotation_GetType annotation) declared with
  | Some previous =>
      if negb (AidlAnnotation_Repeatable annotation) then
        AIDL_ERROR loc
          ("'" +:+ AidlAnnotation_GetName annotation +:+
           "' is repeated, but not allowed. Previous location: " +:+
           AidlLocation_print previous) ;;;
        ret None
      else ret (Some declared)
  | None =>
      ret (Some (declared ++ [(AidlAnnotation_GetType annotation, annot_location annotation)]))
  end.

(** AidlAnnotatable::CheckValid *)
Definition AidlAnnotatable_CheckValid (loc : AidlLocation) (supported_annotations : list Type_)
    (annotations : list AidlAnnotation) : M bool :=
  ok <- all_or_return (CheckAnnotation loc supported_annotations) annotations ;;
  if ok : bool then
    declared <- loop_or_return (CheckRepeated loc) annotations [] ;;
    ret (bool_decide (is_Some declared))
  else ret false.

(** std::sort on strings, as an insertion into a sorted list. *)
Fixpoint insert_sorted (s : string) (l : list string) : list string :=
  match l with
  | [] => [s]
  | x :: r => if bool_decide (String.le s x) then s :: l else x :: insert_sorted s r
  end.

Definition sort_strings (l : list string) : list string := foldr insert_sorted [] l.

(** for (a : l) ret.emplace_back(f(a)) *)
Fixpoint collect {A B} (f : A -> M B) (l : list A) : M (list B) :=
  match l with
  | [] => ret []
  | x :: r => y <- f x ;; ys <- collect f r ;; ret (y :: ys)
  end.

(** AidlAnnotatable::ToString *)
Definition AidlAnnotatable_ToString (annotations : list AidlAnnotation) : M string :=
  strs <- collect AidlAnnotation_ToString annotations ;;
  ret (Join (sort_strings strs) " ").

(** ** AidlTypeSpecifier *)

(** Modelled from the spec: IsResolved is declared in aidl_language.h, which
    is not among the sources. After resolution a specifier carries its
    canonical dotted name; before, that name is empty. *)
Definition IsResolved (t : AidlTypeSpecifier) : bool :=
  negb (bool_decide (fully_qualified_name_ t = "")).

(** Modelled from the spec: GetName is declared in aidl_language.h. It is
    the canonical name once resolved and the unresolved name before. *)
Definition AidlTypeSpecifier_GetName (t : AidlTypeSpecifier) : string :=
  if IsResolved t then fully_qualified_name_ t else unresolved_name_ t.

(** Modelled from the spec: IsGeneric, GetTypeParameters and IsArray are
    declared in aidl_language.h. A specifier is generic when it has a list
    of type parameters. *)
Definition IsGeneric (t : AidlTypeSpecifier) : bool := bool_decide (is_Some (type_params_ t)).

(** Modelled from the spec: see IsGeneric. *)
Definition GetTypeParameters (t : AidlTypeSpecifier) : list AidlTypeSpecifier :=
  default [] (type_params_ t).

(** Modelled from the spec: see IsGeneric. *)
Definition IsArray (t : AidlTypeSpecifier) : bool := is_array_ t.

(** AidlTypeSpecifier::Signature *)
Fixpoint AidlTypeSpecifier_Signature (t : AidlTypeSpecifier) : string :=
  let ret := AidlTypeSpecifier_GetName t in
  let ret :=
    match type_params_ t with
    | Some params => ret +:+ "<" +:+ Join (map AidlTypeSpecifier_Signature params) "," +:+ ">"
    | None => ret
    end in
  if is_array_ t then ret +:+ "[]" else ret.

(** AidlTypeSpecifier::ToString *)
Definition AidlTypeSpecifier_ToString (t : AidlTypeSpecifier) : M string :=
  let ret_ := AidlTypeSpecifier_Signature t in
  annotations <- AidlAnnotatable_ToString (ts_annotations t) ;;
  if negb (bool_decide (annotations = "")) then ret (annotations +:+ " " +:+ ret_)
  else ret ret_.

(** AidlTypeSpecifier::Resolve. The specifier is updated in place in the
    source; here the updated specifier is returned next to the result. *)
Definition AidlTypeSpecifier_Resolve (typenames : AidlTypenames) (t : AidlTypeSpecifier)
  : M (bool * AidlTypeSpecifier) :=
  AIDL_FATAL_IF (IsResolved t) ;;;
  let result := ResolveTypename typenames (unresolved_name_ t) in
  if is_resolved result then
    ret (true,
         mkTypeSpecifier (ts_location t) (ts_annotations t) (unresolved_name_ t)
           (canonical_name result) (is_array_ t) (type_params_ t) (comments_ t)
           (defined_type result))
  else ret (false, t).

(** AidlTypeSpecifier::GetSupportedAnnotations *)
Definition AidlTypeSpecifier_GetSupportedAnnotations : list Type_ :=
  [NULLABLE; UTF8_IN_CPP; UNSUPPORTED_APP_USAGE; HIDE; JAVA_PASSTHROUGH].

(** Modelled from the spec: the downcast probes of AidlDefinedType are
    declared in aidl_language.h. Each answers for its own declaration kind. *)
Definition AsInterface (d : AidlDefinedType) : bool :=
  match dt_kind d with Interface => true | _ => false end.

(** Modelled from the spec: see AsInterface. *)
Definition AsEnumDeclaration (d : AidlDefinedType) : bool :=
  match dt_kind d with EnumDeclaration _ _ => true | _ => false end.

(** Modelled from the spec: see AsInterface. Parcelables (plain, structured,
    union) are AidlParameterizable<string>, as their constructors show. *)
Definition AsParameterizable (d : AidlDefinedType) : option (option (list string)) :=
  match dt_kind d with
  | Parcelable _ tp | StructuredParcelable tp | UnionDecl tp => Some tp
  | _ => None
  end.

Definition list_not_supported_message (contained_type_name : string) : string :=
  "List<" +:+ contained_type_name +:+
  "> is not supported. List<T> supports parcelable/union, String, " +:+
  "IBinder, and ParcelFileDescriptor.".

(** The [type_name == "List"] branch of AidlTypeSpecifier::CheckValid.
    Reading element 0 of an empty parameter vector is undefined in the
    source; it is an abort here. *)
Definition CheckGenericList (typenames : AidlTypenames) (t : AidlTypeSpecifier) : M bool :=
  let num_params := length (GetTypeParameters t) in
  reject_if (bool_decide (1 < num_params)) (ts_location t)
    ("List can only have one type parameter, but got: '" +:+ AidlTypeSpecifier_Signature t
     +:+ "'") >>?
  match GetTypeParameters t with
  | [] => AIDL_FATAL
  | contained_type :: _ =>
      let contained_type_name := AidlTypeSpecifier_GetName contained_type in
      if IsBuiltinTypename typenames contained_type_name then
        reject_if (negb (bool_decide (contained_type_name = "String")) &&
                   negb (bool_decide (contained_type_name = "IBinder")) &&
                   negb (bool_decide (contained_type_name = "ParcelFileDescriptor")))
          (ts_location t) (list_not_supported_message contained_type_name)
      else
        reject_if (bool_decide (is_Some (GetInterface typenames contained_type)))
          (ts_location t) (list_not_supported_message contained_type_name)
  end.

(** The [type_name == "Map"] branch. *)
Definition CheckGenericMap (t : AidlTypeSpecifier) : M bool :=
  let num_params := length (GetTypeParameters t) in
  reject_if (negb (bool_decide (num_params = 0)) && negb (bool_decide (num_params = 2)))
    (ts_location t)
    ("Map must have 0 or 2 type parameters, but got " +:+ "'" +:+
     AidlTypeSpecifier_Signature t +:+ "'") >>?
  if bool_decide (num_params = 2) then
    match GetTypeParameters t with
    | [] => AIDL_FATAL
    | key :: _ =>
        let key_type := AidlTypeSpecifier_GetName key in
        reject_if (negb (bool_decide (key_type = "String"))) (ts_location t)
          ("The type of key in map must be String, but it is " +:+ "'" +:+ key_type +:+ "'")
    end
  else ret true.

(** The [IsGeneric()] block of AidlTypeSpecifier::CheckValid. *)
Definition CheckGeneric (typenames : AidlTypenames) (t : AidlTypeSpecifier) : M bool :=
  let type_name := AidlTypeSpecifier_GetName t in
  let types := GetTypeParameters t in
  (if bool_decide (type_name = "List") || bool_decide (type_name = "Map") then
     reject_if
       (existsb (fun type_ptr =>
                   bool_decide (is_Some (GetEnumDeclaration typenames type_ptr)) ||
                   IsPrimitiveTypename typenames (AidlTypeSpecifier_GetName type_ptr)) types)
       (ts_location t) "A generic type cannot have any primitive type parameters."
   else ret true) >>?
  let defined_type := TryGetDefinedType typenames type_name in
  let parameterizable := defined_type ≫= AsParameterizable in
  let is_user_defined_generic_type :=
    match parameterizable with Some (Some _) => true | _ => false end in
  let num_params := length (GetTypeParameters t) in
  if bool_decide (type_name = "List") then CheckGenericList typenames t
  else if bool_decide (type_name = "Map") then CheckGenericMap t
  else if is_user_defined_generic_type then
    let allowed := length (default [] (default None parameterizable)) in
    reject_if (negb (bool_decide (num_params = allowed))) (ts_location t)
      (type_name +:+ " must have " +:+ pretty allowed +:+ " type parameters, but got " +:+
       pretty num_params)
  else
    AIDL_ERROR (ts_location t) (type_name +:+ " is not a generic type.") ;;; ret false.

Definition is_generic_string_list (t : AidlTypeSpecifier) : bool :=
  bool_decide (AidlTypeSpecifier_GetName t = "List") && IsGeneric t &&
  bool_decide (length (GetTypeParameters t) = 1) &&
  match GetTypeParameters t with
  | p :: _ => bool_decide (AidlTypeSpecifier_GetName p = "String")
  | [] => false
  end.

(** The checks of AidlTypeSpecifier::CheckValid that follow the generic
    block: utf8InCpp, void, arrays, nullable. *)
Definition CheckSpecifierRules (typenames : AidlTypenames) (t : AidlTypeSpecifier) : M bool :=
  let name := AidlTypeSpecifier_GetName t in
  let annotations := ts_annotations t in
  reject_if (IsUtf8InCpp annotations &&
             (negb (bool_decide (name = "String")) && negb (is_generic_string_list t)))
    (ts_location t) "@utf8InCpp can only be used on String, String[], and List<String>." >>?
  (if bool_decide (name = "void") then
     reject_if (IsArray t || IsNullable annotations || IsUtf8InCpp annotations) (ts_location t)
       "void type cannot be an array or nullable or utf8 string"
   else ret true) >>?
  (if IsArray t then
     reject_if (from_option AsInterface false (TryGetDefinedType typenames name))
       (ts_location t) "Binder type cannot be an array" >>?
     reject_if (bool_decide (name = "ParcelableHolder")) (ts_location t)
       "Arrays of ParcelableHolder are not supported."
   else ret true) >>?
  (if IsNullable annotations then
     reject_if (IsPrimitiveTypename typenames name && negb (IsArray t)) (ts_location t)
       "Primitive type cannot get nullable annotation" >>?
     reject_if (from_option AsEnumDeclaration false (TryGetDefinedType typenames name) &&
                negb (IsArray t))
       (ts_location t) "Enum type cannot get nullable annotation" >>?
     reject_if (bool_decide (name = "ParcelableHolder")) (ts_location t)
       "ParcelableHolder cannot be nullable."
   else ret true).

(** AidlTypeSpecifier::CheckValid *)
Definition AidlTypeSpecifier_CheckValid (typenames : AidlTypenames) (t : AidlTypeSpecifier)
  : M bool :=
  AidlAnnotatable_CheckValid (ts_location t) AidlTypeSpecifier_GetSupportedAnnotations
    (ts_annotations t) >>?
  (if IsGeneric t then CheckGeneric typenames t else ret true) >>?
  CheckSpecifierRules typenames t.

(** ** AidlVariableDeclaration *)

(** The two constructors: without a default value the engine supplies one
    from the type, and the declaration records that the user wrote none. *)
Definition newVariableDeclaration (loc : AidlLocation) (type : AidlTypeSpecifier)
    (name : string) : AidlVariableDeclaration :=
  mkVariableDeclaration loc type name false (cv_Default cv type).

Definition newVariableDeclarationWithDefault (loc : AidlLocation) (type : AidlTypeSpecifier)
    (name : string) (default_value : AidlConstantValue) : AidlVariableDeclaration :=
  mkVariableDeclaration loc type name true (Some default_value).

(** AidlVariableDeclaration::HasUsefulDefaultValue *)
Definition HasUsefulDefaultValue (v : AidlVariableDeclaration) : bool :=
  if bool_decide (is_Some (default_value_ v)) then true
  else if IsNullable (ts_annotations (var_type_ v)) then true
  else false.

(** AidlVariableDeclaration::ValueString, with AidlConstantValueDecorator. *)
Definition AidlVariableDeclaration_ValueString (v : AidlVariableDeclaration) : string :=
  match default_value_ v with
  | Some d => cv_ValueString cv d (var_type_ v)
  | None => ""
  end.

(** AidlVariableDeclaration::CheckValid *)
Definition AidlVariableDeclaration_CheckValid (typenames : AidlTypenames)
    (v : AidlVariableDeclaration) : M bool :=
  type_valid <- AidlTypeSpecifier_CheckValid typenames (var_type_ v) ;;
  let valid := true && type_valid in
  valid <- (if bool_decide (AidlTypeSpecifier_GetName (var_type_ v) = "void") then
              AIDL_ERROR (var_location v)
                ("Declaration " +:+ var_name_ v +:+
                 " is void, but declarations cannot be of void type.") ;;;
              ret false
            else ret valid) ;;
  match default_value_ v with
  | None => ret valid
  | Some d =>
      let valid := valid && cv_CheckValid cv d in
      if negb valid then ret false
      else ret (negb (bool_decide (AidlVariableDeclaration_ValueString v = "")))
  end.

(** toupper in the C locale. *)
Definition toupper (c : Ascii.ascii) : Ascii.ascii :=
  let n := Ascii.nat_of_ascii c in
  if bool_decide (97 <= n <= 122) then Ascii.ascii_of_nat (n - 32) else c.

(** AidlVariableDeclaration::GetCapitalizedName *)
Definition GetCapitalizedName (v : AidlVariableDeclaration) : M string :=
  match var_name_ v with
  | EmptyString => AIDL_FATAL
  | String c rest => ret (String (toupper c) rest)
  end.

(** AidlVariableDeclaration::ToString *)
Definition AidlVariableDeclaration_ToString (v : AidlVariableDeclaration) : M string :=
  type_str <- AidlTypeSpecifier_ToString (var_type_ v) ;;
  let ret_ := type_str +:+ " " +:+ var_name_ v in
  if bool_decide (is_Some (default_value_ v)) && default_user_specified_ v then
    ret (ret_ +:+ " = " +:+ AidlVariableDeclaration_ValueString v)
  else ret ret_.

(** AidlVariableDeclaration::Signature *)
Definition AidlVariableDeclaration_Signature (v : AidlVariableDeclaration) : string :=
  AidlTypeSpecifier_Signature (var_type_ v) +:+ " " +:+ var_name_ v.

(** ** AidlArgument *)

Import AidlArgument.

(** AidlArgument::AidlArgument with a direction. *)
Definition newArgumentWithDirection (loc : AidlLocation) (direction : Direction)
    (type : AidlTypeSpecifier) (name : string) : AidlArgument :=
  mkArgument (newVariableDeclaration loc type name) direction true.

(** AidlArgument::AidlArgument without a direction. *)
Definition newArgument (loc : AidlLocation) (type : AidlTypeSpecifier) (name : string)
  : AidlArgument :=
  mkArgument (newVariableDeclaration loc type name) IN_DIR false.

(** Modelled from the spec: the accessors of AidlArgument are declared in
    aidl_language.h, which is not among the sources. An argument carries a
    direction and records separately whether the user wrote it. *)
Definition GetDirection (a : AidlArgument) : Direction := direction_ a.

(** Modelled from the spec: see GetDirection. *)
Definition DirectionWasSpecified (a : AidlArgument) : bool := direction_specified_ a.

(** Modelled from the spec: an argument is an out-argument when its
    direction is out or inout (the OUT_DIR bit of the direction). *)
Definition IsOut (a : AidlArgument) : bool :=
  negb (Z.eqb (Z.land (Direction_bits (direction_ a)) (Direction_bits OUT_DIR)) 0).

(** Modelled from the spec: an argument is an in-argument when its
    direction is in or inout (the IN_DIR bit of the direction). *)
Definition IsIn (a : AidlArgument) : bool :=
  negb (Z.eqb (Z.land (Direction_bits (direction_ a)) (Direction_bits IN_DIR)) 0).
(** The type, name and location an argument inherits from
    AidlVariableDeclaration. *)
Definition arg_type (a : AidlArgument) : AidlTypeSpecifier := var_type_ (arg_variable a).
Definition arg_name (a : AidlArgument) : string := var_name_ (arg_variable a).
Definition arg_location (a : AidlArgument) : AidlLocation := var_location (arg_variable a).

(** AidlArgument::GetDirectionSpecifier *)
Definition GetDirectionSpecifier (a : AidlArgument) : string :=
  let ret := "" in
  if direction_specified_ a then
    match direction_ a with
    | IN_DIR => ret +:+ "in"
    | OUT_DIR => ret +:+ "out"
    | INOUT_DIR => ret +:+ "inout"
    end
  else ret.

(** AidlArgument::ToString *)
Definition AidlArgument_ToString (a : AidlArgument) : M string :=
  if direction_specified_ a then
    s <- AidlVariableDeclaration_ToString (arg_variable a) ;;
    ret (GetDirectionSpecifier a +:+ " " +:+ s)
  else AidlVariableDeclaration_ToString (arg_variable a).

(** ** AidlConstantDeclaration *)

Definition kSupportedConstTypes : list string := ["String"; "byte"; "int"; "long"].

(** AidlConstantDeclaration::CheckValid *)
Definition AidlConstantDeclaration_CheckValid (typenames : AidlTypenames)
    (c : AidlConstantDeclaration) : M bool :=
  type_valid <- AidlTypeSpecifier_CheckValid typenames (const_type_ c) ;;
  let valid := true && type_valid in
  let valid := valid && cv_CheckValid cv (const_value_ c) in
  if negb valid then ret false
  else
    reject_if (negb (string_in (AidlTypeSpecifier_Signature (const_type_ c)) kSupportedConstTypes))
      (const_location c)
      ("Constant of type " +:+ AidlTypeSpecifier_Signature (const_type_ c) +:+
       " is not supported.").

(** ** AidlMethod *)

(** AidlMethod::AidlMethod with an explicit id. *)
Definition newMethodWithId (loc : AidlLocation) (oneway : bool) (type : AidlTypeSpecifier)
    (name : string) (args : list AidlArgument) (comments : string) (id : Z)
    (is_user_defined : bool) : AidlMethod :=
  mkMethod loc oneway comments type name args (filter (fun a => IsIn a) args)
    (filter (fun a => IsOut a) args) id true is_user_defined.

(** AidlMethod::AidlMethod without an id. *)
Definition newMethod (loc : AidlLocation) (oneway : bool) (type : AidlTypeSpecifier)
    (name : string) (args : list AidlArgument) (comments : string) : AidlMethod :=
  let m := newMethodWithId loc oneway type name args comments 0 true in
  mkMethod (method_location m) (oneway_ m) (method_comments_ m) (method_type_ m)
    (method_name_ m) (arguments_ m) (in_arguments_ m) (out_arguments_ m) (id_ m) false
    (is_user_defined_ m).

(** Modelled from the spec: ApplyInterfaceOneway is declared in
    aidl_language.h. A method of a oneway interface is oneway. *)
Definition ApplyInterfaceOneway (oneway : bool) (m : AidlMethod) : AidlMethod :=
  mkMethod (method_location m) (oneway_ m || oneway) (method_comments_ m) (method_type_ m)
    (method_name_ m) (arguments_ m) (in_arguments_ m) (out_arguments_ m) (id_ m) (has_id_ m)
    (is_user_defined_ m).

(** Modelled from the spec: IsOneway is declared in aidl_language.h and
    reads the oneway flag. *)
Definition IsOneway (m : AidlMethod) : bool := oneway_ m.

(** AidlMethod::Signature *)
Definition AidlMethod_Signature (m : AidlMethod) : string :=
  method_name_ m +:+ "(" +:+
  Join ((fun arg => AidlTypeSpecifier_Signature (arg_type arg)) <$> arguments_ m) ", " +:+ ")".

(** ** AidlDefinedType *)

(** The member partition done by the AidlDefinedType constructor. *)
Definition member_constants (members : list AidlMember) : list AidlConstantDeclaration :=
  omap (fun m => match m with ConstantDeclaration c => Some c | _ => None end) members.
Definition member_variables (members : list AidlMember) : list AidlVariableDeclaration :=
  omap (fun m => match m with VariableDeclaration v => Some v | _ => None end) members.
Definition member_methods (members : list AidlMember) : list AidlMethod :=
  omap (fun m => match m with Method x => Some x | _ => None end) members.

(** AidlDefinedType::AidlDefinedType, for the class [kind]. *)
Definition newDefinedType (loc : AidlLocation) (name comments package : string)
    (members : option (list AidlMember)) (kind : DefinedTypeKind) : AidlDefinedType :=
  let ms := default [] members in
  mkDefinedType loc [] name comments package (member_constants ms) (member_variables ms)
    (member_methods ms) ms kind.

(** Modelled from the spec: Annotate is declared in aidl_language.h. It
    attaches annotation instances to a declaration. *)
Definition Annotate (annotations : list AidlAnnotation) (d : AidlDefinedType)
  : AidlDefinedType :=
  mkDefinedType (dt_location d) (dt_annotations d ++ annotations) (dt_name_ d)
    (dt_comments_ d) (dt_package_ d) (constants_ d) (variables_ d) (methods_ d) (members_ d)
    (dt_kind d).

(** Modelled from the spec: GetFields is declared in aidl_language.h and
    reads the field list built by the constructor. *)
Definition GetFields (d : AidlDefinedType) : list AidlVariableDeclaration := variables_ d.

(** GetSupportedAnnotations of the five concrete classes. *)
Definition AidlDefinedType_GetSupportedAnnotations (d : AidlDefinedType) : list Type_ :=
  match dt_kind d with
  | Parcelable _ _ =>
      [VINTF_STABILITY; UNSUPPORTED_APP_USAGE; JAVA_STABLE_PARCELABLE; HIDE;
       JAVA_PASSTHROUGH; JAVA_ONLY_IMMUTABLE]
  | StructuredParcelable _ =>
      [VINTF_STABILITY; UNSUPPORTED_APP_USAGE; HIDE; JAVA_PASSTHROUGH; JAVA_DERIVE;
       JAVA_ONLY_IMMUTABLE; FIXED_SIZE; RUST_DERIVE]
  | UnionDecl _ =>
      [VINTF_STABILITY; HIDE; JAVA_PASSTHROUGH; JAVA_DERIVE; JAVA_ONLY_IMMUTABLE; RUST_DERIVE]
  | EnumDeclaration _ _ => [VINTF_STABILITY; BACKING; HIDE; JAVA_PASSTHROUGH]
  | Interface =>
      [SENSITIVE_DATA; VINTF_STABILITY; UNSUPPORTED_APP_USAGE; HIDE; JAVA_PASSTHROUGH;
       DESCRIPTOR]
  end.

(** Loop bodies of AidlDefinedType::CheckValidWithMembers. *)
Definition CheckField (typenames : AidlTypenames) (success : bool)
    (v : AidlVariableDeclaration) : M bool :=
  field_valid <- AidlVariableDeclaration_CheckValid typenames v ;;
  ret (success && field_valid).

Definition CheckFieldName (d : AidlDefinedType) (st : bool * gset string)
    (v : AidlVariableDeclaration) : M (bool * gset string) :=
  let '(success, fieldnames) := st in
  if bool_decide (var_name_ v ∈ fieldnames) then
    AIDL_ERROR (var_location v)
      ("'" +:+ dt_name_ d +:+ "' has duplicate field name '" +:+ var_name_ v +:+ "'") ;;;
    ret (false, fieldnames)
  else ret (success, {[var_name_ v]} ∪ fieldnames).

Definition CheckFieldImmutable (typenames : AidlTypenames) (d : AidlDefinedType)
    (success : bool) (v : AidlVariableDeclaration) : M bool :=
  if negb (CanBeJavaOnlyImmutable typenames (var_type_ v)) then
    AIDL_ERROR (var_location v)
      ("The @JavaOnlyImmutable '" +:+ dt_name_ d +:+ "' has a " +:+
       "non-immutable field named '" +:+ var_name_ v +:+ "'.") ;;;
    ret false
  else ret success.

Definition CheckConstant (typenames : AidlTypenames) (st : bool * gset string)
    (constant : AidlConstantDeclaration) : M (bool * gset string) :=
  let '(success, constant_names) := st in
  success <- (if bool_decide (const_name_ constant ∈ constant_names) then
                AIDL_ERROR (const_location constant)
                  ("Found duplicate constant name '" +:+ const_name_ constant +:+ "'") ;;;
                ret false
              else ret success) ;;
  let constant_names := {[const_name_ constant]} ∪ constant_names in
  success <- (if success : bool then AidlConstantDeclaration_CheckValid typenames constant
              else ret false) ;;
  ret (success, constant_names).

(** AidlDefinedType::CheckValidWithMembers *)
Definition CheckValidWithMembers (typenames : AidlTypenames) (d : AidlDefinedType) : M bool :=
  success <- accumulate (CheckField typenames) (GetFields d) true ;;
  st <- accumulate (CheckFieldName d) (GetFields d) (success, ∅) ;;
  success <- (if IsJavaOnlyImmutable (dt_annotations d) then
                accumulate (CheckFieldImmutable typenames d) (GetFields d) (fst st)
              else ret (fst st)) ;;
  st <- accumulate (CheckConstant typenames) (constants_ d) (success, ∅) ;;
  ret (fst st).

(** AidlDefinedType::CheckValid *)
Definition AidlDefinedType_CheckValid (typenames : AidlTypenames) (d : AidlDefinedType)
  : M bool :=
  AidlAnnotatable_CheckValid (dt_location d) (AidlDefinedType_GetSupportedAnnotations d)
    (dt_annotations d) >>?
  CheckValidWithMembers typenames d.

(** The loop body of AidlDefinedType::CheckValidForGetterNames. *)
Definition CheckGetterName (d : AidlDefinedType) (st : bool * gset string)
    (v : AidlVariableDeclaration) : M (bool * gset string) :=
  let '(success, getters) := st in
  capitalized <- GetCapitalizedName v ;;
  if bool_decide (capitalized ∈ getters) then
    AIDL_ERROR (var_location v)
      ("'" +:+ dt_name_ d +:+ "' has duplicate field name '" +:+ var_name_ v +:+
       "' after capitalizing the first letter") ;;;
    ret (false, getters)
  else ret (success, {[capitalized]} ∪ getters).

(** AidlDefinedType::CheckValidForGetterNames *)
Definition CheckValidForGetterNames (d : AidlDefinedType) : M bool :=
  st <- accumulate (CheckGetterName d) (GetFields d) (true, ∅) ;;
  ret (fst st).

(** ** AidlParcelable and AidlStructuredParcelable *)

(** AidlParameterizable<std::string>::CheckValid *)
Definition AidlParameterizable_CheckValid (loc : AidlLocation)
    (type_params : option (list string)) : M bool :=
  match type_params with
  | None => ret true
  | Some params =>
      reject_if (negb (bool_decide (size (list_to_set params : gset string) = length params)))
        loc "Every type parameter should be unique."
  end.

(** The type parameters of a parcelable, none for the other kinds. *)
Definition parcelable_type_params (d : AidlDefinedType) : option (list string) :=
  default None (AsParameterizable d).

(** AidlParcelable::CheckValid *)
Definition AidlParcelable_CheckValid (typenames : AidlTypenames) (d : AidlDefinedType)
  : M bool :=
  AidlDefinedType_CheckValid typenames d >>?
  AidlParameterizable_CheckValid (dt_location d) (parcelable_type_params d).

Definition CheckFieldFixedSize (typenames : AidlTypenames) (d : AidlDefinedType)
    (success : bool) (v : AidlVariableDeclaration) : M bool :=
  if negb (CanBeFixedSize typenames (var_type_ v)) then
    AIDL_ERROR (var_location v)
      ("The @FixedSize parcelable '" +:+ dt_name_ d +:+ "' has a " +:+
       "non-fixed size field named " +:+ var_name_ v +:+ ".") ;;;
    ret false
  else ret success.

(** AidlStructuredParcelable::CheckValid *)
Definition AidlStructuredParcelable_CheckValid (typenames : AidlTypenames)
    (d : AidlDefinedType) : M bool :=
  AidlParcelable_CheckValid typenames d >>?
  (success <- (if IsFixedSize (dt_annotations d) then
                 accumulate (CheckFieldFixedSize typenames d) (GetFields d) true
               else ret true) ;;
   if IsJavaOnlyImmutable (dt_annotations d) then
     getters_ok <- CheckValidForGetterNames d ;;
     ret (if negb getters_ok then false else success)
   else ret success).

(** ** AidlEnumerator and AidlEnumDeclaration *)

(** AidlEnumerator::AidlEnumerator *)
Definition newEnumerator (loc : AidlLocation) (name : string)
    (value : option AidlConstantValue) (comments : string) : AidlEnumerator :=
  mkEnumerator loc name value comments (bool_decide (is_Some value)).

(** Modelled from the spec: SetValue is declared in aidl_language.h. It
    replaces the value of the enumerator and nothing else. *)
Definition SetValue (e : AidlEnumerator) (value : AidlConstantValue) : AidlEnumerator :=
  mkEnumerator (enumerator_location e) (enumerator_name_ e) (Some value)
    (enumerator_comments_ e) (value_user_specified_ e).

(** AidlEnumerator::CheckValid *)
Definition AidlEnumerator_CheckValid (enum_backing_type : AidlTypeSpecifier)
    (e : AidlEnumerator) : M bool :=
  match enumerator_value_ e with
  | None => ret false
  | Some value =>
      if negb (cv_CheckValid cv value) then ret false
      else
        reject_if (bool_decide (cv_ValueString cv value enum_backing_type = ""))
          (enumerator_location e) "Enumerator type differs from enum backing type."
  end.

(** The loop of the AidlEnumDeclaration constructor: fill missing
    enumerator values with <prev + 1>. *)
Fixpoint fill_enumerator_values (previous : option AidlEnumerator)
    (enumerators : list AidlEnumerator) : list AidlEnumerator :=
  match enumerators with
  | [] => []
  | enumerator :: rest =>
      let enumerator :=
        match enumerator_value_ enumerator with
        | None =>
            let loc := enumerator_location enumerator in
            match previous with
            | None => SetValue enumerator (Integral loc "0")
            | Some prev =>
                let prev_value := AidlConstantReference loc (enumerator_name_ prev) "" in
                SetValue enumerator
                  (AidlBinaryConstExpression loc prev_value "+" (Integral loc "1"))
            end
        | Some _ => enumerator
        end in
      enumerator :: fill_enumerator_values (Some enumerator) rest
  end.

(** AidlEnumDeclaration::AidlEnumDeclaration *)
Definition newEnumDeclaration (loc : AidlLocation) (name : string)
    (enumerators : list AidlEnumerator) (package comments : string) : AidlDefinedType :=
  newDefinedType loc name comments package None
    (EnumDeclaration (fill_enumerator_values None enumerators) None).

(** Modelled from the spec: GetEnumerators and GetBackingType are declared
    in aidl_language.h and read the members of an enum declaration. *)
Definition GetEnumerators (d : AidlDefinedType) : list AidlEnumerator :=
  match dt_kind d with EnumDeclaration es _ => es | _ => [] end.

(** Modelled from the spec: see GetEnumerators. *)
Definition GetBackingType (d : AidlDefinedType) : option AidlTypeSpecifier :=
  match dt_kind d with EnumDeclaration _ bt => bt | _ => None end.

(** The assignment to backing_type_ in Autofill. *)
Definition set_backing_type (d : AidlDefinedType) (bt : AidlTypeSpecifier) : AidlDefinedType :=
  mkDefinedType (dt_location d) (dt_annotations d) (dt_name_ d) (dt_comments_ d)
    (dt_package_ d) (constants_ d) (variables_ d) (methods_ d) (members_ d)
    (match dt_kind d with
     | EnumDeclaration es _ => EnumDeclaration es (Some bt)
     | k => k
     end).

(** Modelled from the spec: ParamValue is declared in aidl_language.h. It
    reads the named parameter as a string through the engine;
    [ParamValue<std::string>(name).value()] ends the program when there is
    no such value. *)
Definition ParamValue_string_value (a : AidlAnnotation) (param_name : string) : M string :=
  match assoc_find param_name (parameters_ a) ≫= cv_Cast_string cv with
  | Some s => ret s
  | None => AIDL_FATAL
  end.

(** The tail of Autofill: resolve the backing type by hand. *)
Definition ResolveBackingType (typenames : AidlTypenames) (d : AidlDefinedType)
    (backing_type : AidlTypeSpecifier) : M (bool * AidlDefinedType) :=
  r <- AidlTypeSpecifier_Resolve typenames backing_type ;;
  (if negb (fst r) then
     AIDL_ERROR (dt_location d)
       ("Invalid backing type: " +:+ AidlTypeSpecifier_GetName (snd r))
   else ret tt) ;;;
  ret (true, set_backing_type d (snd r)).

(** AidlEnumDeclaration::Autofill; the declaration with its backing type
    set is returned next to the result. *)
Definition AidlEnumDeclaration_Autofill (typenames : AidlTypenames) (d : AidlDefinedType)
  : M (bool * AidlDefinedType) :=
  match BackingType (dt_annotations d) with
  | Some annot =>
      ok <- AidlAnnotation_CheckValid annot ;;
      if negb ok then ret (false, d)
      else
        type <- ParamValue_string_value annot "type" ;;
        ResolveBackingType typenames d
          (newTypeSpecifier (annot_location annot) type false None "")
  | None =>
      ResolveBackingType typenames d
        (newTypeSpecifier (AIDL_LOCATION_HERE 1233) "byte" false None "")
  end.

Definition CheckEnumerator (backing_type : AidlTypeSpecifier) (success : bool)
    (e : AidlEnumerator) : M bool :=
  if success then AidlEnumerator_CheckValid backing_type e else ret false.

(** AidlEnumDeclaration::CheckValid *)
Definition AidlEnumDeclaration_CheckValid (typenames : AidlTypenames) (d : AidlDefinedType)
  : M bool :=
  AidlDefinedType_CheckValid typenames d >>?
  reject_if (negb (bool_decide (members_ d = []))) (dt_location d)
    "Enum doesn't support fields/constants/methods." >>?
  match GetBackingType d with
  | None => AIDL_ERROR (dt_location d) "Enum declaration missing backing type." ;;; ret false
  | Some backing_type =>
      success <- accumulate (CheckEnumerator backing_type) (GetEnumerators d) true ;;
      if negb success then ret false
      else
        match GetEnumerators d with
        | [] => AIDL_FATAL
        | first :: _ =>
            let first_value :=
              from_option (fun v => cv_ValueString cv v backing_type) ""
                (enumerator_value_ first) in
            (if negb (bool_decide (first_value = "0")) then
               Report (enumerator_location first) enum_zero
                 ("The first enumerator '" +:+ enumerator_name_ first +:+
                  "' should be 0, but it is " +:+ first_value +:+ ".")
             else ret tt) ;;;
            ret true
        end
  end.

(** ** AidlUnionDecl *)

Definition CheckNoParcelableHolder (success : bool) (v : AidlVariableDeclaration) : M bool :=
  if bool_decide (AidlTypeSpecifier_GetName (var_type_ v) = "ParcelableHolder") then
    AIDL_ERROR (var_location v)
      ("A union can't have a member of ParcelableHolder '" +:+ var_name_ v +:+ "'") ;;;
    ret false
  else ret success.

Definition first_member_enum_message : string :=
  "The union's first member should have a useful default value. Enum types can be " +:+
  "initialized with a reference. (e.g. ... = MyEnum.FOO;)".

(** The first-member block of AidlUnionDecl::CheckValid: [false] stands for
    leaving CheckValid with [return false]. *)
Definition CheckFirstMember (typenames : AidlTypenames) (first : AidlVariableDeclaration)
  : M bool :=
  if negb (HasUsefulDefaultValue first) then
    reject_if (negb (IsArray (var_type_ first)) &&
               bool_decide (is_Some (GetEnumDeclaration typenames (var_type_ first))))
      (var_location first) first_member_enum_message >>?
    reject_if (IsArray (var_type_ first)) (var_location first)
      ("The union's first member should have a useful default value. Arrays can be " +:+
       "initialized with values(e.g. ... = { values... };) or marked as @nullable.")
  else ret true.

(** AidlUnionDecl::CheckValid *)
Definition AidlUnionDecl_CheckValid (typenames : AidlTypenames) (d : AidlDefinedType)
  : M bool :=
  AidlParcelable_CheckValid typenames d >>?
  CheckValidForGetterNames d >>?
  (success <- accumulate CheckNoParcelableHolder (GetFields d) true ;;
   match GetFields d with
   | [] =>
       AIDL_ERROR (dt_location d) ("The union '" +:+ dt_name_ d +:+ "' has no fields.") ;;;
       ret false
   | first :: _ =>
       CheckFirstMember typenames first >>? ret success
   end).

(** ** AidlInterface *)

Definition kJavaKeywords : list string :=
  ["abstract"; "assert"; "boolean"; "break"; "byte"; "case"; "catch";
   "char"; "class"; "const"; "continue"; "default"; "do"; "double";
   "else"; "enum"; "extends"; "final"; "finally"; "float"; "for";
   "goto"; "if"; "implements"; "import"; "instanceof"; "int"; "interface";
   "long"; "native"; "new"; "package"; "private"; "protected"; "public";
   "return"; "short"; "static"; "strictfp"; "super"; "switch"; "synchronized";
   "this"; "throw"; "throws"; "transient"; "try"; "void"; "volatile";
   "while"; "true"; "false"; "null"].

Definition IsJavaKeyword (str : string) : bool := string_in str kJavaKeywords.

(** AidlInterface::AidlInterface. The methods are shared between the method
    list and the member list, so the update of the oneway flag shows in
    both. *)
Definition newInterface (loc : AidlLocation) (name comments : string) (oneway : bool)
    (package : string) (members : option (list AidlMember)) : AidlDefinedType :=
  let d := newDefinedType loc name comments package members Interface in
  mkDefinedType (dt_location d) (dt_annotations d) (dt_name_ d) (dt_comments_ d)
    (dt_package_ d) (constants_ d) (variables_ d) (ApplyInterfaceOneway oneway <$> methods_ d)
    ((fun member =>
        match member with
        | Method m => Method (ApplyInterfaceOneway oneway m)
        | other => other
        end) <$> members_ d)
    (dt_kind d).

Definition oneway_return_message (m : AidlMethod) : string :=
  "oneway method '" +:+ method_name_ m +:+ "' cannot return a value".

Definition oneway_out_message (m : AidlMethod) : string :=
  "oneway method '" +:+ method_name_ m +:+ "' cannot have out parameters".

(** The checks on one argument that follow the duplicate-name test. *)
Definition CheckArgumentRules (typenames : AidlTypenames) (m : AidlMethod)
    (arg : AidlArgument) : M bool :=
  AidlTypeSpecifier_CheckValid typenames (arg_type arg) >>?
  reject_if (bool_decide (AidlTypeSpecifier_GetName (arg_type arg) = "ParcelableHolder"))
    (arg_location arg) "ParcelableHolder cannot be an argument type" >>?
  reject_if (IsOneway m && IsOut arg) (method_location m) (oneway_out_message m) >>?
  let '(can_be_out, type_aspect) := CanBeOutParameter typenames (arg_type arg) in
  reject_if (negb (DirectionWasSpecified arg) && can_be_out) (arg_location arg)
    ("'" +:+ AidlTypeSpecifier_Signature (arg_type arg) +:+
     "' can be an out type, so you must declare it as in, out, or inout.") >>?
  reject_if (negb (bool_decide (GetDirection arg = IN_DIR)) && negb can_be_out)
    (arg_location arg)
    ("'" +:+ arg_name arg +:+ "' can't be an " +:+ GetDirectionSpecifier arg +:+
     " parameter because " +:+ type_aspect +:+ " can only be an in parameter.") >>?
  reject_if (IsJavaKeyword (arg_name arg)) (arg_location arg)
    "Argument name is a Java or aidl keyword" >>?
  reject_if (String.prefix "_aidl" (arg_name arg)) (arg_location arg)
    "Argument name cannot begin with '_aidl'" >>?
  ((if bool_decide (GetDirection arg = INOUT_DIR) then
      Report (arg_location arg) inout_parameter
        (arg_name arg +:+
         " is 'inout'. Avoid inout parameters. This is somewhat confusing for clients " +:+
         "because although the parameters are 'in', they look out 'out' parameters.")
    else ret tt) ;;;
   ret true).

(** The body of the loop over the arguments of a method. *)
Definition CheckArgument (typenames : AidlTypenames) (m : AidlMethod)
    (argument_names : gset string) (arg : AidlArgument) : M (option (gset string)) :=
  if bool_decide (arg_name arg ∈ argument_names) then
    AIDL_ERROR (method_location m)
      ("method '" +:+ method_name_ m +:+ "' has duplicate argument name '" +:+
       arg_name arg +:+ "'") ;;;
    ret None
  else
    ok <- CheckArgumentRules typenames m arg ;;
    ret (if ok : bool then Some ({[arg_name arg]} ∪ argument_names) else None).

Definition reserved_methods : list string :=
  ["asBinder()"; "getInterfaceHash()"; "getInterfaceVersion()"; "getTransactionName(int)"].

(** The part of the method loop before the duplicate-method test. *)
Definition CheckMethodRules (typenames : AidlTypenames) (m : AidlMethod) : M bool :=
  AidlTypeSpecifier_CheckValid typenames (method_type_ m) >>?
  reject_if (bool_decide (AidlTypeSpecifier_GetName (method_type_ m) = "ParcelableHolder"))
    (method_location m) "ParcelableHolder cannot be a return type" >>?
  reject_if (IsOneway m &&
             negb (bool_decide (AidlTypeSpecifier_GetName (method_type_ m) = "void")))
    (method_location m) (oneway_return_message m) >>?
  (argument_names <- loop_or_return (CheckArgument typenames m) (arguments_ m) ∅ ;;
   ret (bool_decide (is_Some argument_names))).

(** The body of the loop over the methods of an interface; [method_names]
    maps the method names seen so far to their methods. *)
Definition CheckMethod (typenames : AidlTypenames) (method_names : gmap string AidlMethod)
    (m : AidlMethod) : M (option (gmap string AidlMethod)) :=
  ok <- CheckMethodRules typenames m ;;
  if ok : bool then
    match method_names !! method_name_ m with
    | None =>
        ok <- reject_if (string_in (AidlMethod_Signature m) reserved_methods)
                (method_location m)
                (" method " +:+ AidlMethod_Signature m +:+ " is reserved for internal use.") ;;
        ret (if ok : bool then Some (<[method_name_ m := m]> method_names) else None)
    | Some previous =>
        AIDL_ERROR (method_location m)
          ("attempt to redefine method " +:+ method_name_ m +:+ ":") ;;;
        AIDL_ERROR (method_location previous) "previously defined here." ;;;
        ret None
    end
  else ret None.

(** name.size() >= 1 && name[0] == 'I' (code 73) *)
Definition starts_with_I (name : string) : bool :=
  match name with
  | String c _ => bool_decide (Ascii.nat_of_ascii c = 73)
  | EmptyString => false
  end.

(** AidlInterface::CheckValid *)
Definition AidlInterface_CheckValid (typenames : AidlTypenames) (d : AidlDefinedType)
  : M bool :=
  AidlDefinedType_CheckValid typenames d >>?
  (method_names <- loop_or_return (CheckMethod typenames) (methods_ d) ∅ ;;
   if bool_decide (is_Some method_names) then
     st <- accumulate (CheckConstant typenames) (constants_ d) (true, ∅) ;;
     (if negb (starts_with_I (dt_name_ d)) then
        Report (dt_location d) interface_name "Interface names should start with I."
      else ret tt) ;;;
     ret (fst st)
   else ret false).

(** ** AidlDocument *)

(** The virtual call t->CheckValid(typenames, diag). *)
Definition CheckValid (typenames : AidlTypenames) (t : AidlDefinedType) : M bool :=
  match dt_kind t with
  | Parcelable _ _ => AidlParcelable_CheckValid typenames t
  | StructuredParcelable _ => AidlStructuredParcelable_CheckValid typenames t
  | UnionDecl _ => AidlUnionDecl_CheckValid typenames t
  | EnumDeclaration _ _ => AidlEnumDeclaration_CheckValid typenames t
  | Interface => AidlInterface_CheckValid typenames t
  end.

(** AidlDocument::CheckValid *)
Definition AidlDocument_CheckValid (typenames : AidlTypenames) (doc : AidlDocument) : M bool :=
  all_or_return (CheckValid typenames) (defined_types_ doc).

End Validation.

(** ** Specification-level readings

    The definitions of this section follow the wording of the specification
    rather than the control flow of the source; the theorems compare them
    with the validators above. *)

Section Readings.
Context (cv : ConstantValueEngine).

(** A supplied parameter has a problem when its name is not in the schema,
    or its value refers to another constant, or its value is invalid, or
    its value renders as the empty string. A value refers to another
    constant when a finder that starts with a null [found] has found a
    reference after Accept. *)
Definition parameter_problem (a : AidlAnnotation) (p : string * AidlConstantValue) : bool :=
  match assoc_find (fst p) (supported_parameters (schema_ a)) with
  | None => true
  | Some type =>
      negb (is_null (found (Accept (snd p) (mkFinder nullptr)))) ||
      negb (cv_CheckValid cv (snd p)) ||
      bool_decide (cv_ValueString cv (snd p) type = "")
  end.

(** A supplied parameter passes when it has no problem and the finder
    built for it starts with a null [found]. *)
Definition parameter_passes (a : AidlAnnotation) (p : string * AidlConstantValue) : Prop :=
  parameter_problem a p = false /\ cv_found_before_Accept cv a (fst p) = nullptr.

(** The error printed through a [found] that is not null after Accept. *)
Definition reference_diagnostic (loc : AidlLocation) (value : string) : Diagnostic :=
  Error loc
    ("Value must be a constant expression but contains reference to " +:+
     cv_GetFieldName cv value +:+ ".").

(** The required parameters that were not supplied. *)
Definition missing_required (a : AidlAnnotation) : list string :=
  filter (fun r => r ∉ (fst <$> parameters_ a)) (required_parameters (schema_ a)).

(** The number of violations of an annotation instance: one per supplied
    parameter with a problem, plus one per missing required parameter. *)
Definition violations (a : AidlAnnotation) : nat :=
  length (filter (fun p => parameter_problem a p = true) (parameters_ a)) +
  length (missing_required a).

Definition missing_diagnostic (a : AidlAnnotation) (param : string) : Diagnostic :=
  Error (annot_location a)
    ("Missing '" +:+ param +:+ "' on @" +:+ AidlAnnotation_GetName a +:+ ".").
End Readings.

(** The type parameters the specification allows in List<T>: never an enum
    and never a primitive; a built-in only if it is String, IBinder or
    ParcelFileDescriptor; a type that is not built-in only if it is not an
    interface. *)
Definition list_parameter_allowed (typenames : AidlTypenames) (T : AidlTypeSpecifier) : bool :=
  let name := AidlTypeSpecifier_GetName T in
  negb (bool_decide (is_Some (GetEnumDeclaration typenames T))) &&
  negb (IsPrimitiveTypename typenames name) &&
  (if IsBuiltinTypename typenames name then
     bool_decide (name = "String") || bool_decide (name = "IBinder") ||
     bool_decide (name = "ParcelFileDescriptor")
   else negb (bool_decide (is_Some (GetInterface typenames T)))).

(** A diagnostic names a method when its text contains the method name. *)
Fixpoint contains (needle s : string) : bool :=
  String.prefix needle s ||
  match s with
  | EmptyString => false
  | String _ r => contains needle r
  end.

Definition message (d : Diagnostic) : string :=
  match d with Error _ msg => msg | Advisory _ _ msg => msg end.

(** Modelled from the spec: evaluation of enumerator values belongs to the
    constant-value engine (aidl_constant_value.cpp), which is not among the
    sources. Following the description of enum autofill, an integral literal
    stands for its decimal value, a reference to an enumerator stands for
    the value of that enumerator, and "+" adds. The fuel bounds the chain of
    references. *)
Definition digit_value (c : Ascii.ascii) : option Z :=
  let n := Ascii.nat_of_ascii c in
  if bool_decide (48 <= n <= 57) then Some (Z.of_nat (n - 48)) else None.

(** Modelled from the spec: the decimal value of a digit string. *)
Fixpoint parse_digits (s : string) (acc : Z) : option Z :=
  match s with
  | EmptyString => Some acc
  | String c r => d ← digit_value c; parse_digits r (10 * acc + d)%Z
  end.

(** Modelled from the spec: the value of an integral literal. *)
Definition parse_decimal (s : string) : option Z :=
  match s with
  | EmptyString => None
  | _ => parse_digits s 0
  end.

(** Modelled from the spec: the enumerator a reference names. *)
Definition find_enumerator (enumerators : list AidlEnumerator) (name : string)
  : option AidlEnumerator :=
  snd <$> list_find (fun e => enumerator_name_ e = name) enumerators.

(** Modelled from the spec: evaluation of an enumerator value, as described
    for [digit_value] above. *)
Fixpoint evaluate (fuel : nat) (enumerators : list AidlEnumerator) (v : AidlConstantValue)
  : option Z :=
  match fuel with
  | 0 => None
  | S fuel =>
      match v with
      | Integral _ s => parse_decimal s
      | AidlConstantReference _ name _ =>
          e ← find_enumerator enumerators name;
          value ← enumerator_value_ e;
          evaluate fuel enumerators value
      | AidlBinaryConstExpression _ l op r =>
          if bool_decide (op = "+") then
            x ← evaluate fuel enumerators l;
            y ← evaluate fuel enumerators r;
            Some (x + y)%Z
          else None
      | _ => None
      end
  end.

(** Modelled from the spec: the values of all enumerators of a declaration,
    in order. *)
Definition enumerator_values (enumerators : list AidlEnumerator) : list (option Z) :=
  (fun e => enumerator_value_ e ≫= evaluate (2 * length enumerators + 1) enumerators)
    <$> enumerators.

(** The value the constructor gives to position [i] of an enumerator list:
    an explicit value is kept, a missing first value becomes the literal 0,
    and a missing later value becomes "previous enumerator + 1". *)
Definition filled_enumerator (enumerators : list AidlEnumerator) (i : nat)
    (e : AidlEnumerator) : AidlEnumerator :=
  match enumerator_value_ e with
  | Some _ => e
  | None =>
      let loc := enumerator_location e in
      match i with
      | 0 => SetValue e (Integral loc "0")
      | S j =>
          let prev_name := from_option enumerator_name_ "" (enumerators !! j) in
          SetValue e
            (AidlBinaryConstExpression loc (AidlConstantReference loc prev_name "") "+"
               (Integral loc "1"))
      end
  end.

(** ** A concrete engine and type-name table

    The general theorems below hold for every constant-value engine and
    every type-name table. The instances here are sample collaborators, used
    to run the validators on concrete declarations; they make no statement
    about the real engine or the real table. *)

Module Examples.
Import AidlAnnotation AidlArgument.

Definition loc (l : nat) : AidlLocation :=
  mkLocation "IFoo.aidl" (mkPoint l 1) (mkPoint l 20) EXTERNAL.

(** Literals are valid and print as written; everything else needs the
    evaluator and prints as the empty string. Storage that was never set
    reads as zero. *)
Definition engine : ConstantValueEngine := {|
  cv_CheckValid := fun v =>
    match v with Integral _ _ | Literal _ _ => true | _ => false end;
  cv_ValueString := fun v _ =>
    match v with Integral _ s | Literal _ s => s | _ => "" end;
  cv_Default := fun t =>
    if is_array_ t then None
    else
      let name := AidlTypeSpecifier_GetName t in
      if bool_decide (name = "boolean") then Some (Literal (ts_location t) "false")
      else if string_in name ["byte"; "int"; "long"] then Some (Integral (ts_location t) "0")
      else if bool_decide (name = "float") then Some (Literal (ts_location t) "0.0f")
      else if bool_decide (name = "double") then Some (Literal (ts_location t) "0.0")
      else None;
  cv_Cast_string := fun v => match v with Literal _ s => Some s | _ => None end;
  cv_GetFieldName := fun s => s;
  cv_found_before_Accept := fun _ _ => nullptr |}.

Definition primitive_types : list string :=
  ["void"; "boolean"; "byte"; "char"; "int"; "long"; "float"; "double"].

Definition builtin_types : list string :=
  primitive_types ++
  ["String"; "List"; "Map"; "IBinder"; "FileDescriptor"; "CharSequence";
   "ParcelFileDescriptor"; "ParcelableHolder"].

Definition simple (name : string) : AidlTypeSpecifier :=
  newTypeSpecifier (loc 1) name false None "".

Definition resolved (name : string) : AidlTypeSpecifier :=
  mkTypeSpecifier (loc 1) [] name name false None "" None.

Definition Color : AidlDefinedType :=
  newEnumDeclaration (loc 50) "Color" [newEnumerator (loc 51) "RED" None ""] "" "".
Definition IBar : AidlDefinedType := newInterface (loc 60) "IBar" "" false "" None.
Definition Data : AidlDefinedType :=
  newDefinedType (loc 70) "Data" "" "" None (StructuredParcelable None).

Definition table : list AidlDefinedType := [Color; IBar; Data].

Definition lookup_type (name : string) : option AidlDefinedType :=
  snd <$> list_find (fun d => dt_name_ d = name) table.

Definition typenames : AidlTypenames := {|
  ResolveTypename := fun name =>
    if string_in name builtin_types then mkResolvedTypename name true None
    else if bool_decide (is_Some (lookup_type name))
         then mkResolvedTypename name true (Some name)
         else mkResolvedTypename "" false None;
  TryGetDefinedType := lookup_type;
  GetEnumDeclaration := fun t =>
    d ← lookup_type (AidlTypeSpecifier_GetName t);
    if AsEnumDeclaration d then Some d else None;
  GetInterface := fun t =>
    d ← lookup_type (AidlTypeSpecifier_GetName t);
    if AsInterface d then Some d else None;
  IsPrimitiveTypename := fun name => string_in name primitive_types;
  IsBuiltinTypename := fun name => string_in name builtin_types;
  CanBeJavaOnlyImmutable := fun _ => true;
  CanBeFixedSize := fun t => string_in (AidlTypeSpecifier_GetName t) primitive_types;
  CanBeOutParameter := fun t =>
    let name := AidlTypeSpecifier_GetName t in
    if string_in name builtin_types then
      (is_array_ t || string_in name ["List"; "Map"; "ParcelFileDescriptor"], "primitive")
    else
      match lookup_type name with
      | Some d =>
          if AsEnumDeclaration d then (is_array_ t, "enum")
          else if AsInterface d then (false, "interface")
          else (true, "parcelable")
      | None => (false, "unknown")
      end |}.

(** interface IFoo { void foo(int a); void foo(long b); } *)
Definition foo_int : AidlMethod :=
  newMethod (loc 2) false (simple "void") "foo" [newArgument engine (loc 2) (simple "int") "a"] "".
Definition foo_long : AidlMethod :=
  newMethod (loc 3) false (simple "void") "foo" [newArgument engine (loc 3) (simple "long") "b"] "".
Definition IFoo_overloaded : AidlDefinedType :=
  newInterface (loc 1) "IFoo" "" false "" (Some [Method foo_int; Method foo_long]).

(** @Backing(bogus="x"): an unsupported parameter, and the required
    parameter "type" is missing. *)
Definition Backing_bogus : AidlAnnotation :=
  mkAnnotation (loc 10) BACKING [("bogus", Literal (loc 10) "x")].

(** @UnsupportedAppUsage(alpha="x", beta="y"): two unsupported parameters. *)
Definition AppUsage_two_bad : AidlAnnotation :=
  mkAnnotation (loc 11) UNSUPPORTED_APP_USAGE
    [("alpha", Literal (loc 11) "x"); ("beta", Literal (loc 11) "y")].

(** @Backing(type="strange"), where "strange" names no type. *)
Definition Backing_strange : AidlAnnotation :=
  mkAnnotation (loc 12) BACKING [("type", Literal (loc 12) "strange")].

Definition Color_strange : AidlDefinedType := Annotate [Backing_strange] Color.
Definition Color_bogus : AidlDefinedType := Annotate [Backing_bogus] Color.

(** union U1 {} and union U2 {}: both are invalid, having no fields. *)
Definition U1 : AidlDefinedType :=
  newDefinedType (loc 20) "U1" "" "" None (UnionDecl None).
Definition U2 : AidlDefinedType :=
  newDefinedType (loc 30) "U2" "" "" None (UnionDecl None).
Definition two_empty_unions : AidlDocument := mkDocument (loc 1) [] [U1; U2].

(** enum E { A, B, C } and enum E { A = 5, B, C } *)
Definition E_ABC : AidlDefinedType :=
  newEnumDeclaration (loc 40) "E"
    [newEnumerator (loc 41) "A" None ""; newEnumerator (loc 42) "B" None "";
     newEnumerator (loc 43) "C" None ""] "" "".
Definition E_A5BC : AidlDefinedType :=
  newEnumDeclaration (loc 40) "E"
    [newEnumerator (loc 41) "A" (Some (Integral (loc 41) "5")) "";
     newEnumerator (loc 42) "B" None ""; newEnumerator (loc 43) "C" None ""] "" "".

(** union U { Color c; } and union U { Color c = Color.RED; } *)
Definition U_color : AidlDefinedType :=
  newDefinedType (loc 20) "U" "" ""
    (Some [VariableDeclaration (newVariableDeclaration engine (loc 21) (simple "Color") "c")])
    (UnionDecl None).
Definition U_color_default : AidlDefinedType :=
  newDefinedType (loc 20) "U" "" ""
    (Some [VariableDeclaration
             (newVariableDeclarationWithDefault (loc 21) (simple "Color") "c"
                (Literal (loc 21) "Color.RED"))])
    (UnionDecl None).

(** List<IBinder> with and without @utf8InCpp, and List<String, String>. *)
Definition List_of (annotations : list AidlAnnotation) (params : list AidlTypeSpecifier)
  : AidlTypeSpecifier :=
  mkTypeSpecifier (loc 5) annotations "List" "List" false (Some params) "" None.
Definition utf8_List_IBinder : AidlTypeSpecifier :=
  List_of [mkAnnotation (loc 5) UTF8_IN_CPP []] [resolved "IBinder"].
Definition List_IBinder : AidlTypeSpecifier := List_of [] [resolved "IBinder"].

(** interface IFoo { oneway ParcelableHolder foo(); } *)
Definition oneway_holder : AidlMethod :=
  newMethod (loc 2) true (resolved "ParcelableHolder") "foo" [] "".
Definition IFoo_oneway_holder : AidlDefinedType :=
  newInterface (loc 1) "IFoo" "" false "" (Some [Method oneway_holder]).

(** interface IFoo { oneway int foo(); } *)
Definition oneway_int : AidlMethod := newMethod (loc 2) true (resolved "int") "foo" [] "".
Definition IFoo_oneway_int : AidlDefinedType :=
  newInterface (loc 1) "IFoo" "" false "" (Some [Method oneway_int]).

(** interface IFoo { oneway void foo(out int[] a); } *)
Definition int_array : AidlTypeSpecifier :=
  mkTypeSpecifier (loc 2) [] "int" "int" true None "" None.
Definition oneway_out : AidlMethod :=
  newMethod (loc 2) true (resolved "void") "foo"
    [newArgumentWithDirection engine (loc 2) OUT_DIR int_array "a"] "".
Definition IFoo_oneway_out : AidlDefinedType :=
  newInterface (loc 1) "IFoo" "" false "" (Some [Method oneway_out]).

(** interface IFoo { oneway int first(); oneway int second(); } *)
Definition oneway_first : AidlMethod :=
  newMethod (loc 2) true (resolved "int") "first" [] "".
Definition oneway_second : AidlMethod :=
  newMethod (loc 3) true (resolved "int") "second" [] "".
Definition IFoo_two_oneway : AidlDefinedType :=
  newInterface (loc 1) "IFoo" "" false ""
    (Some [Method oneway_first; Method oneway_second]).
End Examples.

(** ** Further parts of aidl_language.cpp *)

(** *** Strings *)

(** The character '.' (code 46). *)
Definition dot : Ascii.ascii := Ascii.ascii_of_nat 46.

(** std::string::find_first_of(c): the first position of [c]; None stands
    for npos. *)
Fixpoint find_first_of (c : Ascii.ascii) (s : string) : option nat :=
  match s with
  | EmptyString => None
  | String x r => if bool_decide (x = c) then Some 0 else S <$> find_first_of c r
  end.

(** std::string::find_last_of(c): the last position of [c]; None stands for
    npos. *)
Fixpoint find_last_of (c : Ascii.ascii) (s : string) : option nat :=
  match s with
  | EmptyString => None
  | String x r =>
      match find_last_of c r with
      | Some i => Some (S i)
      | None => if bool_decide (x = c) then Some 0 else None
      end
  end.

(** s.substr(pos, count), for pos within the string; count is clipped. *)
Definition substr (s : string) (pos count : nat) : string := String.substring pos count s.

(** s.substr(pos), for pos within the string. *)
Definition substr_from (s : string) (pos : nat) : string :=
  String.substring pos (String.length s - pos) s.

(** *** AidlNode *)

(** AidlNode::PrintLine *)
Definition PrintLine (location_ : AidlLocation) : string :=
  file_ location_ +:+ ":" +:+ pretty (line (begin_ location_)).

(** AidlNode::PrintLocation *)
Definition PrintLocation (location_ : AidlLocation) : string :=
  file_ location_ +:+ ":" +:+ pretty (line (begin_ location_)) +:+ ":" +:+
  pretty (column (begin_ location_)) +:+ ":" +:+ pretty (line (end_ location_)) +:+ ":" +:+
  pretty (column (end_ location_)).

(** *** AidlTypeSpecifier::ArrayBase and AidlConstantValueDecorator *)

(** AidlTypeSpecifier::ArrayBase. The source keeps the copy in a cache; the
    copy is the same on every call. *)
Definition ArrayBase (t : AidlTypeSpecifier) : M AidlTypeSpecifier :=
  AIDL_FATAL_IF (negb (is_array_ t)) ;;;
  AIDL_FATAL_IF (IsGeneric t) ;;;
  ret (mkTypeSpecifier (ts_location t) (ts_annotations t) (unresolved_name_ t)
         (fully_qualified_name_ t) false (type_params_ t) (comments_ t) (defined_type_ t)).

(** AidlConstantValueDecorator. [GetDefinedType] follows the reference a
    resolved specifier holds to its declaration; the model keeps a handle
    in the specifier, so the dereference is an argument here. A position of
    npos plus one wraps around to 0. *)
Definition AidlConstantValueDecorator
    (GetDefinedType : AidlTypeSpecifier -> option AidlDefinedType)
    (type : AidlTypeSpecifier) (raw_value : string) : M string :=
  if IsArray type then ret raw_value
  else
    match GetDefinedType type with
    | Some defined_type =>
        AIDL_FATAL_IF (negb (AsEnumDeclaration defined_type)) ;;;
        ret (AidlTypeSpecifier_GetName type +:+ "." +:+
             substr_from raw_value
               (match find_last_of dot raw_value with Some i => i + 1 | None => 0 end))
    | None => ret raw_value
    end.

(** *** AidlDefinedType and AidlParcelable *)

(** AidlDefinedType::GetCanonicalName *)
Definition GetCanonicalName (d : AidlDefinedType) : string :=
  if bool_decide (dt_package_ d = "") then dt_name_ d
  else dt_package_ d +:+ "." +:+ dt_name_ d.

(** The header name kept by the AidlParcelable constructor: a header given
    with at least two characters loses its first and last one (the
    quotation marks). *)
Definition strip_cpp_header (cpp_header : string) : string :=
  if bool_decide (2 <= String.length cpp_header)
  then substr cpp_header 1 (String.length cpp_header - 2)
  else cpp_header.

(** AidlParcelable::AidlParcelable *)
Definition newParcelable (loc : AidlLocation) (name package comments cpp_header : string)
    (type_params : option (list string)) (members : option (list AidlMember))
  : AidlDefinedType :=
  newDefinedType loc name comments package members
    (Parcelable (strip_cpp_header cpp_header) type_params).

(** AidlStructuredParcelable::AidlStructuredParcelable *)
Definition newStructuredParcelable (loc : AidlLocation) (name package comments : string)
    (type_params : option (list string)) (members : option (list AidlMember))
  : AidlDefinedType :=
  newDefinedType loc name comments package members (StructuredParcelable type_params).

(** AidlUnionDecl::AidlUnionDecl *)
Definition newUnionDecl (loc : AidlLocation) (name package comments : string)
    (type_params : option (list string)) (members : option (list AidlMember))
  : AidlDefinedType :=
  newDefinedType loc name comments package members (UnionDecl type_params).

(** Modelled from the spec: AsParcelable is declared in aidl_language.h.
    Plain parcelables, structured parcelables and unions are parcelables. *)
Definition AsParcelable (d : AidlDefinedType) : bool :=
  match dt_kind d with
  | Parcelable _ _ | StructuredParcelable _ | UnionDecl _ => true
  | _ => false
  end.

(** Modelled from the spec: AsUnstructuredParcelable and GetCppHeader are
    declared in aidl_language.h. The header of a parcelable that is neither
    structured nor a union, none for the other kinds. *)
Definition unstructured_cpp_header (d : AidlDefinedType) : option string :=
  match dt_kind d with
  | Parcelable cpp_header _ => Some cpp_header
  | _ => None
  end.

(** *** Backend-specific checks *)

Module Options.
(** Modelled from the spec: Options::Language is declared in options.h,
    which is not among the sources. These are the four backends the source
    names. *)
Inductive Language := JAVA | CPP | NDK | RUST.

#[global] Instance Language_eq_dec : EqDecision Language.
Proof. solve_decision. Defined.
End Options.

Section LanguageSpecific.
Import Options.
(** Options::LanguageToString is defined in options.cpp; it only feeds the
    text of diagnostics. *)
Context (LanguageToString : Language -> string).

Definition is_NDK_or_RUST (lang : Language) : bool :=
  bool_decide (lang = NDK) || bool_decide (lang = RUST).

(** The generic block of AidlTypeSpecifier::LanguageSpecificCheckValid. As
    in CheckGenericList, reading element 0 of an empty parameter vector is
    undefined in the source and an abort here. *)
Definition LanguageSpecificCheckGeneric (typenames : AidlTypenames) (lang : Language)
    (t : AidlTypeSpecifier) : M bool :=
  if IsGeneric t && bool_decide (AidlTypeSpecifier_GetName t = "List") &&
     bool_decide (lang = NDK) then
    match GetTypeParameters t with
    | [] => AIDL_FATAL
    | contained_type :: _ =>
        let contained_type_name := AidlTypeSpecifier_GetName contained_type in
        reject_if (bool_decide (is_Some (GetInterface typenames contained_type)))
          (ts_location t)
          ("List<" +:+ contained_type_name +:+
           "> is not supported. List in NDK doesn't support interface.") >>?
        reject_if (bool_decide (contained_type_name = "IBinder")) (ts_location t)
          ("List<" +:+ contained_type_name +:+
           "> is not supported. List in NDK doesn't support IBinder.")
    end
  else ret true.

(** AidlTypeSpecifier::LanguageSpecificCheckValid *)
Definition AidlTypeSpecifier_LanguageSpecificCheckValid (typenames : AidlTypenames)
    (lang : Language) (t : AidlTypeSpecifier) : M bool :=
  let name := AidlTypeSpecifier_GetName t in
  reject_if (is_NDK_or_RUST lang && IsArray t && bool_decide (name = "IBinder"))
    (ts_location t)
    ("The " +:+ LanguageToString lang +:+ " backend does not support array of IBinder") >>?
  reject_if (bool_decide (lang = RUST) && bool_decide (name = "ParcelableHolder"))
    (ts_location t) "The Rust backend does not support ParcelableHolder yet." >>?
  (if is_NDK_or_RUST lang && IsArray t && IsNullable (ts_annotations t) then
     reject_if (bool_decide (name = "ParcelFileDescriptor")) (ts_location t)
       ("The " +:+ LanguageToString lang +:+
        " backend does not support nullable array of ParcelFileDescriptor") >>?
     reject_if (from_option AsParcelable false (TryGetDefinedType typenames name))
       (ts_location t)
       ("The " +:+ LanguageToString lang +:+
        " backend does not support nullable array of parcelable")
   else ret true) >>?
  reject_if (bool_decide (name = "FileDescriptor") && is_NDK_or_RUST lang) (ts_location t)
    ("FileDescriptor isn't supported by the " +:+ LanguageToString lang +:+ " backend.") >>?
  LanguageSpecificCheckGeneric typenames lang t >>?
  (if IsArray t then
     reject_if (bool_decide (name = "List") || bool_decide (name = "Map") ||
                bool_decide (name = "CharSequence"))
       (ts_location t) (name +:+ "[] is not supported.")
   else ret true) >>?
  (if negb (bool_decide (lang = JAVA)) then
     reject_if (bool_decide (name = "List") && negb (IsGeneric t)) (ts_location t)
       "Currently, only the Java backend supports non-generic List." >>?
     reject_if (bool_decide (name = "Map") || bool_decide (name = "CharSequence"))
       (ts_location t) ("Currently, only Java backend supports " +:+ name +:+ ".")
   else ret true).

(** AidlParcelable::LanguageSpecificCheckValid *)
Definition AidlParcelable_LanguageSpecificCheckValid (lang : Language) (d : AidlDefinedType)
  : M bool :=
  if bool_decide (lang = CPP) || bool_decide (lang = NDK) then
    match unstructured_cpp_header d with
    | Some cpp_header =>
        reject_if (bool_decide (cpp_header = "")) (dt_location d)
          "Unstructured parcelable must have C++ header defined."
    | None => ret true
    end
  else ret true.

(** AidlStructuredParcelable::LanguageSpecificCheckValid; the one for
    AidlUnionDecl has the same body. *)
Definition AidlStructuredParcelable_LanguageSpecificCheckValid (typenames : AidlTypenames)
    (lang : Language) (d : AidlDefinedType) : M bool :=
  AidlParcelable_LanguageSpecificCheckValid lang d >>?
  all_or_return
    (fun v => AidlTypeSpecifier_LanguageSpecificCheckValid typenames lang (var_type_ v))
    (GetFields d).

(** AidlUnionDecl::LanguageSpecificCheckValid *)
Definition AidlUnionDecl_LanguageSpecificCheckValid (typenames : AidlTypenames)
    (lang : Language) (d : AidlDefinedType) : M bool :=
  AidlParcelable_LanguageSpecificCheckValid lang d >>?
  all_or_return
    (fun v => AidlTypeSpecifier_LanguageSpecificCheckValid typenames lang (var_type_ v))
    (GetFields d).

(** AidlInterface::LanguageSpecificCheckValid *)
Definition AidlInterface_LanguageSpecificCheckValid (typenames : AidlTypenames)
    (lang : Language) (d : AidlDefinedType) : M bool :=
  all_or_return
    (fun m =>
       AidlTypeSpecifier_LanguageSpecificCheckValid typenames lang (method_type_ m) >>?
       all_or_return
         (fun arg => AidlTypeSpecifier_LanguageSpecificCheckValid typenames lang (arg_type arg))
         (arguments_ m))
    (methods_ d).
End LanguageSpecific.

(** *** AidlDocument::ResolveName *)

(** The part of an unresolved name before its first dot. *)
Definition class_name_of (unresolved_name : string) : string :=
  match find_first_of dot unresolved_name with
  | None => unresolved_name
  | Some first_dot => substr unresolved_name 0 first_dot
  end.

(** The part of an imported name after its last dot. *)
Definition imported_type_name_of (fq_name : string) : string :=
  match find_last_of dot fq_name with
  | None => fq_name
  | Some last_dot => substr_from fq_name (last_dot + 1)
  end.

(** The body of the loop over the imports; the state is canonical_name, and
    None stands for [return {}]. *)
Definition ResolveName_import (class_name : string) (canonical_name : string)
    (import : AidlLocation * string) : M (option string) :=
  let fq_name := snd import in
  if bool_decide (imported_type_name_of fq_name = class_name) then
    if negb (bool_decide (canonical_name = "")) &&
       negb (bool_decide (canonical_name = fq_name)) then
      AIDL_ERROR (fst import)
        ("Ambiguous type: " +:+ canonical_name +:+ " vs. " +:+ fq_name) ;;;
      ret None
    else ret (Some fq_name)
  else ret (Some canonical_name).

(** AidlDocument::ResolveName *)
Definition AidlDocument_ResolveName (doc : AidlDocument) (unresolved_name : string)
  : M (option string) :=
  canonical_name <-
    loop_or_return (ResolveName_import (class_name_of unresolved_name)) (imports_ doc) "" ;;
  match canonical_name with
  | None => ret None
  | Some canonical_name =>
      if bool_decide (canonical_name = "") then ret (Some unresolved_name)
      else ret (Some canonical_name)
  end.

(** *** Readings used by the further properties *)

(** A validator is tidy when it prints nothing if it returns true and
    exactly one error if it returns false. *)
Definition tidy (m : M bool) : Prop :=
  (result m = Some true -> diagnostics m = []) /\
  (result m = Some false -> exists loc msg, diagnostics m = [Error loc msg]).

(** The kinds of the annotations of a list that may not be repeated. *)
Definition non_repeatable_kinds (annotations : list AidlAnnotation)
  : list AidlAnnotation.Type_ :=
  annot_type <$> filter (fun a => AidlAnnotation_Repeatable a = false) annotations.


(** What AidlTypeSpecifier::CheckValid asks of a specifier after the
    annotation and type-parameter checks, as a proposition. *)
Definition specifier_rules (typenames : AidlTypenames) (t : AidlTypeSpecifier) : Prop :=
  let name := AidlTypeSpecifier_GetName t in
  let annotations := ts_annotations t in
  (IsUtf8InCpp annotations = true -> name = "String" \/ is_generic_string_list t = true) /\
  (name = "void" -> IsArray t = false /\ IsNullable annotations = false) /\
  (IsArray t = true ->
   name <> "ParcelableHolder" /\
   from_option AsInterface false (TryGetDefinedType typenames name) = false) /\
  (IsNullable annotations = true ->
   name <> "ParcelableHolder" /\
   (IsArray t = false ->
    IsPrimitiveTypename typenames name = false /\
    from_option AsEnumDeclaration false (TryGetDefinedType typenames name) = false)).

(** A type parameter that List and Map refuse: an enum or a primitive. *)
Definition primitive_parameter (typenames : AidlTypenames) (p : AidlTypeSpecifier) : bool :=
  bool_decide (is_Some (GetEnumDeclaration typenames p)) ||
  IsPrimitiveTypename typenames (AidlTypeSpecifier_GetName p).

(** A field name with its first letter in upper case, as
    GetCapitalizedName gives it for a name that is not empty. *)
Definition capitalized (name : string) : string :=
  match name with
  | String c rest => String (toupper c) rest
  | EmptyString => EmptyString
  end.

(** The last character of a string. *)
Fixpoint last_char (s : string) : option Ascii.ascii :=
  match s with
  | EmptyString => None
  | String c rest =>
      match last_char rest with
      | None => Some c
      | found => found
      end
  end.

(** A supplied parameter is rendered by AnnotationParams when its name is
    in the schema of the annotation and its value is valid. *)
Definition renderable (cv : ConstantValueEngine) (a : AidlAnnotation)
    (p : string * AidlConstantValue) : bool :=
  bool_decide (is_Some (assoc_find (fst p) (supported_parameters (schema_ a)))) &&
  cv_CheckValid cv (snd p).

(** The entry of a rendered parameter: its name, and its value printed
    under the type the schema gives for the name. *)
Definition rendered (cv : ConstantValueEngine) (a : AidlAnnotation)
    (p : string * AidlConstantValue) : string * string :=
  (fst p,
   from_option (cv_ValueString cv (snd p)) ""
     (assoc_find (fst p) (supported_parameters (schema_ a)))).

(** The error printed for a parameter that is not rendered. *)
Definition skipped_diagnostic (a : AidlAnnotation) (p : string * AidlConstantValue)
  : Diagnostic :=
  Error (annot_location a)
    (match assoc_find (fst p) (supported_parameters (schema_ a)) with
     | None => unsupported_parameter_message a (fst p)
     | Some _ => invalid_value_message a (fst p)
     end).

(** The two errors of the duplicate-method test, and the error of the
    reserved-method test. *)
Definition redefinition_diagnostics (m previous : AidlMethod) : list Diagnostic :=
  [Error (method_location m) ("attempt to redefine method " +:+ method_name_ m +:+ ":");
   Error (method_location previous) "previously defined here."].

Definition reserved_diagnostic (m : AidlMethod) : Diagnostic :=
  Error (method_location m)
    (" method " +:+ AidlMethod_Signature m +:+ " is reserved for internal use.").

(** *** More sample declarations *)

Module MoreExamples.
Import AidlAnnotation AidlArgument Examples.

(** @JavaPassthrough(annotation="@A") @JavaPassthrough(annotation="@B") @Hide *)
Definition passthrough (l : nat) (text : string) : AidlAnnotation :=
  mkAnnotation (loc l) JAVA_PASSTHROUGH [("annotation", Literal (loc l) text)].
Definition hide : AidlAnnotation := mkAnnotation (loc 14) HIDE [].
Definition nullable : AidlAnnotation := mkAnnotation (loc 15) NULLABLE [].
Definition two_passthrough : list AidlAnnotation :=
  [passthrough 16 "@A"; hide; passthrough 17 "@B"].
(** String[] with @nullable, and int[]. *)
Definition nullable_String_array : AidlTypeSpecifier :=
  mkTypeSpecifier (loc 6) [nullable] "String" "java.lang.String" true None "" None.
(** Map<String, IBinder>, Map<IBinder, String> and Map<String>. *)
Definition Map_of (params : list AidlTypeSpecifier) : AidlTypeSpecifier :=
  mkTypeSpecifier (loc 7) [] "Map" "Map" false (Some params) "" None.

(** parcelable Box<T> { } next to the declarations of the example table. *)
Definition Box : AidlDefinedType :=
  newDefinedType (loc 80) "Box" "" "" None (StructuredParcelable (Some ["T"])).
Definition typenames_with_Box : AidlTypenames := {|
  ResolveTypename := ResolveTypename typenames;
  TryGetDefinedType := fun name =>
    if bool_decide (name = "Box") then Some Box else TryGetDefinedType typenames name;
  GetEnumDeclaration := GetEnumDeclaration typenames;
  GetInterface := GetInterface typenames;
  IsPrimitiveTypename := IsPrimitiveTypename typenames;
  IsBuiltinTypename := IsBuiltinTypename typenames;
  CanBeJavaOnlyImmutable := CanBeJavaOnlyImmutable typenames;
  CanBeFixedSize := CanBeFixedSize typenames;
  CanBeOutParameter := CanBeOutParameter typenames |}.
Definition Box_of (params : list AidlTypeSpecifier) : AidlTypeSpecifier :=
  mkTypeSpecifier (loc 8) [] "Box" "Box" false (Some params) "" None.

(** @nullable int and @nullable int[]. *)
Definition nullable_int : AidlTypeSpecifier :=
  mkTypeSpecifier (loc 9) [nullable] "int" "int" false None "" None.
Definition nullable_int_array : AidlTypeSpecifier :=
  mkTypeSpecifier (loc 9) [nullable] "int" "int" true None "" None.
(** void x; *)
Definition void_x : AidlVariableDeclaration :=
  newVariableDeclaration engine (loc 3) (resolved "void") "x".

(** parcelable P { int foo; int Foo; } *)
Definition P_foo_Foo : AidlDefinedType :=
  newDefinedType (loc 90) "P" "" ""
    (Some [VariableDeclaration (newVariableDeclaration engine (loc 91) (resolved "int") "foo");
           VariableDeclaration (newVariableDeclaration engine (loc 92) (resolved "int") "Foo")])
    (StructuredParcelable None).

(** const int[] A = 1; and const int B = 1; *)
Definition const_int_array : AidlConstantDeclaration :=
  mkConstantDeclaration (loc 4) int_array "A" (Integral (loc 4) "1").
Definition const_int : AidlConstantDeclaration :=
  mkConstantDeclaration (loc 4) (resolved "int") "B" (Integral (loc 4) "1").
(** void copy(in int[] src, out int[] dst, inout int[] both) *)
Definition copy_args : list AidlArgument :=
  [newArgumentWithDirection engine (loc 2) IN_DIR int_array "src";
   newArgumentWithDirection engine (loc 2) OUT_DIR int_array "dst";
   newArgumentWithDirection engine (loc 2) INOUT_DIR int_array "both"].
Definition copy_method : AidlMethod :=
  newMethod (loc 2) false (resolved "void") "copy" copy_args "".

(** interface IFoo { void copy(in int[] src, out int[] dst, inout int[] both); } *)
Definition IFoo_copy : AidlDefinedType :=
  newInterface (loc 1) "IFoo" "" false "" (Some [Method copy_method]).
(** enum E { A = 5, B, C } after Autofill over the example table, and the
    same with a backing type put in by hand. *)
Definition byte_backing : AidlTypeSpecifier :=
  mkTypeSpecifier (AIDL_LOCATION_HERE 1233) [] "byte" "byte" false None "" None.
Definition E_A5_byte : AidlDefinedType :=
  set_backing_type
    (newEnumDeclaration (loc 40) "E"
       [newEnumerator (loc 41) "A" (Some (Integral (loc 41) "5")) ""] "" "")
    byte_backing.
Definition E_empty_byte : AidlDefinedType :=
  set_backing_type (newEnumDeclaration (loc 40) "E" [] "" "") byte_backing.

(** union U { int a; String b; } and @FixedSize parcelable P { int a; } *)
Definition U_int_String : AidlDefinedType :=
  newDefinedType (loc 20) "U" "" ""
    (Some [VariableDeclaration (newVariableDeclaration engine (loc 21) (resolved "int") "a");
           VariableDeclaration
             (newVariableDeclarationWithDefault (loc 22) (resolved "String") "b"
                (Literal (loc 22) "x"))])
    (UnionDecl None).
Definition P_fixed : AidlDefinedType :=
  Annotate [mkAnnotation (loc 89) FIXED_SIZE []]
    (newDefinedType (loc 90) "P" "" ""
       (Some [VariableDeclaration
                (newVariableDeclaration engine (loc 91) (resolved "int") "a")])
       (StructuredParcelable None)).
(** FileDescriptor, Map and String[] as specifiers; the backend names. *)
Definition String_array : AidlTypeSpecifier :=
  mkTypeSpecifier (loc 6) [] "String" "String" true None "" None.
Definition backend_name (lang : Options.Language) : string :=
  match lang with
  | Options.JAVA => "Java"
  | Options.CPP => "C++"
  | Options.NDK => "NDK"
  | Options.RUST => "Rust"
  end.

(** interface IFoo { void send(in String[] names); } *)
Definition send_method : AidlMethod :=
  newMethod (loc 2) false (resolved "void") "send"
    [newArgumentWithDirection engine (loc 2) IN_DIR String_array "names"] "".
Definition IFoo_send : AidlDefinedType :=
  newInterface (loc 1) "IFoo" "" false "" (Some [Method send_method]).
(** import a.Foo; import b.Foo; *)
Definition imports_Foo_twice : AidlDocument :=
  mkDocument (loc 1) [(loc 2, "a.Foo"); (loc 3, "b.Foo")] [].

(** A resolved specifier of the enum Color, and the handle it holds. *)
Definition Color_type : AidlTypeSpecifier :=
  mkTypeSpecifier (loc 1) [] "Color" "Color" false None "" (Some "Color").
Definition handle_of (t : AidlTypeSpecifier) : option AidlDefinedType :=
  defined_type_ t ≫= lookup_type.

(** interface IFoo { void foo(int a); void bar(long b); } *)
Definition bar_long : AidlMethod :=
  newMethod (loc 3) false (simple "void") "bar" [newArgument engine (loc 3) (simple "long") "b"] "".
Definition IFoo_foo_bar : AidlDefinedType :=
  newInterface (loc 1) "IFoo" "" false "" (Some [Method foo_int; Method bar_long]).
(** interface IFoo { void foo(int[] a); } and
    interface IFoo { void foo(in int[] a); } *)
Definition foo_bare_array : AidlMethod :=
  newMethod (loc 2) false (resolved "void") "foo" [newArgument engine (loc 2) int_array "a"] "".
Definition foo_in_array : AidlMethod :=
  newMethod (loc 2) false (resolved "void") "foo"
    [newArgumentWithDirection engine (loc 2) AidlArgument.IN_DIR int_array "a"] "".
Definition IFoo_bare_array : AidlDefinedType :=
  newInterface (loc 1) "IFoo" "" false "" (Some [Method foo_bare_array]).
Definition IFoo_in_array : AidlDefinedType :=
  newInterface (loc 1) "IFoo" "" false "" (Some [Method foo_in_array]).
End MoreExamples.

(** * Properties *)

(** ** Laws of the diagnostics monad and of the loops *)

Arguments bind {A B} m k : simpl never.
Arguments and_then m k : simpl never.

Section MonadLaws.
Context {A B : Type}.

Lemma bind_ret_l (a : A) (k : A -> M B) : bind (ret a) k = k a.
Proof. unfold bind, ret. by destruct (k a). Qed.

Lemma bind_run (a : A) (ds : list Diagnostic) (k : A -> M B) :
  bind (Some a, ds) k = (result (k a), ds ++ diagnostics (k a)).
Proof. unfold bind, result, diagnostics. by destruct (k a). Qed.

Lemma bind_fatal (ds : list Diagnostic) (k : A -> M B) : bind (None, ds) k = (None, ds).
Proof. done. Qed.

Lemma bind_result_Some (m : M A) (k : A -> M B) (b : B) :
  result (bind m k) = Some b ->
  exists a, result m = Some a /\ result (k a) = Some b.
Proof.
  destruct m as [[a|] ds]; [|done].
  rewrite bind_run. simpl. eauto.
Qed.

Lemma bind_diagnostics (m : M A) (k : A -> M B) (a : A) :
  result m = Some a ->
  diagnostics (bind m k) = diagnostics m ++ diagnostics (k a).
Proof.
  destruct m as [[a'|] ds]; simpl; [|done].
  intros [= ->]. by rewrite bind_run.
Qed.
End MonadLaws.

Lemma bind_silent {A B} (a : A) (k : A -> M B) : bind (Some a, []) k = k a.
Proof. exact (bind_ret_l a k). Qed.

Lemma bind_result {A B} (m : M A) (k : A -> M B) (a : A) :
  result m = Some a -> result (bind m k) = result (k a).
Proof. destruct m as [[a'|] ds]; intros [= ->]. by rewrite bind_run. Qed.

Lemma bind_result_None {A B} (m : M A) (k : A -> M B) :
  result m = None -> result (bind m k) = None.
Proof. destruct m as [[a'|] ds]; intros [=]. by rewrite bind_fatal. Qed.

Lemma bind_ext {A B} (m : M A) (k k' : A -> M B) :
  (forall a, k a = k' a) -> bind m k = bind m k'.
Proof. intros H. destruct m as [[a|] ds]; [|done]. by rewrite !bind_run, H. Qed.

Lemma bind_assoc {A B C} (m : M A) (f : A -> M B) (g : B -> M C) :
  bind (bind m f) g = bind m (fun x => bind (f x) g).
Proof.
  destruct m as [[a|] ds]; [|done].
  rewrite !bind_run. destruct (f a) as [[b|] ds']; simpl; [|done].
  rewrite !bind_run. simpl. by rewrite app_assoc.
Qed.

Lemma M_eta {A} (m : M A) : m = (result m, diagnostics m).
Proof. by destruct m. Qed.

Lemma error_then {A} (loc : AidlLocation) (msg : string) (k : M A) :
  (AIDL_ERROR loc msg ;;; k) = (result k, Error loc msg :: diagnostics k).
Proof. unfold AIDL_ERROR. by rewrite bind_run. Qed.

Lemma and_then_run (m k : M bool) (ds : list Diagnostic) :
  m = (Some true, ds) -> (m >>? k) = (result k, ds ++ diagnostics k).
Proof. intros ->. unfold and_then. by rewrite bind_run. Qed.

Lemma pass_and_then (k : M bool) : ((Some true, []) >>? k) = k.
Proof. unfold and_then. rewrite bind_run. simpl. by destruct k. Qed.

Lemma and_then_stop (m k : M bool) (ds : list Diagnostic) :
  m = (Some false, ds) -> (m >>? k) = (Some false, ds).
Proof. intros ->. unfold and_then. rewrite bind_run. simpl. by rewrite app_nil_r. Qed.

Lemma and_then_true (m k : M bool) :
  result (m >>? k) = Some true -> result m = Some true /\ result k = Some true.
Proof.
  unfold and_then. intros H.
  apply bind_result_Some in H as ([] & Hm & Hk); [done|].
  by simpl in Hk.
Qed.

Lemma and_then_not_true_l (m k : M bool) :
  result m <> Some true -> result (m >>? k) <> Some true.
Proof. intros Hm H. by apply and_then_true in H as [? _]. Qed.

Lemma and_then_not_true_r (m k : M bool) :
  result k <> Some true -> result (m >>? k) <> Some true.
Proof. intros Hk H. by apply and_then_true in H as [_ ?]. Qed.

Lemma reject_if_true (loc : AidlLocation) (msg : string) :
  reject_if true loc msg = (Some false, [Error loc msg]).
Proof. done. Qed.

Lemma reject_if_false (loc : AidlLocation) (msg : string) :
  reject_if false loc msg = (Some true, []).
Proof. done. Qed.

Lemma reject_if_result (c : bool) (loc : AidlLocation) (msg : string) :
  result (reject_if c loc msg) = Some (negb c).
Proof. by destruct c. Qed.

(** A list that does not satisfy a decidable property everywhere has a
    first element that violates it. *)
Lemma first_failure {A} (P : A -> Prop) `{!forall x, Decision (P x)} (l : list A) :
  ~ Forall P l ->
  exists pre x post, l = pre ++ x :: post /\ Forall P pre /\ ~ P x.
Proof.
  induction l as [|x l IH]; intros Hnot.
  - by destruct Hnot.
  - destruct (decide (P x)) as [Hx|Hx].
    + destruct IH as (pre & y & post & -> & Hpre & Hy).
      { intros Hl. apply Hnot. by constructor. }
      exists (x :: pre), y, post. repeat split; auto.
    + exists [], x, l. repeat split; auto.
Qed.

(** *** The early-return loop *)

Section AllOrReturn.
Context {A : Type} (body : A -> M bool).

Lemma all_or_return_passes (l : list A) :
  Forall (fun x => body x = (Some true, [])) l ->
  all_or_return body l = (Some true, []).
Proof.
  induction 1 as [|x l Hx _ IH]; [done|].
  simpl. rewrite Hx, bind_run. simpl. by rewrite IH.
Qed.

(** Once an element fails, the loop returns false with the diagnostics
    printed up to and including that element; the rest is not visited. *)
Lemma all_or_return_stops (pre post : list A) (x : A) (ds : list Diagnostic) :
  Forall (fun y => result (body y) = Some true) pre ->
  body x = (Some false, ds) ->
  all_or_return body (pre ++ x :: post) =
    (Some false, concat ((fun y => diagnostics (body y)) <$> pre) ++ ds).
Proof.
  intros Hpre Hx. induction Hpre as [|y pre Hy _ IH]; simpl.
  - rewrite Hx, bind_run. simpl. by rewrite app_nil_r.
  - rewrite (M_eta (body y)), Hy, bind_run, IH. simpl. by rewrite app_assoc.
Qed.

Lemma all_or_return_true (l : list A) :
  result (all_or_return body l) = Some true ->
  Forall (fun x => result (body x) = Some true) l.
Proof.
  induction l as [|x l IH]; simpl; [done|].
  intros H. apply bind_result_Some in H as ([] & Hx & Hl); [|done].
  constructor; auto.
Qed.

Lemma all_or_return_true_run (l : list A) :
  Forall (fun x => result (body x) = Some true) l ->
  all_or_return body l = (Some true, concat ((fun y => diagnostics (body y)) <$> l)).
Proof.
  induction 1 as [|x l Hx _ IH]; [done|].
  simpl. rewrite (M_eta (body x)), Hx, bind_run, IH. done.
Qed.

(** The loop returns false exactly when some element fails after a prefix
    of passing elements. *)
Lemma all_or_return_false (l : list A) :
  result (all_or_return body l) = Some false <->
  exists pre x post, l = pre ++ x :: post /\
    Forall (fun y => result (body y) = Some true) pre /\
    result (body x) = Some false.
Proof.
  split.
  - induction l as [|x l IH]; simpl; [done|].
    intros H. apply bind_result_Some in H as ([] & Hx & Hl).
    + destruct (IH Hl) as (pre & y & post & -> & Hpre & Hy).
      exists (x :: pre), y, post. repeat split; auto.
    + exists [], x, l. repeat split; auto.
  - intros (pre & x & post & -> & Hpre & Hx).
    rewrite (all_or_return_stops pre post x (diagnostics (body x))); [done|done|].
    rewrite (M_eta (body x)) at 1. by rewrite Hx.
Qed.
End AllOrReturn.

(** *** The stateful early-return loop *)

Section LoopOrReturn.
Context {A S : Type} (body : S -> A -> M (option S)).

Lemma loop_or_return_app (l1 l2 : list A) (s : S) :
  loop_or_return body (l1 ++ l2) s =
    (o <- loop_or_return body l1 s ;;
     match o with
     | Some s' => loop_or_return body l2 s'
     | None => ret None
     end).
Proof.
  revert s. induction l1 as [|x l1 IH]; intros s; simpl.
  - by rewrite bind_ret_l.
  - rewrite bind_assoc. apply bind_ext. intros [s'|]; [apply IH|].
    by rewrite bind_ret_l.
Qed.

(** If the body cannot continue past [x] from any state satisfying an
    invariant that the loop maintains, the loop does not run to its end. *)
Lemma loop_or_return_blocked (Inv : S -> Prop) (l1 l2 : list A) (x : A) (s : S) :
  (forall s1 s2, result (loop_or_return body l1 s1) = Some (Some s2) -> s1 = s -> Inv s2) ->
  (forall s', Inv s' -> forall s'', result (body s' x) <> Some (Some s'')) ->
  forall s'', result (loop_or_return body (l1 ++ x :: l2) s) <> Some (Some s'').
Proof.
  intros Hinv Hblock s'' H.
  rewrite loop_or_return_app in H.
  apply bind_result_Some in H as ([s1|] & H1 & H2); [|done].
  simpl in H2. apply bind_result_Some in H2 as ([s2|] & Hx & H3); [|done].
  eapply Hblock; [|exact Hx]. eapply Hinv; eauto.
Qed.
End LoopOrReturn.

(** *** The accumulating loop *)

Section Accumulate.
Context {A S : Type} (body : S -> A -> M S).

Lemma accumulate_total (l : list A) (s : S) :
  (forall s x, is_Some (result (body s x))) ->
  is_Some (result (accumulate body l s)).
Proof.
  intros Hbody. revert s. induction l as [|x l IH]; intros s; simpl; [by eexists|].
  destruct (Hbody s x) as [s' Hs']. rewrite (M_eta (body s x)), Hs', bind_run. simpl. auto.
Qed.
End Accumulate.

(** ** Single annotations *)

(** GetAnnotation is only asked for kinds that are not repeatable, where
    its assertion cannot fire. *)
Lemma GetAnnotation_single (annotations : list AidlAnnotation) (type : AidlAnnotation.Type_) :
  repeatable (schema_of type) = false ->
  GetAnnotation annotations type = ret (find_annotation annotations type).
Proof.
  intros Hrep. unfold GetAnnotation, find_annotation.
  destruct (list_find _ annotations) as [[i a]|] eqn:Hfind; simpl; [|done].
  apply list_find_Some in Hfind as (_ & Ha & _).
  unfold AidlAnnotation_Repeatable, schema_, AidlAnnotation_GetType, schema_ in *.
  assert (Hty : forall t, schema_type (schema_of t) = t) by (by intros []).
  rewrite Hty in Ha. by rewrite Ha, Hrep.
Qed.

(** ** Arguments without a direction *)

Section ArgumentDirection.
Context (cv : ConstantValueEngine).
Import AidlArgument.

(** The argument checks of AidlInterface::CheckValid on an argument without
    a direction whose type cannot be an out parameter. *)
Lemma CheckArgumentRules_in_only (typenames : AidlTypenames) (m : AidlMethod)
    (loc : AidlLocation) (type : AidlTypeSpecifier) (name : string) :
  fst (CanBeOutParameter typenames type) = false ->
  CheckArgumentRules cv typenames m (newArgument cv loc type name) =
  CheckArgumentRules cv typenames m (newArgumentWithDirection cv loc IN_DIR type name).
Proof.
  intros Hout. unfold CheckArgumentRules, newArgument, newArgumentWithDirection, arg_type.
  cbn [arg_variable var_type_ newVariableDeclaration].
  destruct (CanBeOutParameter typenames type) as [can_be_out type_aspect].
  cbn [fst] in Hout. subst can_be_out.
  unfold DirectionWasSpecified, GetDirection. cbn [direction_specified_ direction_].
  by rewrite !andb_false_r, (bool_decide_eq_true_2 (IN_DIR = IN_DIR)) by done.
Qed.

(** The same checks on an argument without a direction whose type can be
    an out parameter. *)
Lemma CheckArgumentRules_unspecified (typenames : AidlTypenames) (m : AidlMethod)
    (loc : AidlLocation) (type : AidlTypeSpecifier) (name : string)
    (ds : list Diagnostic) :
  fst (CanBeOutParameter typenames type) = true ->
  AidlTypeSpecifier_CheckValid cv typenames type = (Some true, ds) ->
  AidlTypeSpecifier_GetName type <> "ParcelableHolder" ->
  CheckArgumentRules cv typenames m (newArgument cv loc type name) =
    (Some false,
     ds ++ [Error loc ("'" +:+ AidlTypeSpecifier_Signature type +:+
                       "' can be an out type, so you must declare it as in, out, or inout.")]).
Proof.
  intros Hout Htype Hholder. unfold CheckArgumentRules, newArgument, arg_type, arg_location.
  cbn [arg_variable var_type_ var_location newVariableDeclaration].
  rewrite (and_then_run _ _ ds Htype).
  rewrite (bool_decide_eq_false_2 _ Hholder), reject_if_false, pass_and_then.
  unfold IsOut. cbn [direction_]. rewrite andb_false_r, reject_if_false, pass_and_then.
  destruct (CanBeOutParameter typenames type) as [can_be_out type_aspect].
  cbn [fst] in Hout. subst can_be_out.
  unfold DirectionWasSpecified. cbn [direction_specified_ negb andb].
  by rewrite reject_if_true, (and_then_stop _ _ _ eq_refl).
Qed.

Lemma CheckArgumentRules_unspecified_rejected (typenames : AidlTypenames) (m : AidlMethod)
    (loc : AidlLocation) (type : AidlTypeSpecifier) (name : string) :
  fst (CanBeOutParameter typenames type) = true ->
  result (CheckArgumentRules cv typenames m (newArgument cv loc type name)) <> Some true.
Proof.
  intros Hout. unfold CheckArgumentRules, newArgument, arg_type.
  cbn [arg_variable var_type_ newVariableDeclaration].
  do 3 apply and_then_not_true_r.
  destruct (CanBeOutParameter typenames type) as [can_be_out type_aspect].
  cbn [fst] in Hout. subst can_be_out. intros H.
  apply and_then_true in H as [H _]. by rewrite reject_if_result in H.
Qed.

(** The same checks on an argument declared in whose type can be an out
    parameter: both tests of the direction let it through. *)
Lemma CheckArgumentRules_explicit_in (typenames : AidlTypenames) (m : AidlMethod)
    (loc : AidlLocation) (type : AidlTypeSpecifier) (name : string) :
  fst (CanBeOutParameter typenames type) = true ->
  CheckArgumentRules cv typenames m (newArgumentWithDirection cv loc IN_DIR type name) =
    (AidlTypeSpecifier_CheckValid cv typenames type >>?
     reject_if (bool_decide (AidlTypeSpecifier_GetName type = "ParcelableHolder"))
       loc "ParcelableHolder cannot be an argument type" >>?
     reject_if (IsJavaKeyword name) loc "Argument name is a Java or aidl keyword" >>?
     reject_if (String.prefix "_aidl" name) loc "Argument name cannot begin with '_aidl'").
Proof.
  intros Hout.
  unfold CheckArgumentRules, newArgumentWithDirection, arg_type, arg_location, arg_name.
  cbn [arg_variable var_type_ var_location var_name_ newVariableDeclaration].
  unfold IsOut, DirectionWasSpecified, GetDirection. cbn [direction_ direction_specified_].
  destruct (CanBeOutParameter typenames type) as [can_be_out type_aspect].
  cbn [fst] in Hout. subst can_be_out.
  rewrite andb_false_r, (bool_decide_eq_true_2 (IN_DIR = IN_DIR)) by done.
  rewrite (bool_decide_eq_false_2 (IN_DIR = INOUT_DIR)) by done.
  cbn [negb andb]. rewrite !reject_if_false, !pass_and_then.
  do 3 f_equal. destruct (String.prefix "_aidl" name); [done|].
  by rewrite reject_if_false, pass_and_then.
Qed.

(** C10, as the code has it. An argument built by the constructor without a
    direction reports IN_DIR from GetDirection, reports that no direction
    was specified, has the empty direction specifier, and its ToString is
    the ToString of the underlying variable declaration with nothing in
    front of it. The direction queries GetDirection, IsIn and IsOut answer
    as they do for an argument declared with an explicit in, and a method
    built from such an argument lists it among its in-arguments and not
    among its out-arguments. The argument checks of
    AidlInterface::CheckValid also ask whether the direction was written:
    when the type cannot be an out parameter they treat the argument as one
    declared in; when the type can be an out parameter they reject the
    argument without a direction ("'<type>' can be an out type, so you must
    declare it as in, out, or inout.") whereas the one declared in passes
    both tests of the direction. *)
Theorem unspecified_direction_is_in (loc : AidlLocation) (type : AidlTypeSpecifier)
    (name : string) :
  let arg := newArgument cv loc type name in
  let explicit_in := newArgumentWithDirection cv loc IN_DIR type name in
  GetDirection arg = IN_DIR /\
  DirectionWasSpecified arg = false /\
  GetDirectionSpecifier arg = "" /\
  AidlArgument_ToString cv arg = AidlVariableDeclaration_ToString cv (arg_variable arg) /\
  GetDirection arg = GetDirection explicit_in /\
  IsIn arg = IsIn explicit_in /\ IsIn arg = true /\
  IsOut arg = IsOut explicit_in /\ IsOut arg = false /\
  arg_variable arg = arg_variable explicit_in /\
  GetDirectionSpecifier explicit_in = "in" /\
  (forall mloc oneway rtype mname comments,
     let m := newMethod mloc oneway rtype mname [arg] comments in
     in_arguments_ m = [arg] /\ out_arguments_ m = []) /\
  (forall typenames m,
     fst (CanBeOutParameter typenames type) = false ->
     CheckArgumentRules cv typenames m arg = CheckArgumentRules cv typenames m explicit_in) /\
  (forall typenames m,
     fst (CanBeOutParameter typenames type) = true ->
     result (CheckArgumentRules cv typenames m arg) <> Some true) /\
  (forall typenames m ds,
     fst (CanBeOutParameter typenames type) = true ->
     AidlTypeSpecifier_CheckValid cv typenames type = (Some true, ds) ->
     AidlTypeSpecifier_GetName type <> "ParcelableHolder" ->
     CheckArgumentRules cv typenames m arg =
       (Some false,
        ds ++ [Error loc ("'" +:+ AidlTypeSpecifier_Signature type +:+
                          "' can be an out type, so you must declare it as in, out, or inout.")])) /\
  (forall typenames m,
     fst (CanBeOutParameter typenames type) = true ->
     CheckArgumentRules cv typenames m explicit_in =
       (AidlTypeSpecifier_CheckValid cv typenames type >>?
        reject_if (bool_decide (AidlTypeSpecifier_GetName type = "ParcelableHolder"))
          loc "ParcelableHolder cannot be an argument type" >>?
        reject_if (IsJavaKeyword name) loc "Argument name is a Java or aidl keyword" >>?
        reject_if (String.prefix "_aidl" name) loc "Argument name cannot begin with '_aidl'")).
Proof.
  intros arg explicit_in.
  do 11 (split; [done|]). split; [done|].
  split; [intros; by apply CheckArgumentRules_in_only|].
  split; [intros; by apply CheckArgumentRules_unspecified_rejected|].
  split; [intros; by apply CheckArgumentRules_unspecified|].
  intros; by apply CheckArgumentRules_explicit_in.
Qed.
End ArgumentDirection.

(** C10, on the arguments int[] a and int a of a method foo. *)
Lemma unspecified_direction_is_in_witness :
  CheckArgumentRules Examples.engine Examples.typenames MoreExamples.foo_bare_array
    (newArgument Examples.engine (Examples.loc 2) Examples.int_array "a") =
    (Some false,
     [Error (Examples.loc 2)
        "'int[]' can be an out type, so you must declare it as in, out, or inout."]) /\
  CheckArgumentRules Examples.engine Examples.typenames Examples.foo_int
    (newArgument Examples.engine (Examples.loc 2) (Examples.simple "int") "a") =
  CheckArgumentRules Examples.engine Examples.typenames Examples.foo_int
    (newArgumentWithDirection Examples.engine (Examples.loc 2) AidlArgument.IN_DIR
       (Examples.simple "int") "a").
Proof.
  split.
  - apply (proj1 (proj2 (proj2 (proj2 (proj2 (proj2 (proj2 (proj2 (proj2 (proj2 (proj2
             (proj2 (proj2 (proj2 (proj2
               (unspecified_direction_is_in Examples.engine (Examples.loc 2)
                  Examples.int_array "a")))))))))))))))
             Examples.typenames MoreExamples.foo_bare_array [] eq_refl eq_refl).
    by vm_compute.
  - apply (proj1 (proj2 (proj2 (proj2 (proj2 (proj2 (proj2 (proj2 (proj2 (proj2 (proj2
             (proj2 (proj2
               (unspecified_direction_is_in Examples.engine (Examples.loc 2)
                  (Examples.simple "int") "a")))))))))))))
             Examples.typenames Examples.foo_int eq_refl).
Defined.

(** C10, as stated, fails. In interface IFoo { void foo(int[] a); } the
    argument has no direction and the interface is rejected; with the
    direction in written out the same interface is accepted. *)
Lemma unspecified_direction_is_not_in_everywhere :
  AidlInterface_CheckValid Examples.engine Examples.typenames MoreExamples.IFoo_bare_array =
    (Some false,
     [Error (Examples.loc 2)
        "'int[]' can be an out type, so you must declare it as in, out, or inout."]) /\
  AidlInterface_CheckValid Examples.engine Examples.typenames MoreExamples.IFoo_in_array =
    (Some true, []).
Proof. split; by vm_compute. Qed.

(** ** Resolution of type specifiers *)

Section Resolve.
Context (typenames : AidlTypenames).

Lemma Resolve_resolved (t : AidlTypeSpecifier) :
  IsResolved t = true -> AidlTypeSpecifier_Resolve typenames t = AIDL_FATAL.
Proof. intros H. unfold AidlTypeSpecifier_Resolve. by rewrite H. Qed.

Lemma Resolve_unresolved (t : AidlTypeSpecifier) :
  IsResolved t = false ->
  AidlTypeSpecifier_Resolve typenames t =
    ret (if is_resolved (ResolveTypename typenames (unresolved_name_ t))
         then (true,
               mkTypeSpecifier (ts_location t) (ts_annotations t) (unresolved_name_ t)
                 (canonical_name (ResolveTypename typenames (unresolved_name_ t)))
                 (is_array_ t) (type_params_ t) (comments_ t)
                 (defined_type (ResolveTypename typenames (unresolved_name_ t))))
         else (false, t)).
Proof.
  intros H. unfold AidlTypeSpecifier_Resolve. rewrite H. simpl.
  rewrite bind_ret_l. by destruct (is_resolved _).
Qed.

(** C8. Resolve on a specifier that is already resolved ends in the fatal
    assertion and prints no diagnostic. On an unresolved specifier the
    fatal branch is not taken: Resolve returns a result, again without a
    diagnostic. After a successful Resolve that stored a non-empty
    canonical name, a second Resolve on the updated specifier is fatal. *)
Theorem Resolve_at_most_once (t : AidlTypeSpecifier) :
  (IsResolved t = true ->
     AidlTypeSpecifier_Resolve typenames t = (None, [])) /\
  (IsResolved t = false ->
     exists b t', AidlTypeSpecifier_Resolve typenames t = (Some (b, t'), [])) /\
  (forall t', IsResolved t = false ->
     AidlTypeSpecifier_Resolve typenames t = (Some (true, t'), []) ->
     canonical_name (ResolveTypename typenames (unresolved_name_ t)) <> "" ->
     AidlTypeSpecifier_Resolve typenames t' = (None, [])).
Proof.
  split; [apply Resolve_resolved|]. split.
  - intros H. rewrite Resolve_unresolved by done.
    destruct (is_resolved _); unfold ret; eauto.
  - intros t' H Hres Hname. rewrite Resolve_unresolved in Hres by done.
    apply Resolve_resolved.
    destruct (is_resolved _); [|done].
    injection Hres as <-. unfold IsResolved. simpl.
    by rewrite bool_decide_eq_false_2.
Qed.
End Resolve.

(** C8, on the example table: resolving "int" twice. *)
Lemma Resolve_at_most_once_witness :
  (exists b t', AidlTypeSpecifier_Resolve Examples.typenames (Examples.simple "int")
                = (Some (b, t'), [])) /\
  AidlTypeSpecifier_Resolve Examples.typenames (Examples.resolved "int") = (None, []).
Proof.
  split.
  - apply (proj1 (proj2 (Resolve_at_most_once Examples.typenames (Examples.simple "int")))).
    reflexivity.
  - apply (proj2 (proj2 (Resolve_at_most_once Examples.typenames (Examples.simple "int")))).
    + reflexivity.
    + reflexivity.
    + vm_compute. discriminate.
Defined.

(** ** Annotation validation *)

Section AnnotationCheckValid.
Context (cv : ConstantValueEngine).

(** A finder whose [found] is not null is left as it is. *)
Lemma Accept_keeps : forall (v : AidlConstantValue) (finder : ConstReferenceFinder),
  is_null (found finder) = false -> Accept v finder = finder.
Proof.
  fix IH 1. intros [l s|l s|l vs|l op r|l lv op rv|l s c] finder Hf; cbn [Accept].
  - done.
  - done.
  - revert finder Hf. induction vs as [|x vs IHvs]; intros finder Hf; [done|].
    rewrite (IH x finder Hf). by apply IHvs.
  - by apply IH.
  - rewrite (IH lv finder Hf). by apply IH.
  - unfold Visit_AidlConstantReference. by rewrite Hf.
Qed.

(** Accept stores addresses of references only. *)
Lemma Accept_not_wild : forall (v : AidlConstantValue) (finder : ConstReferenceFinder),
  found finder <> wild_pointer -> found (Accept v finder) <> wild_pointer.
Proof.
  fix IH 1. intros [l s|l s|l vs|l op r|l lv op rv|l s c] finder Hf; cbn [Accept].
  - done.
  - done.
  - revert finder Hf. induction vs as [|x vs IHvs]; intros finder Hf; [done|].
    apply IHvs. by apply IH.
  - by apply IH.
  - apply IH. by apply IH.
  - unfold Visit_AidlConstantReference. by destruct (is_null (found finder)).
Qed.

(** The loop body, when the finder starts at null or is not reached: it
    either passes silently or fails with one diagnostic. *)
Lemma CheckParameter_cases (a : AidlAnnotation) (p : string * AidlConstantValue) :
  assoc_find (fst p) (supported_parameters (schema_ a)) = None \/
    cv_found_before_Accept cv a (fst p) = nullptr ->
  (parameter_problem cv a p = false /\ CheckParameter cv a p = (Some true, [])) \/
  (parameter_problem cv a p = true /\ exists d, CheckParameter cv a p = (Some false, [d])).
Proof.
  unfold parameter_problem, CheckParameter.
  destruct (assoc_find _ _) as [type|]; [|intros _; right; split; [done|by eexists]].
  intros [[=]| ->]. cbn zeta.
  pose proof (Accept_not_wild (snd p) (mkFinder nullptr)) as Hwild.
  destruct (found (Accept (snd p) (mkFinder nullptr))) as [|l v|]; cbn [is_null negb orb].
  - destruct (cv_CheckValid cv (snd p)); cbn [negb orb]; [|right; split; [done|by eexists]].
    case_bool_decide; [right; split; [done|by eexists]|by left].
  - right. split; [done|by eexists].
  - by destruct Hwild.
Qed.

(** The loop body, when the finder is reached and its [found] starts with
    something other than null: the error is printed through that pointer,
    and through a pointer to no reference the run ends. *)
Lemma CheckParameter_stale (a : AidlAnnotation) (p : string * AidlConstantValue)
    (type : AidlTypeSpecifier) :
  assoc_find (fst p) (supported_parameters (schema_ a)) = Some type ->
  CheckParameter cv a p =
    match cv_found_before_Accept cv a (fst p) with
    | nullptr => CheckParameter cv a p
    | address_of loc value => (Some false, [reference_diagnostic cv loc value])
    | wild_pointer => (None, [])
    end.
Proof.
  intros Htype. destruct (cv_found_before_Accept cv a (fst p)) as [|loc value|] eqn:Hfound;
    [done|..]; unfold CheckParameter; rewrite Htype; cbn zeta; rewrite Hfound;
    by rewrite Accept_keeps.
Qed.

(** A parameter that the loop body accepts passes, and nothing was printed. *)
Lemma CheckParameter_passed (a : AidlAnnotation) (p : string * AidlConstantValue) :
  result (CheckParameter cv a p) = Some true ->
  parameter_problem cv a p = false /\ CheckParameter cv a p = (Some true, []).
Proof.
  intros Hres.
  destruct (assoc_find (fst p) (supported_parameters (schema_ a))) as [type|] eqn:Htype.
  - destruct (cv_found_before_Accept cv a (fst p)) as [|loc value|] eqn:Hfound.
    + destruct (CheckParameter_cases a p) as [?|[_ [d Hd]]]; [by right|done|].
      by rewrite Hd in Hres.
    + rewrite (CheckParameter_stale a p type Htype), Hfound in Hres. done.
    + rewrite (CheckParameter_stale a p type Htype), Hfound in Hres. done.
  - destruct (CheckParameter_cases a p) as [?|[_ [d Hd]]]; [by left|done|].
    by rewrite Hd in Hres.
Qed.

Lemma CheckParameter_passes (a : AidlAnnotation) (p : string * AidlConstantValue) :
  parameter_passes cv a p -> CheckParameter cv a p = (Some true, []).
Proof.
  intros [Hp Hnull].
  destruct (CheckParameter_cases a p) as [[_ ?]|[? _]]; [by right|done|congruence].
Qed.

(** The loop over required parameters visits all of them. *)
Lemma CheckRequired_run (a : AidlAnnotation) (req : list string) (success : bool) :
  accumulate (CheckRequired a) req success =
    (Some (success && bool_decide (filter (fun r => r ∉ (fst <$> parameters_ a)) req = [])),
     missing_diagnostic a <$> filter (fun r => r ∉ (fst <$> parameters_ a)) req).
Proof.
  revert success. induction req as [|r req IH]; intros success; simpl.
  - by rewrite andb_true_r.
  - unfold CheckRequired at 1, has_parameter. rewrite filter_cons.
    destruct (decide (r ∈ (fst <$> parameters_ a))) as [Hin|Hin].
    + rewrite (bool_decide_eq_true_2 _ Hin), decide_False by (by intros ?).
      simpl. by rewrite bind_ret_l, IH.
    + rewrite (bool_decide_eq_false_2 _ Hin), decide_True by done.
      simpl. rewrite error_then. simpl. rewrite bind_run, IH. simpl.
      by rewrite andb_false_r.
Qed.

Lemma CheckValid_all_parameters_pass (a : AidlAnnotation) :
  Forall (parameter_passes cv a) (parameters_ a) ->
  AidlAnnotation_CheckValid cv a =
    (Some (bool_decide (missing_required a = [])), missing_diagnostic a <$> missing_required a).
Proof.
  intros Hall. unfold AidlAnnotation_CheckValid.
  rewrite all_or_return_passes.
  - rewrite bind_run. simpl. by rewrite CheckRequired_run.
  - eapply Forall_impl; [exact Hall|]. intros q Hq. by apply CheckParameter_passes.
Qed.

(** The parameter loop leaves at the first parameter that the loop body
    does not accept, with the outcome of the body there. *)
Lemma CheckValid_stops (a : AidlAnnotation) (pre post : list (string * AidlConstantValue))
    (p : string * AidlConstantValue) (r : option bool) (ds : list Diagnostic) :
  parameters_ a = pre ++ p :: post ->
  Forall (parameter_passes cv a) pre ->
  CheckParameter cv a p = (r, ds) ->
  r <> Some true ->
  AidlAnnotation_CheckValid cv a = (r, ds).
Proof.
  intros Hparams Hpre Hp Hr. unfold AidlAnnotation_CheckValid. rewrite Hparams.
  clear Hparams. induction Hpre as [|q pre Hq _ IH].
  - cbn [app all_or_return]. rewrite Hp. destruct r as [[]|]; [done| |].
    + rewrite bind_run. cbn [result diagnostics fst snd ret]. rewrite bind_run.
      cbn [result diagnostics fst snd ret]. by rewrite !app_nil_r.
    + by rewrite !bind_fatal.
  - cbn [app all_or_return]. rewrite (CheckParameter_passes a q Hq), bind_silent. exact IH.
Qed.

Lemma CheckValid_first_problem (a : AidlAnnotation) (pre post : list (string * AidlConstantValue))
    (p : string * AidlConstantValue) :
  parameters_ a = pre ++ p :: post ->
  Forall (parameter_passes cv a) pre ->
  parameter_problem cv a p = true ->
  assoc_find (fst p) (supported_parameters (schema_ a)) = None \/
    cv_found_before_Accept cv a (fst p) = nullptr ->
  exists d, CheckParameter cv a p = (Some false, [d]) /\
            AidlAnnotation_CheckValid cv a = (Some false, [d]).
Proof.
  intros Hparams Hpre Hp Hnull.
  destruct (CheckParameter_cases a p Hnull) as [[? _]|[_ [d Hd]]]; [congruence|].
  exists d. split; [done|]. by apply (CheckValid_stops a pre post p).
Qed.

(** A true result comes without diagnostics, and from parameters that pass. *)
Lemma CheckValid_true_parameters (a : AidlAnnotation) :
  result (AidlAnnotation_CheckValid cv a) = Some true ->
  Forall (fun q => parameter_problem cv a q = false /\
                   CheckParameter cv a q = (Some true, [])) (parameters_ a).
Proof.
  unfold AidlAnnotation_CheckValid. intros H.
  apply bind_result_Some in H as ([] & Hloop & H); [|done].
  apply all_or_return_true in Hloop.
  eapply Forall_impl; [exact Hloop|]. intros q Hq. by apply CheckParameter_passed.
Qed.

Lemma AidlAnnotation_CheckValid_true (a : AidlAnnotation) :
  result (AidlAnnotation_CheckValid cv a) = Some true ->
  AidlAnnotation_CheckValid cv a = (Some true, []).
Proof.
  intros Hres. pose proof (CheckValid_true_parameters a Hres) as Hall.
  unfold AidlAnnotation_CheckValid in *.
  rewrite all_or_return_passes in Hres |- *
    by (eapply Forall_impl; [exact Hall|]; by intros q [_ ?]).
  rewrite bind_silent in Hres |- *. rewrite CheckRequired_run in Hres |- *.
  cbn [result fst andb] in Hres. injection Hres as Hres.
  apply bool_decide_eq_true in Hres. by rewrite Hres.
Qed.
End AnnotationCheckValid.

(** C2, as the code has it. AidlAnnotation::CheckValid walks the supplied
    parameters in order and leaves at the first one that does not pass:
    neither the later parameters nor the required parameters are looked at.
    A parameter whose name is not in the schema, or that has a problem while
    the finder built for it starts at null, gives the single diagnostic of
    that parameter and the result false. Only when every supplied parameter
    passes does CheckValid check the required parameters; that check visits
    all of them and prints one diagnostic per missing name. The finder is
    built without an initial value; the statement is about the parameters
    that do not reach the finder and about those whose finder starts at
    null, and says nothing of the others. *)
Theorem annotation_CheckValid_stops_at_first_problem (cv : ConstantValueEngine)
    (a : AidlAnnotation) :
  (forall pre p post,
     parameters_ a = pre ++ p :: post ->
     Forall (parameter_passes cv a) pre ->
     parameter_problem cv a p = true ->
     assoc_find (fst p) (supported_parameters (schema_ a)) = None \/
       cv_found_before_Accept cv a (fst p) = nullptr ->
     exists d, CheckParameter cv a p = (Some false, [d]) /\
               AidlAnnotation_CheckValid cv a = (Some false, [d])) /\
  (Forall (parameter_passes cv a) (parameters_ a) ->
   AidlAnnotation_CheckValid cv a =
     (Some (bool_decide (missing_required a = [])),
      missing_diagnostic a <$> missing_required a)) /\
  (result (AidlAnnotation_CheckValid cv a) = Some true ->
   Forall (fun q => parameter_problem cv a q = false) (parameters_ a) /\
   missing_required a = [] /\
   AidlAnnotation_CheckValid cv a = (Some true, [])).
Proof.
  split; [|split].
  - intros pre p post. apply CheckValid_first_problem.
  - apply CheckValid_all_parameters_pass.
  - intros Hres. pose proof (CheckValid_true_parameters cv a Hres) as Hall.
    split; [eapply Forall_impl; [exact Hall|]; by intros q [? _]|].
    split; [|by apply AidlAnnotation_CheckValid_true].
    unfold AidlAnnotation_CheckValid in Hres.
    rewrite all_or_return_passes in Hres
      by (eapply Forall_impl; [exact Hall|]; by intros q [_ ?]).
    rewrite bind_silent, CheckRequired_run in Hres.
    cbn [result fst andb] in Hres. injection Hres as Hres.
    by apply bool_decide_eq_true in Hres.
Qed.

(** C2, on @UnsupportedAppUsage(alpha, beta) and on a @Backing without
    parameters. *)
Lemma annotation_CheckValid_stops_at_first_problem_witness :
  (exists d, CheckParameter Examples.engine Examples.AppUsage_two_bad
               ("alpha", Literal (Examples.loc 11) "x") = (Some false, [d]) /\
             AidlAnnotation_CheckValid Examples.engine Examples.AppUsage_two_bad
               = (Some false, [d])) /\
  AidlAnnotation_CheckValid Examples.engine
    (mkAnnotation (Examples.loc 13) AidlAnnotation.BACKING []) =
    (Some false,
     [Error (Examples.loc 13) "Missing 'type' on @Backing."]).
Proof.
  split.
  - apply (proj1 (annotation_CheckValid_stops_at_first_problem Examples.engine
                    Examples.AppUsage_two_bad)
             [] _ [("beta", Literal (Examples.loc 11) "y")]).
    + reflexivity.
    + constructor.
    + reflexivity.
    + by left.
  - apply (proj1 (proj2 (annotation_CheckValid_stops_at_first_problem Examples.engine
                           (mkAnnotation (Examples.loc 13) AidlAnnotation.BACKING [])))).
    constructor.
Defined.

(** C2, as stated, fails. @UnsupportedAppUsage(alpha, beta) has two
    violations (both names are unsupported) and @Backing(bogus) has two (an
    unsupported name and the missing required "type"); CheckValid prints one
    diagnostic for each annotation. *)
Lemma annotation_CheckValid_short_circuits :
  violations Examples.engine Examples.AppUsage_two_bad = 2 /\
  AidlAnnotation_CheckValid Examples.engine Examples.AppUsage_two_bad =
    (Some false,
     [Error (Examples.loc 11)
        ("Parameter alpha not supported for annotation UnsupportedAppUsage. " +:+
         "It must be one of: expectedSignature implicitMember maxTargetSdk " +:+
         "publicAlternatives trackingBug")]) /\
  violations Examples.engine Examples.Backing_bogus = 2 /\
  AidlAnnotation_CheckValid Examples.engine Examples.Backing_bogus =
    (Some false,
     [Error (Examples.loc 10)
        "Parameter bogus not supported for annotation Backing. It must be one of: type"]) /\
  ~ (forall a, length (diagnostics (AidlAnnotation_CheckValid Examples.engine a)) =
               violations Examples.engine a).
Proof.
  repeat split; try by vm_compute.
  intros H. specialize (H Examples.Backing_bogus). by vm_compute in H.
Qed.

(** ** Enum backing types *)

Section Autofill.
Context (cv : ConstantValueEngine) (typenames : AidlTypenames).

Lemma ResolveBackingType_run (d : AidlDefinedType) (bt : AidlTypeSpecifier) :
  IsResolved bt = false ->
  ResolveBackingType typenames d bt =
    if is_resolved (ResolveTypename typenames (unresolved_name_ bt)) then
      (Some (true,
             set_backing_type d
               (mkTypeSpecifier (ts_location bt) (ts_annotations bt) (unresolved_name_ bt)
                  (canonical_name (ResolveTypename typenames (unresolved_name_ bt)))
                  (is_array_ bt) (type_params_ bt) (comments_ bt)
                  (defined_type (ResolveTypename typenames (unresolved_name_ bt))))), [])
    else
      (Some (true, set_backing_type d bt),
       [Error (dt_location d)
          ("Invalid backing type: " +:+ AidlTypeSpecifier_GetName bt)]).
Proof.
  intros Hbt. unfold ResolveBackingType.
  rewrite Resolve_unresolved by done. rewrite bind_ret_l.
  destruct (is_resolved _); simpl.
  - by rewrite !bind_ret_l.
  - by rewrite error_then.
Qed.

Lemma ResolveBackingType_true (d : AidlDefinedType) (bt : AidlTypeSpecifier) :
  IsResolved bt = false ->
  exists d' ds, ResolveBackingType typenames d bt = (Some (true, d'), ds).
Proof.
  intros Hbt. rewrite ResolveBackingType_run by done.
  destruct (is_resolved _); by eexists _, _.
Qed.

(** C9. Autofill returns false exactly when the declaration carries a
    Backing annotation whose own CheckValid returns false (the declaration
    is then left as it was). When the backing type specifier it builds,
    byte by default or the annotation's type, does not resolve, Autofill
    prints "Invalid backing type" and still returns true. *)
Theorem Autofill_false_only_for_invalid_Backing (d : AidlDefinedType) :
  (forall d', result (AidlEnumDeclaration_Autofill cv typenames d) = Some (false, d') ->
     exists annot, BackingType (dt_annotations d) = Some annot /\
                   result (AidlAnnotation_CheckValid cv annot) = Some false) /\
  (forall annot, BackingType (dt_annotations d) = Some annot ->
     result (AidlAnnotation_CheckValid cv annot) = Some false ->
     AidlEnumDeclaration_Autofill cv typenames d =
       (Some (false, d), diagnostics (AidlAnnotation_CheckValid cv annot))) /\
  (BackingType (dt_annotations d) = None ->
     is_resolved (ResolveTypename typenames "byte") = false ->
     AidlEnumDeclaration_Autofill cv typenames d =
       (Some (true,
              set_backing_type d (newTypeSpecifier (AIDL_LOCATION_HERE 1233) "byte" false None "")),
        [Error (dt_location d) "Invalid backing type: byte"])) /\
  (forall annot type,
     BackingType (dt_annotations d) = Some annot ->
     result (AidlAnnotation_CheckValid cv annot) = Some true ->
     assoc_find "type" (parameters_ annot) ≫= cv_Cast_string cv = Some type ->
     is_resolved (ResolveTypename typenames type) = false ->
     AidlEnumDeclaration_Autofill cv typenames d =
       (Some (true,
              set_backing_type d (newTypeSpecifier (annot_location annot) type false None "")),
        [Error (dt_location d) ("Invalid backing type: " +:+ type)])).
Proof.
  unfold AidlEnumDeclaration_Autofill. repeat split.
  - intros d' Hres. destruct (BackingType _) as [annot|].
    + exists annot. split; [done|].
      destruct (AidlAnnotation_CheckValid cv annot) as [[[]|] ds] eqn:Heq;
        [|done|by rewrite bind_fatal in Hres].
      rewrite bind_run in Hres. simpl in Hres.
      apply bind_result_Some in Hres as (type & _ & Hres).
      destruct (ResolveBackingType_true d
                  (newTypeSpecifier (annot_location annot) type false None ""))
        as (d'' & ds' & Heq'); [done|].
      by rewrite Heq' in Hres.
    + destruct (ResolveBackingType_true d
                  (newTypeSpecifier (AIDL_LOCATION_HERE 1233) "byte" false None ""))
        as (d'' & ds' & Heq'); [done|].
      by rewrite Heq' in Hres.
  - intros annot -> Hres.
    rewrite (M_eta (AidlAnnotation_CheckValid cv annot)), Hres, bind_run.
    simpl. by rewrite app_nil_r.
  - intros -> Hbyte. rewrite ResolveBackingType_run by done. simpl. by rewrite Hbyte.
  - intros annot type -> Hres Htype Hun.
    rewrite (AidlAnnotation_CheckValid_true cv annot Hres), bind_run. simpl.
    unfold ParamValue_string_value. rewrite Htype, bind_ret_l.
    rewrite ResolveBackingType_run by done. simpl. by rewrite Hun.
Qed.
End Autofill.

(** C9, on an enum annotated @Backing(type="strange") and on one annotated
    @Backing(bogus="x"). *)
Lemma Autofill_false_only_for_invalid_Backing_witness :
  AidlEnumDeclaration_Autofill Examples.engine Examples.typenames Examples.Color_strange =
    (Some (true,
           set_backing_type Examples.Color_strange
             (newTypeSpecifier (Examples.loc 12) "strange" false None "")),
     [Error (Examples.loc 50) "Invalid backing type: strange"]) /\
  AidlEnumDeclaration_Autofill Examples.engine Examples.typenames Examples.Color_bogus =
    (Some (false, Examples.Color_bogus),
     diagnostics (AidlAnnotation_CheckValid Examples.engine Examples.Backing_bogus)).
Proof.
  split.
  - apply (proj2 (proj2 (proj2 (Autofill_false_only_for_invalid_Backing Examples.engine
             Examples.typenames Examples.Color_strange))) Examples.Backing_strange "strange");
      reflexivity.
  - apply (proj1 (proj2 (Autofill_false_only_for_invalid_Backing Examples.engine
             Examples.typenames Examples.Color_bogus)) Examples.Backing_bogus);
      reflexivity.
Defined.

(** ** Documents *)

Section Document.
Context (cv : ConstantValueEngine) (typenames : AidlTypenames).

(** C3, as the code has it. AidlDocument::CheckValid validates the defined
    types in order and leaves at the first one that fails: the diagnostics
    are those of the types up to and including that one, and the types
    after it are not validated. It returns false exactly when some type
    fails after a prefix of passing types, and true exactly when every
    type passes. *)
Theorem document_CheckValid_stops_at_first_failure (doc : AidlDocument) :
  (forall pre t post ds,
     defined_types_ doc = pre ++ t :: post ->
     Forall (fun q => result (CheckValid cv typenames q) = Some true) pre ->
     CheckValid cv typenames t = (Some false, ds) ->
     AidlDocument_CheckValid cv typenames doc =
       (Some false,
        concat ((fun q => diagnostics (CheckValid cv typenames q)) <$> pre) ++ ds)) /\
  (result (AidlDocument_CheckValid cv typenames doc) = Some false <->
   exists pre t post, defined_types_ doc = pre ++ t :: post /\
     Forall (fun q => result (CheckValid cv typenames q) = Some true) pre /\
     result (CheckValid cv typenames t) = Some false) /\
  (result (AidlDocument_CheckValid cv typenames doc) = Some true <->
   Forall (fun q => result (CheckValid cv typenames q) = Some true) (defined_types_ doc)).
Proof.
  unfold AidlDocument_CheckValid. repeat split.
  - intros pre t post ds -> Hpre Ht. by apply all_or_return_stops.
  - by apply all_or_return_false.
  - by apply all_or_return_false.
  - apply all_or_return_true.
  - intros Hall. by rewrite all_or_return_true_run.
Qed.
End Document.

(** C3, on a document with two empty unions. *)
Lemma document_CheckValid_stops_at_first_failure_witness :
  AidlDocument_CheckValid Examples.engine Examples.typenames Examples.two_empty_unions =
    (Some false, [Error (Examples.loc 20) "The union 'U1' has no fields."]).
Proof.
  apply (proj1 (document_CheckValid_stops_at_first_failure Examples.engine Examples.typenames
                  Examples.two_empty_unions) [] Examples.U1 [Examples.U2]).
  - reflexivity.
  - constructor.
  - reflexivity.
Defined.

(** C3, as stated, fails. In a document with two invalid types the second
    one fails on its own, but the document check stops at the first and
    never prints the diagnostic of the second. *)
Lemma document_CheckValid_skips_later_types :
  CheckValid Examples.engine Examples.typenames Examples.U1 =
    (Some false, [Error (Examples.loc 20) "The union 'U1' has no fields."]) /\
  CheckValid Examples.engine Examples.typenames Examples.U2 =
    (Some false, [Error (Examples.loc 30) "The union 'U2' has no fields."]) /\
  AidlDocument_CheckValid Examples.engine Examples.typenames Examples.two_empty_unions =
    (Some false, [Error (Examples.loc 20) "The union 'U1' has no fields."]) /\
  Error (Examples.loc 30) "The union 'U2' has no fields." ∉
    diagnostics (AidlDocument_CheckValid Examples.engine Examples.typenames
                   Examples.two_empty_unions).
Proof.
  repeat split; try by vm_compute.
  intros Hin. vm_compute in Hin. apply list_elem_of_singleton in Hin. discriminate.
Qed.

(** ** Enum autofill *)

Lemma fill_enumerator_values_lookup (previous : option AidlEnumerator)
    (enumerators : list AidlEnumerator) (i : nat) (e : AidlEnumerator) :
  enumerators !! i = Some e ->
  fill_enumerator_values previous enumerators !! i =
    Some (match i, previous with
          | 0, Some prev =>
              filled_enumerator [prev] 1 e
          | _, _ => filled_enumerator enumerators i e
          end).
Proof.
  revert previous i. induction enumerators as [|e0 rest IH]; intros previous i Hi; [done|].
  destruct i as [|i]; simpl in *.
  - injection Hi as ->. unfold filled_enumerator.
    destruct (enumerator_value_ e); [by destruct previous|].
    by destruct previous.
  - rewrite (IH _ _ Hi). f_equal.
    destruct i as [|i]; simpl.
    + unfold filled_enumerator. destruct (enumerator_value_ e); [done|].
      simpl. by destruct (enumerator_value_ e0), previous.
    + done.
Qed.

Lemma fill_enumerator_values_names (previous : option AidlEnumerator)
    (enumerators : list AidlEnumerator) :
  enumerator_name_ <$> fill_enumerator_values previous enumerators =
  enumerator_name_ <$> enumerators.
Proof.
  revert previous. induction enumerators as [|e rest IH]; intros previous; [done|].
  simpl. rewrite IH. f_equal.
  by destruct (enumerator_value_ e), previous.
Qed.

(** In a list with distinct names, looking an enumerator up by name finds
    the enumerator at its own position. *)
Lemma find_enumerator_at (enumerators : list AidlEnumerator) (i : nat) (e : AidlEnumerator) :
  NoDup (enumerator_name_ <$> enumerators) ->
  enumerators !! i = Some e ->
  find_enumerator enumerators (enumerator_name_ e) = Some e.
Proof.
  intros Hnodup Hi. unfold find_enumerator.
  assert (Hfind : list_find (fun e' => enumerator_name_ e' = enumerator_name_ e) enumerators
                  = Some (i, e)); [|by rewrite Hfind].
  apply list_find_Some. split; [done|]. split; [done|].
  intros j y Hj Hlt Hname.
  assert (i = j); [|lia].
  apply (NoDup_lookup _ i j (enumerator_name_ e) Hnodup).
  - by rewrite list_lookup_fmap, Hi.
  - by rewrite list_lookup_fmap, Hj, <- Hname.
Qed.

(** When only the first enumerator may carry a value, an integral literal,
    the filled values count up from it. *)
Lemma filled_values_count_up (enumerators : list AidlEnumerator) (base : Z) :
  NoDup (enumerator_name_ <$> enumerators) ->
  (forall i e, enumerators !! S i = Some e -> enumerator_value_ e = None) ->
  (forall e, enumerators !! 0 = Some e ->
     (enumerator_value_ e = None /\ base = 0%Z) \/
     (exists l s, enumerator_value_ e = Some (Integral l s) /\ parse_decimal s = Some base)) ->
  forall i e fuel,
    fill_enumerator_values None enumerators !! i = Some e ->
    2 * i + 1 <= fuel ->
    enumerator_value_ e ≫= evaluate fuel (fill_enumerator_values None enumerators)
      = Some (base + Z.of_nat i)%Z.
Proof.
  intros Hnodup Hrest Hfirst.
  assert (Hnames := fill_enumerator_values_names None enumerators).
  induction i as [|i IH]; intros e fuel Hi Hfuel.
  - destruct (enumerators !! 0) as [e0|] eqn:He0.
    2:{ apply lookup_ge_None_1 in He0. apply lookup_lt_Some in Hi.
        rewrite <- (length_fmap enumerator_name_), Hnames, length_fmap in Hi. lia. }
    rewrite (fill_enumerator_values_lookup None _ 0 e0 He0) in Hi.
    injection Hi as <-. destruct fuel as [|fuel]; [lia|].
    unfold filled_enumerator.
    destruct (Hfirst e0 eq_refl) as [[Hnone ->]|(l & s & Hval & Hparse)].
    + rewrite Hnone. simpl. done.
    + rewrite Hval. simpl. rewrite Hval. simpl. rewrite Hparse. f_equal. lia.
  - destruct (enumerators !! S i) as [e1|] eqn:He1.
    2:{ apply lookup_ge_None_1 in He1. apply lookup_lt_Some in Hi.
        rewrite <- (length_fmap enumerator_name_), Hnames, length_fmap in Hi. lia. }
    rewrite (fill_enumerator_values_lookup None _ (S i) e1 He1) in Hi.
    injection Hi as <-. unfold filled_enumerator. rewrite (Hrest i e1 He1).
    destruct (fill_enumerator_values None enumerators !! i) as [p|] eqn:Hp.
    2:{ apply lookup_ge_None_1 in Hp. apply lookup_lt_Some in He1.
        rewrite <- (length_fmap enumerator_name_), Hnames, length_fmap in Hp. lia. }
    assert (Hpname : from_option enumerator_name_ "" (enumerators !! i) = enumerator_name_ p).
    { assert (Hn : (enumerator_name_ <$> enumerators) !! i = Some (enumerator_name_ p))
        by (by rewrite <- Hnames, list_lookup_fmap, Hp).
      rewrite list_lookup_fmap in Hn. by destruct (enumerators !! i); simplify_eq/=. }
    rewrite Hpname.
    destruct fuel as [|[|fuel]]; [lia|lia|].
    cbn [SetValue enumerator_value_ mbind option_bind evaluate].
    rewrite (bool_decide_eq_true_2 ("+" = "+") eq_refl).
    rewrite (find_enumerator_at _ i p); [|by rewrite Hnames|done].
    cbn [mbind option_bind].
    assert (IHp := IH p fuel eq_refl ltac:(lia)).
    destruct (enumerator_value_ p) as [vp|]; simpl in IHp |- *; [|done].
    rewrite IHp. simpl. f_equal. lia.
Qed.

(** C6. The enum constructor keeps every explicit enumerator value, gives a
    first enumerator without a value the literal 0, and gives every later
    enumerator without a value the expression "previous enumerator + 1";
    names and order are unchanged. When the names are distinct and only the
    first enumerator may carry a value, an integral literal, the values
    count up from it. In particular enum { A, B, C } evaluates to 0, 1, 2
    and enum { A = 5, B, C } to 5, 6, 7. *)
Theorem enum_constructor_fills_values :
  (forall loc name enumerators package comments,
     let d := newEnumDeclaration loc name enumerators package comments in
     enumerator_name_ <$> GetEnumerators d = enumerator_name_ <$> enumerators /\
     forall i e, enumerators !! i = Some e ->
       GetEnumerators d !! i = Some (filled_enumerator enumerators i e)) /\
  (forall loc name enumerators package comments base,
     let d := newEnumDeclaration loc name enumerators package comments in
     NoDup (enumerator_name_ <$> enumerators) ->
     (forall i e, enumerators !! S i = Some e -> enumerator_value_ e = None) ->
     (forall e, enumerators !! 0 = Some e ->
        (enumerator_value_ e = None /\ base = 0%Z) \/
        (exists l s, enumerator_value_ e = Some (Integral l s) /\
                     parse_decimal s = Some base)) ->
     forall i, i < length enumerators ->
       enumerator_values (GetEnumerators d) !! i = Some (Some (base + Z.of_nat i)%Z)) /\
  enumerator_values (GetEnumerators Examples.E_ABC) = [Some 0; Some 1; Some 2]%Z /\
  enumerator_values (GetEnumerators Examples.E_A5BC) = [Some 5; Some 6; Some 7]%Z.
Proof.
  split; [|split; [|by vm_compute]].
  - intros loc name enumerators package comments d.
    change (GetEnumerators d) with (fill_enumerator_values None enumerators). split.
    + apply fill_enumerator_values_names.
    + intros i e Hi. rewrite (fill_enumerator_values_lookup None enumerators i e Hi).
      by destruct i.
  - intros loc name enumerators package comments base d Hnodup Hrest Hfirst i Hi.
    change (GetEnumerators d) with (fill_enumerator_values None enumerators).
    assert (Hlen : length (fill_enumerator_values None enumerators) = length enumerators).
    { by rewrite <- (length_fmap enumerator_name_), fill_enumerator_values_names,
        length_fmap. }
    unfold enumerator_values. rewrite list_lookup_fmap.
    destruct (fill_enumerator_values None enumerators !! i) as [e|] eqn:He.
    + simpl. f_equal.
      apply (filled_values_count_up enumerators base Hnodup Hrest Hfirst i e); [done|lia].
    + apply lookup_ge_None_1 in He. lia.
Qed.

(** C6, on enum { A = 5, B, C }: position 1 holds B = A + 1, and position
    2 evaluates to 7. *)
Lemma enum_constructor_fills_values_witness :
  GetEnumerators Examples.E_A5BC !! 1 =
    Some (mkEnumerator (Examples.loc 42) "B"
            (Some (AidlBinaryConstExpression (Examples.loc 42)
                     (AidlConstantReference (Examples.loc 42) "A" "") "+"
                     (Integral (Examples.loc 42) "1")))
            "" false) /\
  enumerator_values (GetEnumerators Examples.E_A5BC) !! 2 = Some (Some 7%Z).
Proof.
  split.
  - exact (proj2 (proj1 enum_constructor_fills_values (Examples.loc 40) "E"
                    [newEnumerator (Examples.loc 41) "A"
                       (Some (Integral (Examples.loc 41) "5")) "";
                     newEnumerator (Examples.loc 42) "B" None "";
                     newEnumerator (Examples.loc 43) "C" None ""] "" "") 1
             (newEnumerator (Examples.loc 42) "B" None "") eq_refl).
  - apply (proj1 (proj2 enum_constructor_fills_values) (Examples.loc 40) "E"
             [newEnumerator (Examples.loc 41) "A" (Some (Integral (Examples.loc 41) "5")) "";
              newEnumerator (Examples.loc 42) "B" None "";
              newEnumerator (Examples.loc 43) "C" None ""] "" "" 5%Z).
    + apply (bool_decide_unpack (NoDup _)). by vm_compute.
    + intros [|[|[|i]]] e He; simpl in He; by simplify_eq.
    + intros e He. right. simpl in He. simplify_eq. by eexists _, _.
    + simpl. lia.
Defined.

(** ** Unions *)

Section Union.
Context (cv : ConstantValueEngine) (typenames : AidlTypenames).

Lemma CheckNoParcelableHolder_total (fields : list AidlVariableDeclaration) (success : bool) :
  is_Some (result (accumulate CheckNoParcelableHolder fields success)).
Proof.
  apply accumulate_total. intros s v. unfold CheckNoParcelableHolder.
  case_bool_decide; [|by eexists]. rewrite error_then. by eexists.
Qed.

Lemma CheckFirstMember_useful (first : AidlVariableDeclaration) :
  HasUsefulDefaultValue first = true ->
  CheckFirstMember typenames first = (Some true, []).
Proof. intros H. unfold CheckFirstMember. by rewrite H. Qed.

Lemma CheckFirstMember_enum (first : AidlVariableDeclaration) :
  default_value_ first = None ->
  IsNullable (ts_annotations (var_type_ first)) = false ->
  IsArray (var_type_ first) = false ->
  is_Some (GetEnumDeclaration typenames (var_type_ first)) ->
  CheckFirstMember typenames first =
    (Some false, [Error (var_location first) first_member_enum_message]).
Proof.
  intros Hdef Hnull Harr Henum. unfold CheckFirstMember, HasUsefulDefaultValue.
  rewrite Hdef, Hnull, Harr. simpl.
  rewrite (bool_decide_eq_true_2 _ Henum).
  by rewrite (and_then_stop _ _ [Error (var_location first) first_member_enum_message]).
Qed.

(** The union check from the holder loop on, for a union with fields. *)
Lemma AidlUnionDecl_CheckValid_run (d : AidlDefinedType) (first : AidlVariableDeclaration)
    (rest : list AidlVariableDeclaration) (ds1 ds2 : list Diagnostic) :
  variables_ d = first :: rest ->
  AidlParcelable_CheckValid cv typenames d = (Some true, ds1) ->
  CheckValidForGetterNames d = (Some true, ds2) ->
  AidlUnionDecl_CheckValid cv typenames d =
    (match result (CheckFirstMember typenames first) with
     | Some true => result (accumulate CheckNoParcelableHolder (first :: rest) true)
     | other => other
     end,
     ds1 ++ ds2 ++
     diagnostics (accumulate CheckNoParcelableHolder (first :: rest) true) ++
     diagnostics (CheckFirstMember typenames first)).
Proof.
  intros Hfields Hparcel Hgetters. unfold AidlUnionDecl_CheckValid, GetFields.
  rewrite Hfields.
  destruct (CheckNoParcelableHolder_total (first :: rest) true) as [success Hs].
  remember (accumulate CheckNoParcelableHolder (first :: rest) true) as acc eqn:Hacc.
  destruct acc as [res dsh]. simpl in Hs. subst res.
  rewrite (and_then_run _ _ ds1 Hparcel). simpl.
  rewrite (and_then_run _ _ ds2 Hgetters). simpl.
  rewrite bind_run. simpl.
  destruct (CheckFirstMember typenames first) as [[[]|] dsf]; simpl.
  - by rewrite app_nil_r.
  - by rewrite ?app_nil_r.
  - done.
Qed.

(** C5. Take a union whose first field is declared without a default
    value, for a type that is an enum, not an array and not nullable, and
    for which the engine supplies no implicit default. The first-member
    check prints its enum diagnostic and fails, so CheckValid never
    returns true on that union, and returns false with that diagnostic
    last whenever the parcelable and getter-name checks before it pass.
    The same first field with an explicit default value, or with a
    nullable type, passes the first-member check without a diagnostic. *)
Theorem union_first_enum_member_needs_default (d : AidlDefinedType) (loc : AidlLocation)
    (type : AidlTypeSpecifier) (name : string) (rest : list AidlVariableDeclaration) :
  variables_ d = newVariableDeclaration cv loc type name :: rest ->
  cv_Default cv type = None ->
  IsArray type = false ->
  IsNullable (ts_annotations type) = false ->
  is_Some (GetEnumDeclaration typenames type) ->
  CheckFirstMember typenames (newVariableDeclaration cv loc type name) =
    (Some false, [Error loc first_member_enum_message]) /\
  result (AidlUnionDecl_CheckValid cv typenames d) <> Some true /\
  (forall ds1 ds2,
     AidlParcelable_CheckValid cv typenames d = (Some true, ds1) ->
     CheckValidForGetterNames d = (Some true, ds2) ->
     AidlUnionDecl_CheckValid cv typenames d =
       (Some false,
        ds1 ++ ds2 ++
        diagnostics (accumulate CheckNoParcelableHolder (variables_ d) true) ++
        [Error loc first_member_enum_message])) /\
  (forall value,
     CheckFirstMember typenames (newVariableDeclarationWithDefault loc type name value) =
       (Some true, [])) /\
  (forall type' : AidlTypeSpecifier,
     IsNullable (ts_annotations type') = true ->
     CheckFirstMember typenames (newVariableDeclaration cv loc type' name) = (Some true, [])).
Proof.
  intros Hfields Hdefault Harr Hnull Henum.
  assert (Hfirst : CheckFirstMember typenames (newVariableDeclaration cv loc type name) =
                   (Some false, [Error loc first_member_enum_message])).
  { by apply CheckFirstMember_enum. }
  split; [done|]. split; [|split; [|split]].
  - unfold AidlUnionDecl_CheckValid, GetFields. rewrite Hfields.
    do 2 apply and_then_not_true_r. intros H.
    apply bind_result_Some in H as (success & _ & H).
    apply and_then_true in H as [H _]. by rewrite Hfirst in H.
  - intros ds1 ds2 Hparcel Hgetters.
    rewrite (AidlUnionDecl_CheckValid_run d _ rest ds1 ds2 Hfields Hparcel Hgetters).
    by rewrite Hfirst, Hfields.
  - intros value. by apply CheckFirstMember_useful.
  - intros type' Hnullable. apply CheckFirstMember_useful.
    unfold HasUsefulDefaultValue. simpl. rewrite Hnullable. by case_bool_decide.
Qed.

(** With a useful default on the first field the union check is decided
    by the checks around the first-member block. *)
Lemma union_with_useful_default (d : AidlDefinedType) (first : AidlVariableDeclaration)
    (rest : list AidlVariableDeclaration) (ds1 ds2 : list Diagnostic) :
  variables_ d = first :: rest ->
  HasUsefulDefaultValue first = true ->
  AidlParcelable_CheckValid cv typenames d = (Some true, ds1) ->
  CheckValidForGetterNames d = (Some true, ds2) ->
  AidlUnionDecl_CheckValid cv typenames d =
    (result (accumulate CheckNoParcelableHolder (first :: rest) true),
     ds1 ++ ds2 ++ diagnostics (accumulate CheckNoParcelableHolder (first :: rest) true)).
Proof.
  intros Hfields Huseful Hparcel Hgetters.
  rewrite (AidlUnionDecl_CheckValid_run d first rest ds1 ds2 Hfields Hparcel Hgetters).
  rewrite (CheckFirstMember_useful first Huseful). simpl. by rewrite app_nil_r.
Qed.
End Union.

(** C5, on union U { Color c; } where Color is an enum. *)
Lemma union_first_enum_member_needs_default_witness :
  AidlUnionDecl_CheckValid Examples.engine Examples.typenames Examples.U_color =
    (Some false, [Error (Examples.loc 21) first_member_enum_message]) /\
  AidlUnionDecl_CheckValid Examples.engine Examples.typenames Examples.U_color_default =
    (Some true, []).
Proof.
  split.
  - apply (proj1 (proj2 (proj2
      (union_first_enum_member_needs_default Examples.engine Examples.typenames
         Examples.U_color (Examples.loc 21) (Examples.simple "Color") "c" []
         eq_refl eq_refl eq_refl eq_refl (mk_is_Some _ _ eq_refl)))) [] []);
      reflexivity.
  - reflexivity.
Defined.

(** ** Generic List specifiers *)

Section GenericList.
Context (cv : ConstantValueEngine) (typenames : AidlTypenames).

Lemma CheckGeneric_List_one (t T : AidlTypeSpecifier) :
  AidlTypeSpecifier_GetName t = "List" ->
  type_params_ t = Some [T] ->
  exists ds, CheckGeneric typenames t = (Some (list_parameter_allowed typenames T), ds).
Proof.
  intros Hname Hparams.
  unfold CheckGeneric, CheckGenericList, GetTypeParameters, list_parameter_allowed.
  rewrite Hname, Hparams. unfold default.
  cbn [from_option id length existsb orb].
  remember (AidlTypeSpecifier_GetName T) as nameT eqn:HnameT.
  rewrite (bool_decide_eq_true_2 ("List" = "List") eq_refl).
  rewrite (bool_decide_eq_false_2 (1 < 1)) by lia.
  cbn [orb]. rewrite orb_false_r.
  destruct (bool_decide (is_Some (GetEnumDeclaration typenames T))); cbn [orb negb andb].
  { rewrite (and_then_stop _ _ _ (reject_if_true _ _)). by eexists. }
  destruct (IsPrimitiveTypename typenames nameT); cbn [orb negb andb].
  { rewrite (and_then_stop _ _ _ (reject_if_true _ _)). by eexists. }
  rewrite (and_then_run _ _ _ (reject_if_false _ _)).
  rewrite (and_then_run _ _ _ (reject_if_false _ _)).
  destruct (IsBuiltinTypename typenames nameT).
  - rewrite !reject_if_result. cbn [result diagnostics fst snd].
    eexists. f_equal. f_equal.
    by repeat case_bool_decide.
  - rewrite !reject_if_result. cbn [result diagnostics fst snd]. by eexists.
Qed.

Lemma CheckGeneric_List_many (t T1 T2 : AidlTypeSpecifier) (rest : list AidlTypeSpecifier) :
  AidlTypeSpecifier_GetName t = "List" ->
  type_params_ t = Some (T1 :: T2 :: rest) ->
  exists ds, CheckGeneric typenames t = (Some false, ds).
Proof.
  intros Hname Hparams.
  unfold CheckGeneric, CheckGenericList, GetTypeParameters.
  rewrite Hname, Hparams. unfold default.
  cbn [from_option id length].
  rewrite (bool_decide_eq_true_2 ("List" = "List") eq_refl).
  rewrite (bool_decide_eq_true_2 (1 < S (S (length rest)))) by lia.
  cbn [orb].
  destruct (existsb _ _).
  - rewrite (and_then_stop _ _ _ (reject_if_true _ _)). by eexists.
  - rewrite (and_then_run _ _ _ (reject_if_false _ _)).
    rewrite (and_then_stop _ _ _ (reject_if_true _ _)).
    cbn [result diagnostics fst snd]. by eexists.
Qed.

(** The checks after the generic block pass for a List, under the side
    condition on utf8InCpp, when the name List is not shadowed in the
    type-name table. *)
Lemma CheckSpecifierRules_List (t T : AidlTypeSpecifier) :
  AidlTypeSpecifier_GetName t = "List" ->
  type_params_ t = Some [T] ->
  IsPrimitiveTypename typenames "List" = false ->
  TryGetDefinedType typenames "List" = None ->
  (IsUtf8InCpp (ts_annotations t) = true -> AidlTypeSpecifier_GetName T = "String") ->
  CheckSpecifierRules typenames t = (Some true, []).
Proof.
  intros Hname Hparams Hprim Hdef Hutf8.
  unfold CheckSpecifierRules, is_generic_string_list, IsGeneric, GetTypeParameters.
  rewrite Hname, Hparams, Hprim, Hdef. unfold default.
  cbn [from_option id length andb orb negb].
  rewrite (bool_decide_eq_false_2 ("List" = "void")) by done.
  rewrite (bool_decide_eq_false_2 ("List" = "String")) by done.
  rewrite (bool_decide_eq_false_2 ("List" = "ParcelableHolder")) by done.
  rewrite (bool_decide_eq_true_2 ("List" = "List") eq_refl).
  rewrite (bool_decide_eq_true_2 (is_Some (Some [T]))) by (by eexists).
  rewrite (bool_decide_eq_true_2 (1 = 1) eq_refl).
  cbn [andb negb].
  assert (Hu : IsUtf8InCpp (ts_annotations t) &&
               negb (bool_decide (AidlTypeSpecifier_GetName T = "String")) = false).
  { destruct (IsUtf8InCpp (ts_annotations t)); [|done].
    by rewrite (bool_decide_eq_true_2 _ (Hutf8 eq_refl)). }
  rewrite Hu. unfold ret.
  destruct (IsArray t), (IsNullable (ts_annotations t));
    by rewrite ?reject_if_false, ?pass_and_then.
Qed.

(** C4, as the code has it. Take a specifier named List with exactly one
    type parameter T whose annotations pass AidlAnnotatable::CheckValid,
    that carries utf8InCpp only if T is String, in a type-name table where
    List is not a primitive name and names no defined type. CheckValid
    returns, and returns true exactly when T is an allowed List parameter:
    not an enum, not a primitive, and either one of the built-ins String,
    IBinder, ParcelFileDescriptor or a type that is not built-in and not an
    interface. A List with more than one type parameter is rejected. *)
Theorem List_CheckValid_iff_parameter_allowed :
  (forall (t T : AidlTypeSpecifier) (ds0 : list Diagnostic),
     AidlTypeSpecifier_GetName t = "List" ->
     type_params_ t = Some [T] ->
     AidlAnnotatable_CheckValid cv (ts_location t) AidlTypeSpecifier_GetSupportedAnnotations
       (ts_annotations t) = (Some true, ds0) ->
     IsPrimitiveTypename typenames "List" = false ->
     TryGetDefinedType typenames "List" = None ->
     (IsUtf8InCpp (ts_annotations t) = true -> AidlTypeSpecifier_GetName T = "String") ->
     result (AidlTypeSpecifier_CheckValid cv typenames t) =
       Some (list_parameter_allowed typenames T) /\
     (is_Some (GetEnumDeclaration typenames T) ->
        result (AidlTypeSpecifier_CheckValid cv typenames t) = Some false) /\
     (IsPrimitiveTypename typenames (AidlTypeSpecifier_GetName T) = true ->
        result (AidlTypeSpecifier_CheckValid cv typenames t) = Some false) /\
     (IsBuiltinTypename typenames (AidlTypeSpecifier_GetName T) = false ->
      is_Some (GetInterface typenames T) ->
        result (AidlTypeSpecifier_CheckValid cv typenames t) = Some false)) /\
  (forall (t T1 T2 : AidlTypeSpecifier) (rest : list AidlTypeSpecifier)
          (ds0 : list Diagnostic),
     AidlTypeSpecifier_GetName t = "List" ->
     type_params_ t = Some (T1 :: T2 :: rest) ->
     AidlAnnotatable_CheckValid cv (ts_location t) AidlTypeSpecifier_GetSupportedAnnotations
       (ts_annotations t) = (Some true, ds0) ->
     result (AidlTypeSpecifier_CheckValid cv typenames t) = Some false).
Proof.
  split.
  - intros t T ds0 Hname Hparams Hannot Hprim Hdef Hutf8.
    assert (Hres : result (AidlTypeSpecifier_CheckValid cv typenames t) =
                   Some (list_parameter_allowed typenames T)).
    { unfold AidlTypeSpecifier_CheckValid, IsGeneric.
      rewrite (and_then_run _ _ ds0 Hannot), Hparams.
      rewrite (bool_decide_eq_true_2 (is_Some (Some [T]))) by (by eexists).
      destruct (CheckGeneric_List_one t T Hname Hparams) as [ds Hgen].
      destruct (list_parameter_allowed typenames T).
      - rewrite (and_then_run _ _ ds Hgen).
        by rewrite (CheckSpecifierRules_List t T Hname Hparams Hprim Hdef Hutf8).
      - by rewrite (and_then_stop _ _ ds Hgen). }
    split; [done|]. rewrite Hres. unfold list_parameter_allowed.
    split; [|split].
    + intros Henum. by rewrite (bool_decide_eq_true_2 _ Henum).
    + intros ->. by rewrite andb_false_r.
    + intros -> Hintf. rewrite (bool_decide_eq_true_2 _ Hintf). by rewrite andb_false_r.
  - intros t T1 T2 rest ds0 Hname Hparams Hannot.
    unfold AidlTypeSpecifier_CheckValid, IsGeneric.
    rewrite (and_then_run _ _ ds0 Hannot), Hparams.
    rewrite (bool_decide_eq_true_2 (is_Some (Some (T1 :: T2 :: rest)))) by (by eexists).
    destruct (CheckGeneric_List_many t T1 T2 rest Hname Hparams) as [ds Hgen].
    by rewrite (and_then_stop _ _ ds Hgen).
Qed.
End GenericList.

(** C4, on List<IBinder> over the example table. *)
Lemma List_CheckValid_iff_parameter_allowed_witness :
  result (AidlTypeSpecifier_CheckValid Examples.engine Examples.typenames
            Examples.List_IBinder) = Some true /\
  result (AidlTypeSpecifier_CheckValid Examples.engine Examples.typenames
            (Examples.List_of [] [Examples.resolved "String"; Examples.resolved "String"]))
    = Some false.
Proof.
  split.
  - apply (proj1 (proj1 (List_CheckValid_iff_parameter_allowed Examples.engine
                           Examples.typenames)
                    Examples.List_IBinder (Examples.resolved "IBinder") []
                    eq_refl eq_refl eq_refl eq_refl eq_refl
                    (fun H => False_ind _ (Bool.diff_false_true H)))).
  - apply (proj2 (List_CheckValid_iff_parameter_allowed Examples.engine Examples.typenames)
             _ (Examples.resolved "String") (Examples.resolved "String") [] []);
      reflexivity.
Defined.

(** C4, as stated, fails. @utf8InCpp List<IBinder> has valid annotations
    and its parameter IBinder is one of the allowed built-ins, yet
    CheckValid rejects it through the utf8InCpp rule. *)
Lemma utf8_List_IBinder_rejected :
  AidlAnnotatable_CheckValid Examples.engine (ts_location Examples.utf8_List_IBinder)
    AidlTypeSpecifier_GetSupportedAnnotations (ts_annotations Examples.utf8_List_IBinder)
    = (Some true, []) /\
  type_params_ Examples.utf8_List_IBinder = Some [Examples.resolved "IBinder"] /\
  list_parameter_allowed Examples.typenames (Examples.resolved "IBinder") = true /\
  AidlTypeSpecifier_CheckValid Examples.engine Examples.typenames Examples.utf8_List_IBinder =
    (Some false,
     [Error (Examples.loc 5)
        "@utf8InCpp can only be used on String, String[], and List<String>."]).
Proof. repeat split. Qed.

(** ** Interfaces *)

Section Interface.
Context (cv : ConstantValueEngine) (typenames : AidlTypenames).
Import AidlArgument.

Lemma IsOut_direction (arg : AidlArgument) :
  IsOut arg = true <-> GetDirection arg = OUT_DIR \/ GetDirection arg = INOUT_DIR.
Proof.
  unfold IsOut, GetDirection. destruct (direction_ arg); simpl; split; intros H;
    try done; auto; by destruct H.
Qed.

(** A method that continues the method loop was new to the name table and
    is entered under its name. *)
Lemma CheckMethod_continues (method_names names' : gmap string AidlMethod) (m : AidlMethod) :
  result (CheckMethod cv typenames method_names m) = Some (Some names') ->
  result (CheckMethodRules cv typenames m) = Some true /\
  method_names !! method_name_ m = None /\
  names' = <[method_name_ m := m]> method_names.
Proof.
  unfold CheckMethod. intros H.
  apply bind_result_Some in H as ([] & Hrules & H); [|done].
  split; [done|].
  destruct (method_names !! method_name_ m) as [previous|].
  - by rewrite !error_then in H.
  - split; [done|].
    apply bind_result_Some in H as ([] & _ & H); simpl in H; congruence.
Qed.

(** Every method of a list that passed the method loop is in the name table. *)
Lemma method_loop_names (l : list AidlMethod) (s s' : gmap string AidlMethod) :
  result (loop_or_return (CheckMethod cv typenames) l s) = Some (Some s') ->
  forall n, (is_Some (s !! n) \/ exists m, m ∈ l /\ method_name_ m = n) -> is_Some (s' !! n).
Proof.
  revert s. induction l as [|m l IH]; intros s Hloop n Hn; simpl in Hloop.
  - injection Hloop as <-. destruct Hn as [?|(m & Hm & _)]; [done|].
    by apply elem_of_nil in Hm.
  - apply bind_result_Some in Hloop as ([s1|] & Hm & Hloop); [|done].
    apply CheckMethod_continues in Hm as (_ & _ & ->).
    apply (IH _ Hloop n).
    destruct Hn as [Hs|(m' & Hm' & Hname)].
    + left. destruct (decide (method_name_ m = n)) as [->|Hne].
      * rewrite lookup_insert_eq. by eexists.
      * by rewrite lookup_insert_ne.
    + apply elem_of_cons in Hm' as [->|Hm'].
      * left. rewrite <- Hname, lookup_insert_eq. by eexists.
      * right. eauto.
Qed.

(** What the name table holds came from the list, under its own name. *)
Lemma method_loop_names_from (l : list AidlMethod) (s s' : gmap string AidlMethod) :
  result (loop_or_return (CheckMethod cv typenames) l s) = Some (Some s') ->
  forall n m, s' !! n = Some m -> s !! n = Some m \/ (m ∈ l /\ method_name_ m = n).
Proof.
  revert s. induction l as [|m0 l IH]; intros s Hloop n m Hn; simpl in Hloop.
  - injection Hloop as <-. by left.
  - apply bind_result_Some in Hloop as ([s1|] & Hm & Hloop); [|done].
    apply CheckMethod_continues in Hm as (_ & _ & ->).
    destruct (IH _ Hloop n m Hn) as [Hs|[Hin Hname]].
    + destruct (decide (method_name_ m0 = n)) as [Heq|Hne].
      * rewrite <- Heq, lookup_insert_eq in Hs. injection Hs as <-.
        right. split; [by left|done].
      * rewrite lookup_insert_ne in Hs by done. by left.
    + right. split; [by right|done].
Qed.

(** If the method loop cannot run to its end, the interface is not valid. *)
Lemma interface_methods_blocked (d : AidlDefinedType) :
  (forall names, result (loop_or_return (CheckMethod cv typenames) (methods_ d) ∅)
                 <> Some (Some names)) ->
  result (AidlInterface_CheckValid cv typenames d) <> Some true.
Proof.
  intros Hblocked. unfold AidlInterface_CheckValid.
  apply and_then_not_true_r. intros H.
  apply bind_result_Some in H as ([names|] & Hloop & H).
  - by apply Hblocked in Hloop.
  - by rewrite bool_decide_eq_false_2 in H by (by intros [? ?]).
Qed.

(** The interface check when the method loop stops at [m] after the
    prefix [pre] has passed. *)
Lemma interface_stops_at_method (d : AidlDefinedType) (pre post : list AidlMethod)
    (m : AidlMethod) (names : gmap string AidlMethod) (ds0 ds1 dsm : list Diagnostic) :
  methods_ d = pre ++ m :: post ->
  AidlDefinedType_CheckValid cv typenames d = (Some true, ds0) ->
  loop_or_return (CheckMethod cv typenames) pre ∅ = (Some (Some names), ds1) ->
  CheckMethod cv typenames names m = (Some None, dsm) ->
  AidlInterface_CheckValid cv typenames d = (Some false, ds0 ++ ds1 ++ dsm).
Proof.
  intros Hmethods Hdef Hpre Hm. unfold AidlInterface_CheckValid.
  rewrite (and_then_run _ _ ds0 Hdef), Hmethods, loop_or_return_app, Hpre.
  rewrite bind_run. cbn [loop_or_return]. rewrite Hm, bind_run.
  cbn [result diagnostics fst snd ret]. rewrite bind_run.
  rewrite bool_decide_eq_false_2 by (by intros [? ?]).
  cbn [result diagnostics fst snd ret]. by rewrite !app_nil_r.
Qed.

(** *** Oneway methods *)

Lemma CheckArgumentRules_oneway_out (m : AidlMethod) (arg : AidlArgument) :
  IsOneway m = true -> IsOut arg = true ->
  result (CheckArgumentRules cv typenames m arg) <> Some true.
Proof.
  intros Hone Hout. unfold CheckArgumentRules.
  do 2 apply and_then_not_true_r. apply and_then_not_true_l.
  by rewrite Hone, Hout.
Qed.

Lemma CheckMethodRules_oneway_out (m : AidlMethod) (arg : AidlArgument) :
  IsOneway m = true -> arg ∈ arguments_ m -> IsOut arg = true ->
  result (CheckMethodRules cv typenames m) <> Some true.
Proof.
  intros Hone Hin Hout. unfold CheckMethodRules.
  do 3 apply and_then_not_true_r. intros H.
  apply bind_result_Some in H as (names & Hloop & H).
  destruct names as [names|]; [|by rewrite bool_decide_eq_false_2 in H by (by intros [? ?])].
  apply list_elem_of_split in Hin as (l1 & l2 & Hargs). rewrite Hargs in Hloop.
  revert Hloop.
  apply (loop_or_return_blocked _ (fun _ => True) l1 l2 arg ∅); [done|].
  intros s _ s'' Harg. unfold CheckArgument in Harg.
  case_bool_decide; [by rewrite error_then in Harg|].
  apply bind_result_Some in Harg as ([] & Hrules & Harg); [|done].
  by apply CheckArgumentRules_oneway_out in Hrules.
Qed.

Lemma CheckMethodRules_oneway_return (m : AidlMethod) :
  IsOneway m = true ->
  AidlTypeSpecifier_GetName (method_type_ m) <> "void" ->
  result (CheckMethodRules cv typenames m) <> Some true.
Proof.
  intros Hone Hvoid. unfold CheckMethodRules.
  do 2 apply and_then_not_true_r. apply and_then_not_true_l.
  by rewrite Hone, bool_decide_eq_false_2.
Qed.

Lemma interface_method_rules_fail (d : AidlDefinedType) (m : AidlMethod) :
  m ∈ methods_ d ->
  result (CheckMethodRules cv typenames m) <> Some true ->
  result (AidlInterface_CheckValid cv typenames d) <> Some true.
Proof.
  intros Hin Hrules. apply interface_methods_blocked.
  apply list_elem_of_split in Hin as (l1 & l2 & ->).
  apply (loop_or_return_blocked _ (fun _ => True)); [done|].
  intros s _ s'' Hm. by apply CheckMethod_continues in Hm as (? & _).
Qed.

(** C7, as the code has it. An interface with a oneway method whose return
    type is not void, or with a oneway method that has an out or inout
    argument, never passes CheckValid. The diagnostic that names the method,
    "oneway method '<name>' cannot return a value" at the location of the
    method, is the one printed when validation reaches the oneway test of
    that method: the checks of the defined type pass, the methods before it
    pass, and its return type validates and is not ParcelableHolder. *)
Theorem oneway_method_rejected (d : AidlDefinedType) (pre post : list AidlMethod)
    (m : AidlMethod) :
  methods_ d = pre ++ m :: post -> IsOneway m = true ->
  (AidlTypeSpecifier_GetName (method_type_ m) <> "void" ->
     result (AidlInterface_CheckValid cv typenames d) <> Some true) /\
  (forall i arg, arguments_ m !! i = Some arg ->
     GetDirection arg = OUT_DIR \/ GetDirection arg = INOUT_DIR ->
     result (AidlInterface_CheckValid cv typenames d) <> Some true) /\
  (forall names ds0 ds1 ds2,
     AidlTypeSpecifier_GetName (method_type_ m) <> "void" ->
     AidlDefinedType_CheckValid cv typenames d = (Some true, ds0) ->
     loop_or_return (CheckMethod cv typenames) pre ∅ = (Some (Some names), ds1) ->
     AidlTypeSpecifier_CheckValid cv typenames (method_type_ m) = (Some true, ds2) ->
     AidlTypeSpecifier_GetName (method_type_ m) <> "ParcelableHolder" ->
     AidlInterface_CheckValid cv typenames d =
       (Some false,
        ds0 ++ ds1 ++ ds2 ++
        [Error (method_location m)
           ("oneway method '" +:+ method_name_ m +:+ "' cannot return a value")])).
Proof.
  intros Hmethods Hone.
  assert (Hin : m ∈ methods_ d) by (rewrite Hmethods; set_solver).
  split; [|split].
  - intros Hvoid. apply (interface_method_rules_fail d m Hin).
    by apply CheckMethodRules_oneway_return.
  - intros i arg Harg Hdir. apply (interface_method_rules_fail d m Hin).
    apply (CheckMethodRules_oneway_out m arg); [done| |].
    + by eapply list_elem_of_lookup_2.
    + by apply IsOut_direction.
  - intros names ds0 ds1 ds2 Hvoid Hdef Hpre Htype Hholder.
    apply (interface_stops_at_method d pre post m names ds0 ds1 _ Hmethods Hdef Hpre).
    unfold CheckMethod, CheckMethodRules.
    rewrite (and_then_run _ _ ds2 Htype).
    rewrite (bool_decide_eq_false_2 _ Hholder), reject_if_false, pass_and_then.
    rewrite Hone, (bool_decide_eq_false_2 _ Hvoid).
    cbn [andb negb].
    rewrite (and_then_stop _ _ _ (reject_if_true _ _)).
    cbn [result diagnostics fst snd]. rewrite bind_run.
    cbn [result diagnostics fst snd ret]. by rewrite app_nil_r.
Qed.

(** *** Methods with the same name *)

(** The method loop on a method whose name is not in the table yet. *)
Lemma CheckMethod_fresh (names : gmap string AidlMethod) (m : AidlMethod)
    (ds : list Diagnostic) :
  CheckMethodRules cv typenames m = (Some true, ds) ->
  names !! method_name_ m = None ->
  CheckMethod cv typenames names m =
    if string_in (AidlMethod_Signature m) reserved_methods
    then (Some None, ds ++ [reserved_diagnostic m])
    else (Some (Some (<[method_name_ m := m]> names)), ds).
Proof.
  intros Hrules Hnone. unfold CheckMethod. rewrite Hrules, bind_run, Hnone.
  destruct (string_in _ _).
  - rewrite reject_if_true, bind_run. by cbn [result diagnostics fst snd ret].
  - rewrite reject_if_false, bind_run. cbn [result diagnostics fst snd ret].
    by rewrite !app_nil_r.
Qed.

(** What the method loop prints for one method, beyond the diagnostics of
    the method's own checks. *)
Lemma CheckMethod_diagnostics (names : gmap string AidlMethod) (m : AidlMethod) :
  diagnostics (CheckMethod cv typenames names m) =
    diagnostics (CheckMethodRules cv typenames m) ++
    match result (CheckMethodRules cv typenames m), names !! method_name_ m with
    | Some true, Some previous => redefinition_diagnostics m previous
    | Some true, None =>
        if string_in (AidlMethod_Signature m) reserved_methods
        then [reserved_diagnostic m] else []
    | _, _ => []
    end.
Proof.
  destruct (CheckMethodRules cv typenames m) as [[[]|] ds] eqn:Hrules.
  - destruct (names !! method_name_ m) as [previous|] eqn:Hlookup.
    + unfold CheckMethod. rewrite Hrules, bind_run, Hlookup, !error_then.
      by cbn [result diagnostics fst snd ret].
    + rewrite (CheckMethod_fresh names m ds Hrules Hlookup).
      cbn [result diagnostics fst snd]. destruct (string_in _ _); [done|].
      by rewrite app_nil_r.
  - unfold CheckMethod. rewrite Hrules, bind_run. by cbn [result diagnostics fst snd ret].
  - unfold CheckMethod. rewrite Hrules, bind_fatal. cbn [result diagnostics fst snd].
    by rewrite app_nil_r.
Qed.

(** The method loop over methods with fresh, pairwise distinct names that
    pass their own checks and are not reserved: it runs to its end and adds
    no diagnostic of its own. *)
Lemma method_loop_distinct (l : list AidlMethod) (s : gmap string AidlMethod) :
  NoDup (method_name_ <$> l) ->
  (forall n, n ∈ method_name_ <$> l -> s !! n = None) ->
  Forall (fun m => result (CheckMethodRules cv typenames m) = Some true /\
                   AidlMethod_Signature m ∉ reserved_methods) l ->
  exists names,
    loop_or_return (CheckMethod cv typenames) l s =
      (Some (Some names),
       concat ((fun m => diagnostics (CheckMethodRules cv typenames m)) <$> l)).
Proof.
  revert s. induction l as [|m l IH]; intros s Hnodup Hfresh Hall; [by eexists|].
  rewrite fmap_cons in Hnodup, Hfresh. apply NoDup_cons in Hnodup as [Hm Hnodup].
  apply Forall_cons in Hall as [[Hrules Hreserved] Hall].
  cbn [loop_or_return].
  rewrite (CheckMethod_fresh s m (diagnostics (CheckMethodRules cv typenames m)));
    [|by rewrite (M_eta (CheckMethodRules cv typenames m)), Hrules
     |apply Hfresh; by left].
  unfold string_in. rewrite (bool_decide_eq_false_2 _ Hreserved), bind_run.
  destruct (IH (<[method_name_ m := m]> s)) as [names Hloop]; [done| |done|].
  { intros n Hn. rewrite lookup_insert_ne by (intros <-; exact (Hm Hn)).
    apply Hfresh. by right. }
  exists names. by rewrite Hloop.
Qed.

(** C1, as the code has it. The duplicate test of AidlInterface::CheckValid
    is keyed by the method name alone: an interface with two methods of the
    same name never passes CheckValid, whatever their argument types. When
    validation reaches the later of the two (the checks of the defined type
    pass, the methods before it pass, and its own return type and arguments
    pass), CheckValid returns false after printing "attempt to redefine
    method <name>:" at the later method and "previously defined here." at
    the location of the earlier method of that name. The error is reported
    only then: the table of names holds exactly the names of the methods
    before, the two errors are printed exactly for a method that passes its
    own checks and whose name is in the table, and over methods with
    pairwise distinct names the duplicate test neither stops the loop nor
    prints anything. *)
Theorem same_name_methods_rejected (d : AidlDefinedType) :
  (forall pre m1 mid m2 post,
     methods_ d = pre ++ m1 :: mid ++ m2 :: post ->
     method_name_ m1 = method_name_ m2 ->
     result (AidlInterface_CheckValid cv typenames d) <> Some true) /\
  (forall pre m2 post names m1 ds0 ds1 ds2,
     methods_ d = pre ++ m2 :: post ->
     AidlDefinedType_CheckValid cv typenames d = (Some true, ds0) ->
     loop_or_return (CheckMethod cv typenames) pre ∅ = (Some (Some names), ds1) ->
     CheckMethodRules cv typenames m2 = (Some true, ds2) ->
     names !! method_name_ m2 = Some m1 ->
     (m1 ∈ pre /\ method_name_ m1 = method_name_ m2) /\
     AidlInterface_CheckValid cv typenames d =
       (Some false,
        ds0 ++ ds1 ++ ds2 ++
        [Error (method_location m2)
           ("attempt to redefine method " +:+ method_name_ m2 +:+ ":");
         Error (method_location m1) "previously defined here."])) /\
  (forall pre names,
     result (loop_or_return (CheckMethod cv typenames) pre ∅) = Some (Some names) ->
     forall n, names !! n = None <-> n ∉ method_name_ <$> pre) /\
  (forall names m,
     diagnostics (CheckMethod cv typenames names m) =
       diagnostics (CheckMethodRules cv typenames m) ++
       match result (CheckMethodRules cv typenames m), names !! method_name_ m with
       | Some true, Some previous => redefinition_diagnostics m previous
       | Some true, None =>
           if string_in (AidlMethod_Signature m) reserved_methods
           then [reserved_diagnostic m] else []
       | _, _ => []
       end) /\
  (NoDup (method_name_ <$> methods_ d) ->
   Forall (fun m => result (CheckMethodRules cv typenames m) = Some true /\
                    AidlMethod_Signature m ∉ reserved_methods) (methods_ d) ->
   exists names,
     loop_or_return (CheckMethod cv typenames) (methods_ d) ∅ =
       (Some (Some names),
        concat ((fun m => diagnostics (CheckMethodRules cv typenames m)) <$> methods_ d))).
Proof.
  split; [|split; [|split; [|split]]].
  - intros pre m1 mid m2 post Hmethods Hname.
    apply interface_methods_blocked. rewrite Hmethods.
    replace (pre ++ m1 :: mid ++ m2 :: post) with ((pre ++ m1 :: mid) ++ m2 :: post)
      by (by rewrite <- app_assoc).
    apply (loop_or_return_blocked _ (fun s => is_Some (s !! method_name_ m2))).
    + intros s1 s2 Hloop ->. apply (method_loop_names _ _ _ Hloop).
      right. exists m1. split; [set_solver|done].
    + intros s [previous Hprev] s'' Hm.
      apply CheckMethod_continues in Hm as (_ & Hnone & _). congruence.
  - intros pre m2 post names m1 ds0 ds1 ds2 Hmethods Hdef Hpre Hrules Hprev. split.
    + assert (Hloop : result (loop_or_return (CheckMethod cv typenames) pre ∅)
                      = Some (Some names)) by (by rewrite Hpre).
      destruct (method_loop_names_from _ _ _ Hloop _ _ Hprev) as [Hempty|?]; [|done].
      by rewrite lookup_empty in Hempty.
    + apply (interface_stops_at_method d pre post m2 names ds0 ds1 _ Hmethods Hdef Hpre).
      unfold CheckMethod. rewrite Hrules, bind_run, Hprev, !error_then.
      by cbn [result diagnostics fst snd ret].
  - intros pre names Hloop n. split.
    + intros Hnone Hin. apply list_elem_of_fmap in Hin as (m & -> & Hm).
      destruct (method_loop_names _ _ _ Hloop (method_name_ m)) as [m' Hm'];
        [right; by exists m|]. congruence.
    + intros Hnotin. destruct (names !! n) as [m|] eqn:Hlookup; [|done].
      destruct (method_loop_names_from _ _ _ Hloop _ _ Hlookup) as [Hempty|[Hm <-]].
      * by rewrite lookup_empty in Hempty.
      * destruct Hnotin. apply list_elem_of_fmap. by exists m.
  - apply CheckMethod_diagnostics.
  - intros Hnodup Hall. apply method_loop_distinct; [done| |done].
    intros n _. apply lookup_empty.
Qed.
End Interface.

(** C7, on interface IFoo { oneway int foo(); } and on
    interface IFoo { oneway void foo(out int[] a); }. *)
Lemma oneway_method_rejected_witness :
  AidlInterface_CheckValid Examples.engine Examples.typenames Examples.IFoo_oneway_int =
    (Some false, [Error (Examples.loc 2) "oneway method 'foo' cannot return a value"]) /\
  result (AidlInterface_CheckValid Examples.engine Examples.typenames
            Examples.IFoo_oneway_out) <> Some true.
Proof.
  split.
  - apply (proj2 (proj2 (oneway_method_rejected Examples.engine Examples.typenames
             Examples.IFoo_oneway_int [] [] Examples.oneway_int eq_refl eq_refl))
             ∅ [] [] []); try reflexivity; by vm_compute.
  - apply (proj1 (proj2 (oneway_method_rejected Examples.engine Examples.typenames
             Examples.IFoo_oneway_out [] [] Examples.oneway_out eq_refl eq_refl))
             0 _ eq_refl).
    left. reflexivity.
Defined.

(** C7, as stated, fails. interface IFoo { oneway ParcelableHolder foo(); }
    has a oneway method with a return type other than void; CheckValid
    fails, but its only diagnostic is the ParcelableHolder one, which does
    not name the method. In interface IFoo { oneway int first(); oneway int
    second(); } both methods break the rule; CheckValid stops at the first
    and no diagnostic names the second. *)
Lemma oneway_error_can_be_shadowed :
  (IsOneway Examples.oneway_holder = true /\
   AidlTypeSpecifier_GetName (method_type_ Examples.oneway_holder) <> "void" /\
   AidlInterface_CheckValid Examples.engine Examples.typenames Examples.IFoo_oneway_holder =
     (Some false, [Error (Examples.loc 2) "ParcelableHolder cannot be a return type"]) /\
   forallb (fun diag => negb (contains (method_name_ Examples.oneway_holder) (message diag)))
     (diagnostics (AidlInterface_CheckValid Examples.engine Examples.typenames
                     Examples.IFoo_oneway_holder)) = true) /\
  (IsOneway Examples.oneway_second = true /\
   AidlTypeSpecifier_GetName (method_type_ Examples.oneway_second) <> "void" /\
   AidlInterface_CheckValid Examples.engine Examples.typenames Examples.IFoo_two_oneway =
     (Some false, [Error (Examples.loc 2) "oneway method 'first' cannot return a value"]) /\
   forallb (fun diag => negb (contains (method_name_ Examples.oneway_second) (message diag)))
     (diagnostics (AidlInterface_CheckValid Examples.engine Examples.typenames
                     Examples.IFoo_two_oneway)) = true).
Proof. repeat split; by vm_compute. Qed.

(** C1, on interface IFoo { void foo(int a); void foo(long b); } and on
    interface IFoo { void foo(int a); void bar(long b); }. *)
Lemma same_name_methods_rejected_witness :
  AidlInterface_CheckValid Examples.engine Examples.typenames Examples.IFoo_overloaded =
    (Some false,
     [Error (Examples.loc 3) "attempt to redefine method foo:";
      Error (Examples.loc 2) "previously defined here."]) /\
  result (AidlInterface_CheckValid Examples.engine Examples.typenames
            Examples.IFoo_overloaded) <> Some true /\
  exists names,
    loop_or_return (CheckMethod Examples.engine Examples.typenames)
      (methods_ MoreExamples.IFoo_foo_bar) ∅ = (Some (Some names), []).
Proof.
  split; [|split].
  - apply (proj2 (proj1 (proj2 (same_name_methods_rejected Examples.engine
             Examples.typenames Examples.IFoo_overloaded))
             [Examples.foo_int] Examples.foo_long [] {["foo" := Examples.foo_int]}
             Examples.foo_int [] [] [] eq_refl eq_refl eq_refl eq_refl
             (lookup_singleton_eq "foo" Examples.foo_int))).
  - apply (proj1 (same_name_methods_rejected Examples.engine Examples.typenames
             Examples.IFoo_overloaded)
             [] Examples.foo_int [] Examples.foo_long [] eq_refl eq_refl).
  - apply (proj2 (proj2 (proj2 (proj2 (same_name_methods_rejected Examples.engine
             Examples.typenames MoreExamples.IFoo_foo_bar))))).
    + apply (bool_decide_unpack (NoDup _)). by vm_compute.
    + apply (bool_decide_unpack (Forall _ _)). by vm_compute.
Defined.

(** C1, as stated, fails. foo(int) and foo(long) have different argument
    type lists and different signatures, yet the interface declaring both
    is rejected with the duplicate-method diagnostics. *)
Lemma overloads_are_rejected :
  AidlMethod_Signature Examples.foo_int = "foo(int)" /\
  AidlMethod_Signature Examples.foo_long = "foo(long)" /\
  AidlInterface_CheckValid Examples.engine Examples.typenames Examples.IFoo_overloaded =
    (Some false,
     [Error (Examples.loc 3) "attempt to redefine method foo:";
      Error (Examples.loc 2) "previously defined here."]).
Proof. repeat split. Qed.

(** * Further properties *)

(** ** The schema table and Parse *)

Lemma schema_of_type (t : AidlAnnotation.Type_) : schema_type (schema_of t) = t.
Proof. by destruct t. Qed.

Lemma AidlAnnotation_GetType_type (a : AidlAnnotation) :
  AidlAnnotation_GetType a = annot_type a.
Proof. apply schema_of_type. Qed.

Ltac try_kind name s t :=
  destruct (decide (name = s)) as [->|?]; [left; exists t; by vm_compute|].

(** A name either belongs to exactly one entry of the table, the entry of
    its kind, or to none. *)
Lemma schema_by_name (name : string) :
  (exists t, name = TypeToString t /\
             filter (fun a_schema => schema_name a_schema = name) AllSchemas = [schema_of t]) \/
  ((forall t, TypeToString t <> name) /\
   filter (fun a_schema => schema_name a_schema = name) AllSchemas = []).
Proof.
  try_kind name "nullable" AidlAnnotation.NULLABLE.
  try_kind name "utf8InCpp" AidlAnnotation.UTF8_IN_CPP.
  try_kind name "SensitiveData" AidlAnnotation.SENSITIVE_DATA.
  try_kind name "VintfStability" AidlAnnotation.VINTF_STABILITY.
  try_kind name "UnsupportedAppUsage" AidlAnnotation.UNSUPPORTED_APP_USAGE.
  try_kind name "JavaOnlyStableParcelable" AidlAnnotation.JAVA_STABLE_PARCELABLE.
  try_kind name "Hide" AidlAnnotation.HIDE.
  try_kind name "Backing" AidlAnnotation.BACKING.
  try_kind name "JavaPassthrough" AidlAnnotation.JAVA_PASSTHROUGH.
  try_kind name "JavaDerive" AidlAnnotation.JAVA_DERIVE.
  try_kind name "JavaOnlyImmutable" AidlAnnotation.JAVA_ONLY_IMMUTABLE.
  try_kind name "FixedSize" AidlAnnotation.FIXED_SIZE.
  try_kind name "Descriptor" AidlAnnotation.DESCRIPTOR.
  try_kind name "RustDerive" AidlAnnotation.RUST_DERIVE.
  right. split.
  - intros []; by vm_compute.
  - unfold AllSchemas. repeat (rewrite filter_cons, decide_False by (by simpl)). done.
Qed.

(** X1. Parse and TypeToString are inverse to each other on the schema
    table. Parsing the name of a kind gives an annotation of that kind at
    the given location with the given parameters, without a diagnostic; an
    annotation returned by Parse carries the name that was parsed; and Parse
    returns no annotation, after one error, exactly for the names that
    belong to no kind. *)
Theorem Parse_TypeToString_round_trip (location : AidlLocation)
    (parameter_list : option (list (string * AidlConstantValue))) :
  (forall t,
     AidlAnnotation_Parse location (TypeToString t) parameter_list =
       (Some (Some (mkAnnotation location t (default [] parameter_list))), [])) /\
  (forall name a,
     result (AidlAnnotation_Parse location name parameter_list) = Some (Some a) ->
     AidlAnnotation_GetName a = name /\ annot_location a = location /\
     parameters_ a = default [] parameter_list) /\
  (forall name,
     (forall t, TypeToString t <> name) <->
     exists msg, AidlAnnotation_Parse location name parameter_list =
                   (Some None, [Error location msg])).
Proof.
  split; [|split].
  - intros t. unfold AidlAnnotation_Parse.
    destruct (schema_by_name (TypeToString t)) as [(t' & Heq & ->)|[Hno _]].
    + assert (t' = t) as -> by (by destruct t, t').
      simpl. by rewrite schema_of_type.
    + by destruct (Hno t).
  - intros name a. unfold AidlAnnotation_Parse.
    destruct (schema_by_name name) as [(t & -> & ->)|[_ ->]]; simpl.
    + intros [= <-]. unfold AidlAnnotation_GetName, schema_. simpl.
      by rewrite schema_of_type.
    + done.
  - intros name. unfold AidlAnnotation_Parse.
    destruct (schema_by_name name) as [(t & -> & ->)|[Hno ->]]; simpl.
    + split; [intros H; by destruct (H t)|]. by intros [msg [=]].
    + split; [|done]. intros _. rewrite ?error_then. by eexists.
Qed.

(** ** Rendering of annotation parameters *)

Section AnnotationParams.
Context (cv : ConstantValueEngine).

Lemma CheckValid_true_no_problem (a : AidlAnnotation) :
  result (AidlAnnotation_CheckValid cv a) = Some true ->
  Forall (fun p => parameter_problem cv a p = false) (parameters_ a).
Proof.
  intros H. apply CheckValid_true_parameters in H.
  eapply Forall_impl; [exact H|]. by intros p [? _].
Qed.

Lemma AnnotationParams_run (a : AidlAnnotation) :
  AnnotationParams cv a =
    (Some (rendered cv a <$> filter (fun p => renderable cv a p = true) (parameters_ a)),
     skipped_diagnostic a <$> filter (fun p => renderable cv a p <> true) (parameters_ a)).
Proof.
  unfold AnnotationParams. induction (parameters_ a) as [|[name param] ps IH]; [done|].
  cbn [AnnotationParams_loop].
  destruct (decide (renderable cv a (name, param) = true)) as [Hr|Hr].
  - rewrite filter_cons_True by done. rewrite filter_cons_False by (by intros ?).
    rewrite fmap_cons. unfold rendered at 1. cbn [fst snd].
    unfold renderable in Hr. cbn [fst snd] in Hr.
    apply andb_true_iff in Hr as [Hname Hvalid].
    apply bool_decide_eq_true in Hname as [type Htype].
    rewrite Htype, Hvalid. cbn [negb from_option].
    rewrite IH, bind_run. cbn [result diagnostics fst snd ret]. by rewrite app_nil_r.
  - rewrite filter_cons_False by done. rewrite filter_cons_True by done.
    rewrite fmap_cons. unfold skipped_diagnostic at 1. cbn [fst snd].
    unfold renderable in Hr. cbn [fst snd] in Hr.
    destruct (assoc_find name (supported_parameters (schema_ a))) as [type|].
    + rewrite bool_decide_eq_true_2 in Hr by (by eexists). cbn [andb] in Hr.
      destruct (cv_CheckValid cv param); [done|]. cbn [negb].
      by rewrite error_then, IH.
    + by rewrite error_then, IH.
Qed.

(** X3. AnnotationParams always returns. It renders exactly the supplied
    parameters whose name is in the schema and whose value is valid, in the
    order supplied and each under the type the schema gives it, and prints
    one error, at the annotation, for each of the others, in their order. So
    the rendered names form a sublist of the supplied names, and rendered
    entries and errors together are as many as the supplied parameters. *)
Theorem AnnotationParams_skips_invalid (a : AidlAnnotation) :
  exists raw_params ds,
    AnnotationParams cv a = (Some raw_params, ds) /\
    raw_params =
      rendered cv a <$> filter (fun p => renderable cv a p = true) (parameters_ a) /\
    ds = skipped_diagnostic a <$> filter (fun p => renderable cv a p <> true) (parameters_ a) /\
    sublist (fst <$> raw_params) (fst <$> parameters_ a) /\
    length raw_params + length ds = length (parameters_ a) /\
    Forall (fun d => is_error d = true) ds.
Proof.
  eexists _, _. split; [apply AnnotationParams_run|]. split; [done|]. split; [done|].
  split; [|split].
  - rewrite <- list_fmap_compose.
    replace (fst ∘ rendered cv a) with (fst : string * AidlConstantValue -> string) by done.
    apply fmap_sublist, sublist_filter.
  - rewrite !length_fmap. induction (parameters_ a) as [|p ps IH]; [done|].
    rewrite !filter_cons. destruct (decide (renderable cv a p = true)) as [Hr|Hr].
    + rewrite decide_False by (by intros ?). cbn [length]. lia.
    + rewrite decide_True by done. cbn [length]. lia.
  - apply Forall_fmap, Forall_forall. by intros p _.
Qed.

(** X2. Validation and rendering agree. When CheckValid accepts an
    annotation, AnnotationParams renders every supplied parameter, in order
    and without a diagnostic, and no rendered value is empty. *)
Theorem valid_annotation_renders_completely (a : AidlAnnotation) :
  result (AidlAnnotation_CheckValid cv a) = Some true ->
  exists raw_params,
    AnnotationParams cv a = (Some raw_params, []) /\
    fst <$> raw_params = fst <$> parameters_ a /\
    Forall (fun name_value => snd name_value <> "") raw_params.
Proof.
  intros Hvalid. apply CheckValid_true_no_problem in Hvalid.
  unfold AnnotationParams. induction Hvalid as [|[name param] ps Hp _ IH]; simpl.
  - by exists [].
  - destruct IH as (raw & Heq & Hnames & Hvalues).
    unfold parameter_problem in Hp. cbn [fst snd] in Hp.
    destruct (assoc_find name (supported_parameters (schema_ a))) as [type|]; [|done].
    apply orb_false_iff in Hp as [Hp Hempty]. apply orb_false_iff in Hp as [_ Hcheck].
    apply negb_false_iff in Hcheck. rewrite Hcheck. simpl.
    rewrite Heq, bind_run. simpl. eexists. split; [done|]. simpl. split.
    + by f_equal.
    + constructor; [|done]. simpl. by apply bool_decide_eq_false in Hempty.
Qed.
End AnnotationParams.

(** X1, on the name Backing. *)
Lemma Parse_TypeToString_round_trip_witness :
  AidlAnnotation_GetName Examples.Backing_strange = "Backing" /\
  annot_location Examples.Backing_strange = Examples.loc 12 /\
  parameters_ Examples.Backing_strange = [("type", Literal (Examples.loc 12) "strange")].
Proof.
  apply (proj1 (proj2 (Parse_TypeToString_round_trip (Examples.loc 12)
                         (Some [("type", Literal (Examples.loc 12) "strange")])))
           "Backing" Examples.Backing_strange).
  reflexivity.
Defined.

(** X2, on @Backing(type="strange"). *)
Lemma valid_annotation_renders_completely_witness :
  exists raw_params,
    AnnotationParams Examples.engine Examples.Backing_strange = (Some raw_params, []) /\
    fst <$> raw_params = ["type"] /\
    Forall (fun name_value => snd name_value <> "") raw_params.
Proof.
  apply (valid_annotation_renders_completely Examples.engine Examples.Backing_strange).
  reflexivity.
Defined.

(** ** Single and repeatable annotations *)



(** ** AidlAnnotatable::CheckValid *)

Lemma assoc_find_is_Some {K V} `{EqDecision K} (k : K) (l : list (K * V)) :
  is_Some (assoc_find k l) <-> k ∈ (fst <$> l).
Proof.
  unfold assoc_find. split.
  - intros [v Hv]. destruct (list_find _ l) as [[i kv]|] eqn:Hfind; [|done].
    apply list_find_Some in Hfind as (Hi & <- & _).
    apply list_elem_of_fmap. exists kv. split; [done|]. by eapply list_elem_of_lookup_2.
  - intros Hin. apply list_elem_of_fmap in Hin as (kv & -> & Hin).
    destruct (list_find (fun kv' => fst kv' = fst kv) l) as [[i kv']|] eqn:Hfind; [by eexists|].
    apply list_find_None in Hfind. rewrite Forall_forall in Hfind. by destruct (Hfind kv Hin).
Qed.

Section AnnotatableCheckValid.
Context (cv : ConstantValueEngine).

Lemma tidy_pass : tidy (Some true, []).
Proof. split; [done|]. by intros [=]. Qed.

Lemma tidy_reject_if (c : bool) (loc : AidlLocation) (msg : string) :
  tidy (reject_if c loc msg).
Proof. destruct c; split; intros H; try done. by eexists _, _. Qed.

Lemma tidy_and_then (m k : M bool) : tidy m -> tidy k -> tidy (m >>? k).
Proof.
  intros [Hm1 Hm2] [Hk1 Hk2]. destruct m as [[[]|] ds]; simpl in *.
  - rewrite (and_then_run _ _ ds eq_refl). rewrite (Hm1 eq_refl). simpl.
    split; intros H; auto.
  - rewrite (and_then_stop _ _ ds eq_refl). split; [done|]. intros _. by apply Hm2.
  - split; intros H; by unfold and_then in H.
Qed.

Lemma tidy_all_or_return {A} (body : A -> M bool) (l : list A) :
  (forall x, tidy (body x)) -> tidy (all_or_return body l).
Proof.
  intros Hbody. induction l as [|x l IH]; [apply tidy_pass|].
  change (all_or_return body (x :: l)) with (body x >>? all_or_return body l).
  by apply tidy_and_then.
Qed.

Lemma tidy_CheckParameter (a : AidlAnnotation) (p : string * AidlConstantValue) :
  tidy (CheckParameter cv a p).
Proof.
  unfold CheckParameter.
  destruct (assoc_find _ _) as [type|];
    [|rewrite error_then; split; [done|]; intros _; by eexists _, _].
  cbn zeta. destruct (found _) as [|loc value|].
  - destruct (negb _); [rewrite error_then; split; [done|]; intros _; by eexists _, _|].
    case_bool_decide; [rewrite error_then; split; [done|]; intros _; by eexists _, _|].
    apply tidy_pass.
  - rewrite error_then. split; [done|]. intros _. by eexists _, _.
  - by split.
Qed.

(** The schemas of the table have at most one required parameter, so a
    rejected annotation comes with exactly one diagnostic. *)
Lemma tidy_AidlAnnotation_CheckValid (a : AidlAnnotation) :
  tidy (AidlAnnotation_CheckValid cv a).
Proof.
  split.
  - intros H. by rewrite (AidlAnnotation_CheckValid_true cv a H).
  - intros H. unfold AidlAnnotation_CheckValid in *.
    pose proof (tidy_all_or_return (CheckParameter cv a) (parameters_ a)
                  (tidy_CheckParameter a)) as [Htrue Hfalse].
    destruct (all_or_return (CheckParameter cv a) (parameters_ a)) as [[[]|] ds].
    + assert (ds = []) as -> by exact (Htrue eq_refl). rewrite bind_silent in H |- *.
      rewrite CheckRequired_run in H |- *. cbn [result diagnostics fst snd andb] in *.
      injection H as H. apply bool_decide_eq_false in H.
      unfold schema_ in *.
      destruct (annot_type a); simpl in *; try done;
        rewrite filter_cons in *; case_decide; simpl in *; try done;
        by eexists _, _.
    + destruct (Hfalse eq_refl) as (loc & msg & Hds). cbn [diagnostics snd] in Hds.
      rewrite bind_run. cbn [result diagnostics fst snd ret]. rewrite app_nil_r.
      by exists loc, msg.
    + by rewrite bind_fatal in H.
Qed.

Lemma tidy_CheckAnnotation (loc : AidlLocation) (supported : list AidlAnnotation.Type_)
    (a : AidlAnnotation) :
  tidy (CheckAnnotation cv loc supported a).
Proof.
  unfold CheckAnnotation. destruct (negb _).
  - rewrite error_then. split; [done|]. intros _. by eexists _, _.
  - apply tidy_AidlAnnotation_CheckValid.
Qed.

(** The loop over repeated annotations: it runs to its end exactly when no
    kind that may not be repeated occurs twice, and it fails with one
    error. *)
Lemma CheckRepeated_loop (loc : AidlLocation) (l : list AidlAnnotation)
    (declared : list (AidlAnnotation.Type_ * AidlLocation)) :
  (NoDup (non_repeatable_kinds l) /\
   (forall t, t ∈ non_repeatable_kinds l -> t ∉ (fst <$> declared)) ->
   exists declared', loop_or_return (CheckRepeated loc) l declared = (Some (Some declared'), []))
  /\
  (~ (NoDup (non_repeatable_kinds l) /\
      (forall t, t ∈ non_repeatable_kinds l -> t ∉ (fst <$> declared))) ->
   exists msg, loop_or_return (CheckRepeated loc) l declared = (Some None, [Error loc msg])).
Proof.
  revert declared. induction l as [|a l IH]; intros declared.
  { split; [by eexists|]. intros H. destruct H. split; [constructor|].
    intros t Ht. by apply elem_of_nil in Ht. }
  cbn [loop_or_return]. unfold CheckRepeated at 1 3.
  rewrite AidlAnnotation_GetType_type.
  unfold non_repeatable_kinds.
  assert (Hcases : (AidlAnnotation_Repeatable a = false /\
                    filter (fun a => AidlAnnotation_Repeatable a = false) (a :: l) =
                      a :: filter (fun a => AidlAnnotation_Repeatable a = false) l) \/
                   (AidlAnnotation_Repeatable a = true /\
                    filter (fun a => AidlAnnotation_Repeatable a = false) (a :: l) =
                      filter (fun a => AidlAnnotation_Repeatable a = false) l)).
  { destruct (AidlAnnotation_Repeatable a) eqn:Hrep.
    - right. split; [done|]. apply filter_cons_False. by rewrite Hrep.
    - left. split; [done|]. by apply filter_cons_True. }
  destruct (assoc_find (annot_type a) declared) as [previous|] eqn:Hfind.
  - assert (Hin : annot_type a ∈ (fst <$> declared))
      by (apply assoc_find_is_Some; by rewrite Hfind).
    destruct Hcases as [[Hrep ->]|[Hrep ->]]; rewrite Hrep; cbn [negb].
    + rewrite error_then. cbn [result diagnostics fst snd ret]. split.
      * intros [_ Hfresh]. destruct (Hfresh (annot_type a)); [|done].
        rewrite fmap_cons. by left.
      * intros _. by eexists.
    + rewrite bind_ret_l. apply IH.
  - assert (Hnot : annot_type a ∉ (fst <$> declared)).
    { intros Hin. apply assoc_find_is_Some in Hin. rewrite Hfind in Hin. by destruct Hin. }
    rewrite bind_ret_l.
    destruct (IH (declared ++ [(annot_type a, annot_location a)])) as [IHok IHbad].
    assert (Hkeys : forall t, t ∈ (fst <$> declared ++ [(annot_type a, annot_location a)])
                              <-> t ∈ (fst <$> declared) \/ t = annot_type a).
    { intros t. rewrite fmap_app, elem_of_app. simpl. by rewrite list_elem_of_singleton. }
    destruct Hcases as [[Hrep ->]|[Hrep ->]].
    + rewrite fmap_cons. split.
      * intros [Hnodup Hfresh]. apply NoDup_cons in Hnodup as [Hhead Hnodup].
        apply IHok. split; [done|].
        intros t Ht Hin. apply Hkeys in Hin as [Hin| ->]; [|done].
        apply (Hfresh t); [by right|done].
      * intros Hbad. apply IHbad. intros [Hnodup Hfresh]. apply Hbad. split.
        -- apply NoDup_cons. split; [|done].
           intros Hin. apply (Hfresh _ Hin). apply Hkeys. by right.
        -- intros t Ht Hin. apply elem_of_cons in Ht as [->|Ht]; [done|].
           apply (Hfresh t Ht). apply Hkeys. by left.
    + assert (Hother : forall t,
                t ∈ annot_type <$> filter (fun a => AidlAnnotation_Repeatable a = false) l ->
                t <> annot_type a).
      { intros t Ht ->.
        apply list_elem_of_fmap in Ht as (b & Hb & Hbin).
        apply list_elem_of_filter in Hbin as [Hbrep _].
        unfold AidlAnnotation_Repeatable, schema_ in *. congruence. }
      split.
      * intros [Hnodup Hfresh]. apply IHok. split; [done|].
        intros t Ht Hin. apply Hkeys in Hin as [Hin| ->]; [by apply (Hfresh t)|].
        by apply (Hother _ Ht).
      * intros Hbad. apply IHbad. intros [Hnodup Hfresh]. apply Hbad. split; [done|].
        intros t Ht Hin. apply (Hfresh t Ht). apply Hkeys. by left.
Qed.

Lemma all_or_return_returns {A} (body : A -> M bool) (l : list A) :
  Forall (fun x => is_Some (result (body x))) l ->
  is_Some (result (all_or_return body l)).
Proof.
  induction 1 as [|x l [b Hx] _ IH]; [by eexists|].
  cbn [all_or_return]. rewrite (bind_result _ _ _ Hx). by destruct b; [|eexists].
Qed.

(** AidlAnnotation::CheckValid returns when each of its finders starts at
    null. *)
Lemma AidlAnnotation_CheckValid_returns (a : AidlAnnotation) :
  Forall (fun p => cv_found_before_Accept cv a (fst p) = nullptr) (parameters_ a) ->
  is_Some (result (AidlAnnotation_CheckValid cv a)).
Proof.
  intros Hfound. unfold AidlAnnotation_CheckValid.
  destruct (all_or_return_returns (CheckParameter cv a) (parameters_ a)) as [ok Hok].
  { eapply Forall_impl; [exact Hfound|]. intros p Hp. cbn beta in Hp.
    destruct (CheckParameter_cases cv a p) as [[_ Hq]|[_ [d Hq]]]; [by right|..];
      rewrite Hq; by eexists. }
  rewrite (bind_result _ _ _ Hok). destruct ok; [|by eexists].
  rewrite CheckRequired_run. by eexists.
Qed.

Lemma AidlAnnotatable_CheckValid_cases (loc : AidlLocation)
    (supported_annotations : list AidlAnnotation.Type_) (annotations : list AidlAnnotation) :
  (Forall (fun a => Forall (fun p => cv_found_before_Accept cv a (fst p) = nullptr)
                      (parameters_ a)) annotations ->
   exists b ds,
     AidlAnnotatable_CheckValid cv loc supported_annotations annotations = (Some b, ds)) /\
  (result (AidlAnnotatable_CheckValid cv loc supported_annotations annotations) = Some true <->
   Forall (fun a => annot_type a ∈ supported_annotations /\
                    result (AidlAnnotation_CheckValid cv a) = Some true) annotations /\
   NoDup (non_repeatable_kinds annotations)) /\
  tidy (AidlAnnotatable_CheckValid cv loc supported_annotations annotations).
Proof.
  assert (Hbody : forall a,
            result (CheckAnnotation cv loc supported_annotations a) = Some true <->
            annot_type a ∈ supported_annotations /\
            result (AidlAnnotation_CheckValid cv a) = Some true).
  { intros a. unfold CheckAnnotation. rewrite AidlAnnotation_GetType_type.
    destruct (decide (annot_type a ∈ supported_annotations)) as [Hin|Hin].
    - rewrite (bool_decide_eq_true_2 _ Hin). simpl. tauto.
    - rewrite (bool_decide_eq_false_2 _ Hin). simpl. rewrite ?error_then. simpl.
      split; [done|]. by intros [? _]. }
  assert (Hreturns :
            Forall (fun a => Forall (fun p => cv_found_before_Accept cv a (fst p) = nullptr)
                              (parameters_ a)) annotations ->
            is_Some (result (all_or_return (CheckAnnotation cv loc supported_annotations)
                               annotations))).
  { intros Hfound. apply all_or_return_returns.
    eapply Forall_impl; [exact Hfound|]. intros a Ha. unfold CheckAnnotation.
    destruct (negb _); [rewrite error_then; by eexists|].
    by apply AidlAnnotation_CheckValid_returns. }
  assert (Htidy := tidy_all_or_return (CheckAnnotation cv loc supported_annotations)
                     annotations (tidy_CheckAnnotation loc supported_annotations)).
  assert (Hall_true :
            Forall (fun a => annot_type a ∈ supported_annotations /\
                             result (AidlAnnotation_CheckValid cv a) = Some true)
              annotations ->
            result (all_or_return (CheckAnnotation cv loc supported_annotations) annotations)
              = Some true).
  { intros Hall. rewrite all_or_return_true_run; [done|].
    eapply Forall_impl; [exact Hall|]. intros a Ha. by apply Hbody. }
  destruct (CheckRepeated_loop loc annotations []) as [Hok Hbad].
  unfold AidlAnnotatable_CheckValid.
  destruct (all_or_return (CheckAnnotation cv loc supported_annotations) annotations)
    as [[[]|] ds] eqn:Hloop.
  - assert (ds = []) as -> by exact (proj1 Htidy eq_refl).
    assert (Hall : Forall (fun a => annot_type a ∈ supported_annotations /\
                             result (AidlAnnotation_CheckValid cv a) = Some true)
                     annotations).
    { pose proof (all_or_return_true (CheckAnnotation cv loc supported_annotations)
                    annotations) as Htrue.
      rewrite Hloop in Htrue. specialize (Htrue eq_refl).
      eapply Forall_impl; [exact Htrue|]. intros a Ha. by apply Hbody. }
    rewrite bind_run. simpl.
    destruct (decide (NoDup (non_repeatable_kinds annotations))) as [Hnodup|Hdup].
    + destruct Hok as [declared' ->].
      { split; [done|]. intros t _ Hin. by apply elem_of_nil in Hin. }
      rewrite bind_run. cbn [result diagnostics fst snd ret app].
      rewrite bool_decide_eq_true_2 by (by eexists).
      split; [by eexists _, _|]. split; [done|]. apply tidy_pass.
    + destruct Hbad as [msg ->]; [by intros [? _]|].
      rewrite bind_run. cbn [result diagnostics fst snd ret app].
      rewrite bool_decide_eq_false_2 by (by intros [? ?]).
      split; [by eexists _, _|]. split.
      * split; [done|]. by intros [_ ?].
      * split; [done|]. intros _. by eexists _, _.
  - rewrite bind_run. simpl. split; [by eexists _, _|]. split.
    + split; [done|]. intros [Hall' _]. by apply Hall_true in Hall'.
    + split; [done|]. intros _. rewrite app_nil_r. by apply (proj2 Htidy).
  - rewrite bind_fatal. split; [|split].
    + intros Hfound. by destruct (Hreturns Hfound).
    + split; [done|]. intros [Hall' _]. by apply Hall_true in Hall'.
    + by split.
Qed.

(** X5. AidlAnnotatable::CheckValid returns true exactly when every
    annotation is of a supported kind and passes its own CheckValid, and no
    kind that may not be repeated occurs twice; repeated JavaPassthrough
    annotations are accepted. It prints nothing when it returns true and
    exactly one error when it returns false. It returns whenever the
    finders built for the parameters of its annotations start at null. *)
Theorem AidlAnnotatable_CheckValid_iff (loc : AidlLocation)
    (supported_annotations : list AidlAnnotation.Type_) (annotations : list AidlAnnotation) :
  (Forall (fun a => Forall (fun p => cv_found_before_Accept cv a (fst p) = nullptr)
                      (parameters_ a)) annotations ->
   exists b ds,
     AidlAnnotatable_CheckValid cv loc supported_annotations annotations = (Some b, ds)) /\
  (result (AidlAnnotatable_CheckValid cv loc supported_annotations annotations) = Some true <->
   Forall (fun a => annot_type a ∈ supported_annotations /\
                    result (AidlAnnotation_CheckValid cv a) = Some true) annotations /\
   NoDup (non_repeatable_kinds annotations)) /\
  tidy (AidlAnnotatable_CheckValid cv loc supported_annotations annotations).
Proof. exact (AidlAnnotatable_CheckValid_cases loc supported_annotations annotations). Qed.
End AnnotatableCheckValid.

(** X5, on @JavaPassthrough @Hide @JavaPassthrough for a type specifier. *)
Lemma AidlAnnotatable_CheckValid_iff_witness :
  result (AidlAnnotatable_CheckValid Examples.engine (Examples.loc 5)
            AidlTypeSpecifier_GetSupportedAnnotations MoreExamples.two_passthrough) = Some true /\
  exists b ds,
    AidlAnnotatable_CheckValid Examples.engine (Examples.loc 5)
      AidlTypeSpecifier_GetSupportedAnnotations MoreExamples.two_passthrough = (Some b, ds).
Proof.
  split.
  - apply (proj1 (proj2 (AidlAnnotatable_CheckValid_iff Examples.engine (Examples.loc 5)
                           AidlTypeSpecifier_GetSupportedAnnotations
                           MoreExamples.two_passthrough))).
    split.
    + repeat constructor; by vm_compute; set_solver.
    + apply (bool_decide_unpack (NoDup _)). by vm_compute.
  - apply (proj1 (AidlAnnotatable_CheckValid_iff Examples.engine (Examples.loc 5)
                    AidlTypeSpecifier_GetSupportedAnnotations
                    MoreExamples.two_passthrough)).
    repeat constructor.
Defined.

(** ** Rendering of annotation lists *)





Section AnnotatableToString.
Context (cv : ConstantValueEngine).



End AnnotatableToString.


(** ** Array bases *)

(** X7. ArrayBase is defined exactly on array specifiers without type
    parameters; on every other specifier it ends in a fatal assertion. The
    base it returns is not an array, keeps the name, the annotations and the
    resolution state, and the signature of the array is the signature of
    its base followed by "[]". *)
Theorem ArrayBase_of_array (t : AidlTypeSpecifier) :
  (is_array_ t = true -> IsGeneric t = false ->
   exists base,
     ArrayBase t = (Some base, []) /\
     IsArray base = false /\
     AidlTypeSpecifier_GetName base = AidlTypeSpecifier_GetName t /\
     ts_annotations base = ts_annotations t /\
     IsResolved base = IsResolved t /\
     AidlTypeSpecifier_Signature t = AidlTypeSpecifier_Signature base +:+ "[]") /\
  (is_array_ t = false \/ IsGeneric t = true -> ArrayBase t = (None, [])).
Proof.
  unfold ArrayBase. split.
  - intros Harr Hgen. rewrite Harr, Hgen. simpl. eexists. split; [done|].
    repeat split.
    destruct t as [l an un fq arr tp co dt]. simpl in *. subst arr.
    unfold IsGeneric in Hgen. simpl in Hgen.
    destruct tp; [by rewrite bool_decide_eq_true_2 in Hgen by (by eexists)|].
    done.
  - intros [Harr|Hgen].
    + by rewrite Harr.
    + rewrite Hgen. by destruct (is_array_ t).
Qed.

(** X7, on @nullable String[]. *)
Lemma ArrayBase_of_array_witness :
  exists base,
    ArrayBase MoreExamples.nullable_String_array = (Some base, []) /\
    IsArray base = false /\
    AidlTypeSpecifier_GetName base = "java.lang.String" /\
    ts_annotations base = [MoreExamples.nullable] /\
    IsResolved base = true /\
    AidlTypeSpecifier_Signature MoreExamples.nullable_String_array =
      AidlTypeSpecifier_Signature base +:+ "[]".
Proof.
  apply (proj1 (ArrayBase_of_array MoreExamples.nullable_String_array)); reflexivity.
Defined.

(** ** Diagnostics of AidlTypeSpecifier::CheckValid *)

Section TypeSpecifierTidy.
Context (cv : ConstantValueEngine) (typenames : AidlTypenames).

Lemma tidy_error (loc : AidlLocation) (msg : string) :
  tidy (AIDL_ERROR loc msg ;;; ret false).
Proof. rewrite error_then. split; [done|]. intros _. by eexists _, _. Qed.

Lemma tidy_fatal : tidy AIDL_FATAL.
Proof. by split. Qed.

Lemma tidy_CheckGeneric (t : AidlTypeSpecifier) : tidy (CheckGeneric typenames t).
Proof.
  unfold CheckGeneric, CheckGenericList, CheckGenericMap.
  apply tidy_and_then.
  { destruct (_ || _); [apply tidy_reject_if|apply tidy_pass]. }
  repeat case_bool_decide;
    repeat first
      [ apply tidy_and_then | apply tidy_reject_if | apply tidy_pass | apply tidy_error
      | apply tidy_fatal
      | match goal with |- tidy (match ?x with _ => _ end) => destruct x end ].
Qed.

Lemma tidy_CheckSpecifierRules (t : AidlTypeSpecifier) :
  tidy (CheckSpecifierRules typenames t).
Proof.
  unfold CheckSpecifierRules.
  repeat first
    [ apply tidy_and_then | apply tidy_reject_if | apply tidy_pass
    | match goal with |- tidy (if ?x then _ else _) => destruct x end ].
Qed.

(** X8. AidlTypeSpecifier::CheckValid reports a rejected specifier once:
    when it returns false it has printed exactly one error, and when it
    returns true it has printed nothing. *)
Theorem AidlTypeSpecifier_CheckValid_one_error (t : AidlTypeSpecifier) :
  (result (AidlTypeSpecifier_CheckValid cv typenames t) = Some true ->
   diagnostics (AidlTypeSpecifier_CheckValid cv typenames t) = []) /\
  (result (AidlTypeSpecifier_CheckValid cv typenames t) = Some false ->
   exists loc msg,
     diagnostics (AidlTypeSpecifier_CheckValid cv typenames t) = [Error loc msg]).
Proof.
  change (tidy (AidlTypeSpecifier_CheckValid cv typenames t)).
  unfold AidlTypeSpecifier_CheckValid.
  apply tidy_and_then; [apply AidlAnnotatable_CheckValid_cases|].
  apply tidy_and_then; [|apply tidy_CheckSpecifierRules].
  destruct (IsGeneric t); [apply tidy_CheckGeneric|apply tidy_pass].
Qed.
End TypeSpecifierTidy.

(** X8, on @utf8InCpp List<IBinder> and on List<IBinder>. *)
Lemma AidlTypeSpecifier_CheckValid_one_error_witness :
  (exists loc msg,
     diagnostics (AidlTypeSpecifier_CheckValid Examples.engine Examples.typenames
                    Examples.utf8_List_IBinder) = [Error loc msg]) /\
  diagnostics (AidlTypeSpecifier_CheckValid Examples.engine Examples.typenames
                 Examples.List_IBinder) = [].
Proof.
  split.
  - apply (proj2 (AidlTypeSpecifier_CheckValid_one_error Examples.engine Examples.typenames
                    Examples.utf8_List_IBinder)).
    reflexivity.
  - apply (proj1 (AidlTypeSpecifier_CheckValid_one_error Examples.engine Examples.typenames
                    Examples.List_IBinder)).
    reflexivity.
Defined.

(** ** Type parameters of Map and of user-defined generic types *)

Lemma and_then_result (m k : M bool) :
  result (m >>? k) =
    match result m with
    | Some true => result k
    | other => other
    end.
Proof. destruct m as [[[]|] ds]; unfold and_then; by rewrite ?bind_run, ?bind_fatal. Qed.

Lemma reject_if_and_then (c : bool) (loc : AidlLocation) (msg : string) (k : M bool) :
  result (reject_if c loc msg >>? k) = if c then Some false else result k.
Proof. rewrite and_then_result, reject_if_result. by destruct c. Qed.

Ltac specifier_cases typenames t :=
  destruct (IsArray t), (IsNullable (ts_annotations t)),
    (from_option AsInterface false _), (IsPrimitiveTypename typenames _),
    (from_option AsEnumDeclaration false _);
  cbn [negb andb orb];
  rewrite ?reject_if_result; cbn [result fst ret negb];
  rewrite ?and_then_result, ?reject_if_and_then, ?reject_if_result;
  cbn [result fst ret negb];
  (eexists; split; [done|]); intuition congruence.

Section GenericRules.
Context (typenames : AidlTypenames).

(** X9. A generic specifier named Map passes the type-parameter check
    exactly when none of its parameters is an enum or a primitive and it has
    either no parameters or two of which the first is named String. The
    value type is not looked at any further, and the check always returns. *)
Theorem Map_type_parameters (t : AidlTypeSpecifier) :
  AidlTypeSpecifier_GetName t = "Map" ->
  exists b, result (CheckGeneric typenames t) = Some b /\
    (b = true <->
     existsb (primitive_parameter typenames) (GetTypeParameters t) = false /\
     (GetTypeParameters t = [] \/
      exists key value, GetTypeParameters t = [key; value] /\
                        AidlTypeSpecifier_GetName key = "String")).
Proof.
  intros Hname. unfold CheckGeneric, CheckGenericMap. rewrite Hname.
  rewrite (bool_decide_eq_false_2 ("Map" = "List")) by done.
  rewrite (bool_decide_eq_true_2 ("Map" = "Map") eq_refl). cbn [orb].
  rewrite reject_if_and_then.
  change (existsb _ (GetTypeParameters t))
    with (existsb (primitive_parameter typenames) (GetTypeParameters t)).
  destruct (existsb _ _); [exists false; naive_solver|].
  rewrite reject_if_and_then.
  destruct (GetTypeParameters t) as [|key [|value [|third rest]]]; cbn [length].
  - exists true. naive_solver.
  - exists false. naive_solver.
  - rewrite (bool_decide_eq_false_2 (2 = 0)), (bool_decide_eq_true_2 (2 = 2)) by done.
    cbn [negb andb]. rewrite reject_if_result.
    eexists. split; [done|]. case_bool_decide; naive_solver.
  - exists false.
    rewrite (bool_decide_eq_false_2 (S (S (S (length rest))) = 0)) by done.
    rewrite (bool_decide_eq_false_2 (S (S (S (length rest))) = 2)) by done.
    naive_solver.
Qed.

(** X10. A generic specifier named neither List nor Map passes the
    type-parameter check exactly when its name is that of a declared
    parcelable with type parameters and it supplies as many parameters as the
    declaration has; enum and primitive parameters are not refused here. *)
Theorem user_defined_generic_arity (t : AidlTypeSpecifier) :
  AidlTypeSpecifier_GetName t <> "List" ->
  AidlTypeSpecifier_GetName t <> "Map" ->
  exists b, result (CheckGeneric typenames t) = Some b /\
    (b = true <->
     exists d params,
       TryGetDefinedType typenames (AidlTypeSpecifier_GetName t) = Some d /\
       AsParameterizable d = Some (Some params) /\
       length (GetTypeParameters t) = length params).
Proof.
  intros HList HMap. unfold CheckGeneric.
  rewrite (bool_decide_eq_false_2 _ HList), (bool_decide_eq_false_2 _ HMap). cbn [orb].
  rewrite pass_and_then.
  destruct (TryGetDefinedType typenames (AidlTypeSpecifier_GetName t)) as [d|];
    cbn [mbind option_bind].
  - destruct (AsParameterizable d) as [[params|]|] eqn:Hd; unfold default; cbn [from_option id].
    + rewrite reject_if_result. eexists. split; [done|].
      destruct (decide (length (GetTypeParameters t) = length params)) as [Hlen|Hlen].
      * rewrite (bool_decide_eq_true_2 _ Hlen). naive_solver.
      * rewrite (bool_decide_eq_false_2 _ Hlen). naive_solver.
    + exists false. rewrite error_then. naive_solver.
    + exists false. rewrite error_then. naive_solver.
  - exists false. rewrite error_then. naive_solver.
Qed.

(** X11. Once the annotation check and the type-parameter check have
    passed, AidlTypeSpecifier::CheckValid returns, and returns true exactly
    when: utf8InCpp sits on String or List<String> only; void is neither an
    array nor nullable; an array is neither of an interface nor of
    ParcelableHolder; a nullable specifier is not ParcelableHolder and, unless
    an array, neither a primitive nor an enum. *)
Theorem AidlTypeSpecifier_CheckValid_rules (cv : ConstantValueEngine) (t : AidlTypeSpecifier) :
  result (AidlAnnotatable_CheckValid cv (ts_location t)
            AidlTypeSpecifier_GetSupportedAnnotations (ts_annotations t)) = Some true ->
  (IsGeneric t = true -> result (CheckGeneric typenames t) = Some true) ->
  exists b, result (AidlTypeSpecifier_CheckValid cv typenames t) = Some b /\
            (b = true <-> specifier_rules typenames t).
Proof.
  intros Hannot Hgen. unfold AidlTypeSpecifier_CheckValid.
  rewrite and_then_result, Hannot, and_then_result.
  assert (result (if IsGeneric t then CheckGeneric typenames t else ret true) = Some true)
    as -> by (destruct (IsGeneric t); [by apply Hgen|done]).
  unfold CheckSpecifierRules, specifier_rules.
  cbn zeta. rewrite reject_if_and_then.
  destruct (IsUtf8InCpp (ts_annotations t)); cbn [andb].
  - destruct (decide (AidlTypeSpecifier_GetName t = "String")) as [HString|HString].
    + assert (AidlTypeSpecifier_GetName t <> "void") as Hvoid by (by rewrite HString).
      assert (AidlTypeSpecifier_GetName t <> "ParcelableHolder") as Hholder
        by (by rewrite HString).
      rewrite (bool_decide_eq_true_2 _ HString), (bool_decide_eq_false_2 _ Hvoid),
        (bool_decide_eq_false_2 _ Hholder).
      cbn [negb andb]. rewrite pass_and_then, and_then_result.
      specifier_cases typenames t.
    + rewrite (bool_decide_eq_false_2 _ HString). cbn [negb andb].
      destruct (is_generic_string_list t) eqn:Hlist; cbn [negb].
      * assert (AidlTypeSpecifier_GetName t = "List") as HList.
        { unfold is_generic_string_list in Hlist. by case_bool_decide. }
        assert (AidlTypeSpecifier_GetName t <> "void") as Hvoid by (by rewrite HList).
        assert (AidlTypeSpecifier_GetName t <> "ParcelableHolder") as Hholder
          by (by rewrite HList).
        rewrite (bool_decide_eq_false_2 _ Hvoid), (bool_decide_eq_false_2 _ Hholder).
        rewrite pass_and_then, and_then_result.
        specifier_cases typenames t.
      * exists false. naive_solver.
  - rewrite and_then_result.
    destruct (decide (AidlTypeSpecifier_GetName t = "void")) as [Hvoid|Hvoid].
    + assert (AidlTypeSpecifier_GetName t <> "ParcelableHolder") as Hholder
        by (by rewrite Hvoid).
      rewrite (bool_decide_eq_true_2 _ Hvoid), (bool_decide_eq_false_2 _ Hholder).
      rewrite orb_false_r.
      specifier_cases typenames t.
    + rewrite (bool_decide_eq_false_2 _ Hvoid). cbn [result fst ret].
      rewrite and_then_result.
      destruct (decide (AidlTypeSpecifier_GetName t = "ParcelableHolder")) as [Hholder|Hholder].
      * rewrite (bool_decide_eq_true_2 _ Hholder). specifier_cases typenames t.
      * rewrite (bool_decide_eq_false_2 _ Hholder). specifier_cases typenames t.
Qed.
End GenericRules.

(** X9, on Map<String, IBinder>. *)
Lemma Map_type_parameters_witness :
  exists b,
    result (CheckGeneric Examples.typenames
              (MoreExamples.Map_of [Examples.resolved "String"; Examples.resolved "IBinder"]))
      = Some b /\
    (b = true <->
     existsb (primitive_parameter Examples.typenames)
       [Examples.resolved "String"; Examples.resolved "IBinder"] = false /\
     ([Examples.resolved "String"; Examples.resolved "IBinder"] = [] \/
      exists key value,
        [Examples.resolved "String"; Examples.resolved "IBinder"] = [key; value] /\
        AidlTypeSpecifier_GetName key = "String")).
Proof.
  apply (Map_type_parameters Examples.typenames
           (MoreExamples.Map_of [Examples.resolved "String"; Examples.resolved "IBinder"])).
  reflexivity.
Defined.

(** X10, on Box<int> over a table that declares parcelable Box<T>. *)
Lemma user_defined_generic_arity_witness :
  exists b,
    result (CheckGeneric MoreExamples.typenames_with_Box
              (MoreExamples.Box_of [Examples.resolved "int"])) = Some b /\
    (b = true <->
     exists d params,
       TryGetDefinedType MoreExamples.typenames_with_Box "Box" = Some d /\
       AsParameterizable d = Some (Some params) /\
       1 = length params).
Proof.
  apply (user_defined_generic_arity MoreExamples.typenames_with_Box
           (MoreExamples.Box_of [Examples.resolved "int"])); by vm_compute.
Defined.

(** X11, on @nullable int[]. *)
Lemma AidlTypeSpecifier_CheckValid_rules_witness :
  exists b,
    result (AidlTypeSpecifier_CheckValid Examples.engine Examples.typenames
              MoreExamples.nullable_int_array) = Some b /\
    (b = true <-> specifier_rules Examples.typenames MoreExamples.nullable_int_array).
Proof.
  apply (AidlTypeSpecifier_CheckValid_rules Examples.typenames Examples.engine
           MoreExamples.nullable_int_array); [reflexivity|].
  intros H. by vm_compute in H.
Defined.

(** ** Loops that accumulate a success flag *)

Lemma forallb_Forall {A} (p : A -> bool) (l : list A) :
  forallb p l = true <-> Forall (fun x => p x = true) l.
Proof.
  induction l as [|x l IH]; simpl; [by split; [constructor|]|].
  rewrite andb_true_iff, IH, Forall_cons. done.
Qed.

Section AccumulateAnd.
Context {A : Type} (body : bool -> A -> M bool) (p : A -> bool).

Lemma accumulate_and (l : list A) (s : bool) :
  Forall (fun x => forall s, result (body s x) = Some (s && p x)) l ->
  result (accumulate body l s) = Some (s && forallb p l).
Proof.
  intros H. revert s. induction H as [|x l Hx _ IH]; intros s; cbn [accumulate forallb].
  - by rewrite andb_true_r.
  - rewrite (bind_result _ _ _ (Hx s)), IH. by rewrite andb_assoc.
Qed.
End AccumulateAnd.

Section DuplicateLoop.
Context {A : Type} (key : A -> string).
Context (body : bool * gset string -> A -> M (bool * gset string)).

Lemma duplicate_loop (l : list A) :
  Forall (fun x => forall success seen,
            result (body (success, seen) x) =
              Some (success && negb (bool_decide (key x ∈ seen)), {[key x]} ∪ seen)) l ->
  forall success seen, exists b,
    result (accumulate body l (success, seen)) =
      Some (b, list_to_set (key <$> l) ∪ seen) /\
    (b = true <->
     success = true /\ NoDup (key <$> l) /\ forall k, k ∈ key <$> l -> k ∉ seen).
Proof.
  induction 1 as [|x l Hx _ IH]; intros success seen; cbn [accumulate].
  - exists success. split.
    + rewrite fmap_nil. cbn [result ret fst].
      by assert (list_to_set [] ∪ seen = seen) as -> by set_solver.
    + split; [|naive_solver]. intros ->. split; [done|]. split; [constructor|].
      intros k Hk. by apply elem_of_nil in Hk.
  - rewrite (bind_result _ _ _ (Hx success seen)).
    destruct (IH (success && negb (bool_decide (key x ∈ seen))) ({[key x]} ∪ seen))
      as (b & -> & Hb).
    exists b. split.
    + rewrite fmap_cons.
      by assert (list_to_set (key <$> l) ∪ ({[key x]} ∪ seen) =
                 list_to_set (key x :: (key <$> l)) ∪ seen) as -> by set_solver.
    + rewrite Hb, fmap_cons, NoDup_cons, andb_true_iff, negb_true_iff.
      rewrite bool_decide_eq_false. split.
      * intros ((Hs & Hx') & Hnodup & Hfresh). split; [done|]. split.
        -- split; [|done]. intros Hin. apply (Hfresh _ Hin). set_solver.
        -- intros k Hk Hseen. apply elem_of_cons in Hk as [->|Hk]; [done|].
           apply (Hfresh _ Hk). set_solver.
      * intros (Hs & (Hhead & Hnodup) & Hfresh). split; [split; [done|]|split; [done|]].
        -- apply Hfresh. by left.
        -- intros k Hk Hseen. apply elem_of_union in Hseen as [Hseen|Hseen].
           ++ apply elem_of_singleton in Hseen as ->. done.
           ++ apply (Hfresh k); [by right|done].
Qed.
End DuplicateLoop.

Lemma size_list_to_set_le (l : list string) : size (list_to_set l : gset string) <= length l.
Proof.
  induction l as [|x l IH]; [done|]. cbn [list_to_set foldr length].
  rewrite size_union_alt, size_singleton.
  pose proof (subseteq_size (list_to_set l ∖ {[x]}) (list_to_set l : gset string)) as Hle.
  assert (size (list_to_set l ∖ {[x]} : gset string) <= size (list_to_set l : gset string))
    by (apply Hle; set_solver).
  lia.
Qed.

Lemma size_list_to_set_NoDup (l : list string) :
  size (list_to_set l : gset string) = length l <-> NoDup l.
Proof.
  split; [|apply size_list_to_set].
  induction l as [|x l IH]; [constructor|]. cbn [list_to_set foldr length]. intros Hsize.
  pose proof (size_list_to_set_le l) as Hle.
  destruct (decide (x ∈ l)) as [Hin|Hnotin].
  - assert ({[x]} ∪ list_to_set l = (list_to_set l : gset string)) as Heq by set_solver.
    rewrite Heq in Hsize. lia.
  - constructor; [done|]. apply IH.
    rewrite size_union, size_singleton in Hsize by set_solver. lia.
Qed.

(** ** Declarations of variables and constants *)

Section Declarations.
Context (cv : ConstantValueEngine) (typenames : AidlTypenames).

(** X12. A declaration whose type is named void is never valid: whenever
    the check of its type returns, AidlVariableDeclaration::CheckValid
    returns false and has printed that declarations cannot be of void type,
    also when the type check had already failed. *)
Theorem void_declaration_rejected (v : AidlVariableDeclaration) :
  AidlTypeSpecifier_GetName (var_type_ v) = "void" ->
  is_Some (result (AidlTypeSpecifier_CheckValid cv typenames (var_type_ v))) ->
  result (AidlVariableDeclaration_CheckValid cv typenames v) = Some false /\
  Error (var_location v)
    ("Declaration " +:+ var_name_ v +:+ " is void, but declarations cannot be of void type.")
    ∈ diagnostics (AidlVariableDeclaration_CheckValid cv typenames v).
Proof.
  intros Hvoid [tv Htv]. unfold AidlVariableDeclaration_CheckValid.
  rewrite (M_eta (AidlTypeSpecifier_CheckValid cv typenames (var_type_ v))), Htv.
  rewrite bind_run, (bool_decide_eq_true_2 _ Hvoid), error_then.
  cbn [result diagnostics fst snd ret]. rewrite bind_run.
  destruct (default_value_ v); cbn [result diagnostics fst snd ret andb negb];
    (split; [done|]); set_solver.
Qed.

Lemma last_char_app (a b : string) :
  last_char (a +:+ b) = match last_char b with None => last_char a | found => found end.
Proof.
  induction a as [|c a IH]; simpl.
  { change ("" +:+ b) with b. by destruct (last_char b). }
  rewrite IH. by destruct (last_char b), (last_char a).
Qed.

Lemma Signature_last_char (t : AidlTypeSpecifier) :
  IsArray t = true \/ IsGeneric t = true ->
  last_char (AidlTypeSpecifier_Signature t) = last_char "]" \/
  last_char (AidlTypeSpecifier_Signature t) = last_char ">".
Proof.
  destruct t as [l an un fq arr tp co dt]. unfold IsArray, IsGeneric. simpl.
  destruct arr.
  - intros _. left. by rewrite last_char_app.
  - intros [[=]|Hgen]. destruct tp as [params|].
    + right. by rewrite !last_char_app.
    + by rewrite bool_decide_eq_false_2 in Hgen by (by intros [? ?]).
Qed.

(** X13. A constant declaration that AidlConstantDeclaration::CheckValid
    accepts has a valid type whose signature is String, byte, int or long,
    and a valid value; in particular its type is neither an array nor
    generic. *)
Theorem constant_type_supported (c : AidlConstantDeclaration) :
  result (AidlConstantDeclaration_CheckValid cv typenames c) = Some true ->
  result (AidlTypeSpecifier_CheckValid cv typenames (const_type_ c)) = Some true /\
  cv_CheckValid cv (const_value_ c) = true /\
  AidlTypeSpecifier_Signature (const_type_ c) ∈ ["String"; "byte"; "int"; "long"] /\
  IsArray (const_type_ c) = false /\
  IsGeneric (const_type_ c) = false.
Proof.
  unfold AidlConstantDeclaration_CheckValid. intros H.
  apply bind_result_Some in H as (tv & Htv & H).
  destruct tv; [|done]. cbn [andb] in H.
  destruct (cv_CheckValid cv (const_value_ c)); [|done]. cbn [negb] in H.
  rewrite reject_if_result in H. injection H as H.
  apply negb_true_iff, negb_false_iff in H. unfold string_in in H.
  apply bool_decide_eq_true in H.
  assert (Hlast : last_char (AidlTypeSpecifier_Signature (const_type_ c)) <> last_char "]" /\
                  last_char (AidlTypeSpecifier_Signature (const_type_ c)) <> last_char ">").
  { unfold kSupportedConstTypes in H.
    repeat (apply elem_of_cons in H as [->|H]; [by split|]).
    by apply elem_of_nil in H. }
  split; [done|]. split; [done|]. split; [done|]. split.
  - destruct (IsArray (const_type_ c)) eqn:Harr; [|done].
    destruct (Signature_last_char (const_type_ c)) as [Hl|Hl]; [by left|..];
      by destruct Hlast.
  - destruct (IsGeneric (const_type_ c)) eqn:Hgen; [|done].
    destruct (Signature_last_char (const_type_ c)) as [Hl|Hl]; [by right|..];
      by destruct Hlast.
Qed.
End Declarations.

(** X12, on the declaration void x. *)
Lemma void_declaration_rejected_witness :
  result (AidlVariableDeclaration_CheckValid Examples.engine Examples.typenames
            MoreExamples.void_x) = Some false.
Proof.
  apply (void_declaration_rejected Examples.engine Examples.typenames MoreExamples.void_x).
  - reflexivity.
  - by eexists.
Defined.

(** X13, on const int B = 1. *)
Lemma constant_type_supported_witness :
  IsArray (const_type_ MoreExamples.const_int) = false /\
  IsGeneric (const_type_ MoreExamples.const_int) = false.
Proof.
  apply (constant_type_supported Examples.engine Examples.typenames MoreExamples.const_int).
  reflexivity.
Defined.

(** ** Unique names *)

Lemma AidlParameterizable_CheckValid_run (loc : AidlLocation) (type_params : option (list string)) :
  exists b : bool,
    AidlParameterizable_CheckValid loc type_params =
      (Some b, if b then @nil Diagnostic
               else [Error loc "Every type parameter should be unique."]) /\
    (b = true <-> NoDup (default [] type_params)).
Proof.
  destruct type_params as [params|]; unfold default; cbn [from_option id].
  - unfold AidlParameterizable_CheckValid.
    destruct (decide (size (list_to_set params : gset string) = length params)) as [Hs|Hs].
    + rewrite (bool_decide_eq_true_2 _ Hs). exists true. split; [done|].
      split; [|done]. intros _. by apply size_list_to_set_NoDup.
    + rewrite (bool_decide_eq_false_2 _ Hs). exists false. split; [done|].
      split; [done|]. intros Hnodup. by apply size_list_to_set_NoDup in Hnodup.
  - exists true. split; [done|]. split; [|done]. intros _. constructor.
Qed.

(** X14. AidlParameterizable<string>::CheckValid always returns; it
    returns true exactly when no type parameter name occurs twice, and
    prints its one error exactly when it returns false. *)
Theorem type_parameters_unique (loc : AidlLocation) (type_params : option (list string)) :
  exists b : bool,
    AidlParameterizable_CheckValid loc type_params =
      (Some b, if b then @nil Diagnostic
               else [Error loc "Every type parameter should be unique."]) /\
    (b = true <-> NoDup (default [] type_params)).
Proof. exact (AidlParameterizable_CheckValid_run loc type_params). Qed.

Section MemberLoops.
Context (cv : ConstantValueEngine) (typenames : AidlTypenames).

Lemma CheckGetterName_run (d : AidlDefinedType) (success : bool) (getters : gset string)
    (v : AidlVariableDeclaration) :
  var_name_ v <> "" ->
  result (CheckGetterName d (success, getters) v) =
    Some (success && negb (bool_decide (capitalized (var_name_ v) ∈ getters)),
          {[capitalized (var_name_ v)]} ∪ getters).
Proof.
  intros Hname. unfold CheckGetterName, GetCapitalizedName, capitalized.
  destruct (var_name_ v) as [|c rest]; [done|]. rewrite bind_ret_l.
  destruct (decide (String (toupper c) rest ∈ getters)) as [Hin|Hin].
  - rewrite (bool_decide_eq_true_2 _ Hin), error_then. cbn [result fst ret negb].
    rewrite andb_false_r.
    by assert ({[String (toupper c) rest]} ∪ getters = getters) as -> by set_solver.
  - rewrite (bool_decide_eq_false_2 _ Hin). cbn [result fst ret negb].
    by rewrite andb_true_r.
Qed.

Lemma getter_loop_fatal (d : AidlDefinedType) (l : list AidlVariableDeclaration)
    (st : bool * gset string) :
  Exists (fun v => var_name_ v = "") l ->
  result (accumulate (CheckGetterName d) l st) = None.
Proof.
  revert st. induction l as [|v l IH]; intros [success getters] Hex.
  { by apply Exists_nil in Hex. }
  cbn [accumulate]. destruct (decide (var_name_ v = "")) as [Hv|Hv].
  - apply bind_result_None. unfold CheckGetterName, GetCapitalizedName. rewrite Hv.
    reflexivity.
  - rewrite (bind_result _ _ _ (CheckGetterName_run d success getters v Hv)).
    apply IH. by apply Exists_cons in Hex as [Hex|Hex].
Qed.

Lemma CheckValidForGetterNames_cases (d : AidlDefinedType) :
  (Forall (fun v => var_name_ v <> "") (GetFields d) ->
   exists b, result (CheckValidForGetterNames d) = Some b /\
             (b = true <->
              NoDup ((fun v => capitalized (var_name_ v)) <$> GetFields d))) /\
  (Exists (fun v => var_name_ v = "") (GetFields d) ->
   result (CheckValidForGetterNames d) = None).
Proof.
  unfold CheckValidForGetterNames. split.
  - intros Hnames.
    destruct (duplicate_loop (fun v => capitalized (var_name_ v)) (CheckGetterName d)
                (GetFields d)) with (success := true) (seen := (∅ : gset string))
      as (b & Hrun & Hb).
    { eapply Forall_impl; [exact Hnames|]. intros v Hv success seen.
      by apply CheckGetterName_run. }
    exists b. rewrite (bind_result _ _ _ Hrun). split; [done|].
    rewrite Hb. split; [by intros (_ & ? & _)|]. intros Hnodup.
    split; [done|]. split; [done|]. set_solver.
  - intros Hex. apply bind_result_None. by apply getter_loop_fatal.
Qed.

(** X15. When no field has an empty name, CheckValidForGetterNames
    returns, and returns true exactly when the field names stay distinct
    after the first letter of each is put in upper case. With a field whose
    name is empty it ends in the fatal assertion of GetCapitalizedName. *)
Theorem getter_names_unique (d : AidlDefinedType) :
  (Forall (fun v => var_name_ v <> "") (GetFields d) ->
   exists b, result (CheckValidForGetterNames d) = Some b /\
             (b = true <->
              NoDup ((fun v => capitalized (var_name_ v)) <$> GetFields d))) /\
  (Exists (fun v => var_name_ v = "") (GetFields d) ->
   result (CheckValidForGetterNames d) = None).
Proof. exact (CheckValidForGetterNames_cases d). Qed.

Lemma CheckFieldName_run (d : AidlDefinedType) (success : bool) (seen : gset string)
    (v : AidlVariableDeclaration) :
  result (CheckFieldName d (success, seen) v) =
    Some (success && negb (bool_decide (var_name_ v ∈ seen)), {[var_name_ v]} ∪ seen).
Proof.
  unfold CheckFieldName.
  destruct (decide (var_name_ v ∈ seen)) as [Hin|Hin].
  - rewrite (bool_decide_eq_true_2 _ Hin), error_then. cbn [result fst ret negb].
    rewrite andb_false_r.
    by assert ({[var_name_ v]} ∪ seen = seen) as -> by set_solver.
  - rewrite (bool_decide_eq_false_2 _ Hin). cbn [result fst ret negb].
    by rewrite andb_true_r.
Qed.

Lemma CheckField_run (success : bool) (v : AidlVariableDeclaration) :
  is_Some (result (AidlVariableDeclaration_CheckValid cv typenames v)) ->
  result (CheckField cv typenames success v) =
    Some (success &&
          bool_decide (result (AidlVariableDeclaration_CheckValid cv typenames v) = Some true)).
Proof.
  intros [fv Hfv]. unfold CheckField. rewrite (bind_result _ _ _ Hfv), Hfv.
  cbn [result fst ret]. by destruct fv.
Qed.

Lemma CheckFieldImmutable_run (d : AidlDefinedType) (success : bool)
    (v : AidlVariableDeclaration) :
  result (CheckFieldImmutable typenames d success v) =
    Some (success && CanBeJavaOnlyImmutable typenames (var_type_ v)).
Proof.
  unfold CheckFieldImmutable. destruct (CanBeJavaOnlyImmutable typenames (var_type_ v));
    cbn [negb]; rewrite ?error_then; cbn [result fst ret];
    by rewrite ?andb_true_r, ?andb_false_r.
Qed.

Lemma constant_loop (l : list AidlConstantDeclaration) :
  Forall (fun c => is_Some (result (AidlConstantDeclaration_CheckValid cv typenames c))) l ->
  forall success seen, exists b seen',
    result (accumulate (CheckConstant cv typenames) l (success, seen)) = Some (b, seen') /\
    (b = true <->
     success = true /\ NoDup (const_name_ <$> l) /\
     (forall k, k ∈ const_name_ <$> l -> k ∉ seen) /\
     Forall (fun c => result (AidlConstantDeclaration_CheckValid cv typenames c) = Some true)
       l) /\
    seen' = list_to_set (const_name_ <$> l) ∪ seen.
Proof.
  induction 1 as [|c l [cb Hc] _ IH]; intros success seen; cbn [accumulate].
  - exists success, seen. split; [done|]. split; [|set_solver].
    split; [|naive_solver]. intros ->. split; [done|]. split; [constructor|].
    split; [|constructor]. intros k Hk. by apply elem_of_nil in Hk.
  - assert (Hbody : result (CheckConstant cv typenames (success, seen) c) =
                    Some (success && negb (bool_decide (const_name_ c ∈ seen)) && cb,
                          {[const_name_ c]} ∪ seen)).
    { unfold CheckConstant.
      destruct (decide (const_name_ c ∈ seen)) as [Hin|Hin].
      - rewrite (bool_decide_eq_true_2 _ Hin).
        rewrite (bind_result _ _ false) by (by rewrite error_then).
        rewrite bind_ret_l. cbn [result fst ret negb].
        by rewrite andb_false_r.
      - rewrite (bool_decide_eq_false_2 _ Hin), bind_ret_l.
        destruct success.
        + rewrite (bind_result _ _ _ Hc). done.
        + by rewrite bind_ret_l. }
    rewrite (bind_result _ _ _ Hbody).
    destruct (IH (success && negb (bool_decide (const_name_ c ∈ seen)) && cb)
                ({[const_name_ c]} ∪ seen)) as (b & seen' & -> & Hb & ->).
    exists b, (list_to_set (const_name_ <$> l) ∪ ({[const_name_ c]} ∪ seen)).
    split; [done|]. split; [|rewrite fmap_cons; set_solver].
    rewrite Hb, fmap_cons, NoDup_cons, Forall_cons, !andb_true_iff, negb_true_iff.
    rewrite bool_decide_eq_false, Hc. split.
    + intros (((Hs & Hx) & ->) & Hnodup & Hfresh & Hall).
      split; [done|]. split; [|split; [|done]].
      * split; [|done]. intros Hin. apply (Hfresh _ Hin). set_solver.
      * intros k Hk Hseen. apply elem_of_cons in Hk as [->|Hk]; [done|].
        apply (Hfresh _ Hk). set_solver.
    + intros (Hs & (Hhead & Hnodup) & Hfresh & [= ->] & Hall).
      split; [split; [split; [done|]|done]|split; [done|split; [|done]]].
      * apply Hfresh. by left.
      * intros k Hk Hseen. apply elem_of_union in Hseen as [Hseen|Hseen].
        -- apply elem_of_singleton in Hseen as ->. done.
        -- apply (Hfresh k); [by right|done].
Qed.

(** X16. When the checks of the single fields and constants return,
    AidlDefinedType::CheckValidWithMembers returns, and returns true exactly
    when every field is valid, no two fields share a name, every field of a
    JavaOnlyImmutable declaration has an immutable type, no two constants
    share a name and every constant is valid. *)
Theorem CheckValidWithMembers_iff (d : AidlDefinedType) :
  Forall (fun v => is_Some (result (AidlVariableDeclaration_CheckValid cv typenames v)))
    (GetFields d) ->
  Forall (fun c => is_Some (result (AidlConstantDeclaration_CheckValid cv typenames c)))
    (constants_ d) ->
  exists b, result (CheckValidWithMembers cv typenames d) = Some b /\
    (b = true <->
     Forall (fun v => result (AidlVariableDeclaration_CheckValid cv typenames v) = Some true)
       (GetFields d) /\
     NoDup (var_name_ <$> GetFields d) /\
     (IsJavaOnlyImmutable (dt_annotations d) = true ->
      Forall (fun v => CanBeJavaOnlyImmutable typenames (var_type_ v) = true) (GetFields d)) /\
     NoDup (const_name_ <$> constants_ d) /\
     Forall (fun c => result (AidlConstantDeclaration_CheckValid cv typenames c) = Some true)
       (constants_ d)).
Proof.
  intros Hfields Hconstants. unfold CheckValidWithMembers.
  rewrite (bind_result _ _ _
             (accumulate_and (CheckField cv typenames)
                (fun v => bool_decide
                   (result (AidlVariableDeclaration_CheckValid cv typenames v) = Some true))
                (GetFields d) true
                (Forall_impl _ _ _ Hfields (fun v Hv s => CheckField_run s v Hv)))).
  cbn [andb].
  destruct (duplicate_loop var_name_ (CheckFieldName d) (GetFields d))
    with (success := forallb (fun v => bool_decide
            (result (AidlVariableDeclaration_CheckValid cv typenames v) = Some true))
            (GetFields d)) (seen := (∅ : gset string))
    as (b2 & Hrun2 & Hb2).
  { apply Forall_forall. intros v _ success seen. apply CheckFieldName_run. }
  rewrite (bind_result _ _ _ Hrun2). cbn [fst].
  assert (Hb3 : exists b3,
             result (if IsJavaOnlyImmutable (dt_annotations d)
                     then accumulate (CheckFieldImmutable typenames d) (GetFields d) b2
                     else ret b2) = Some b3 /\
             (b3 = true <->
              b2 = true /\
              (IsJavaOnlyImmutable (dt_annotations d) = true ->
               Forall (fun v => CanBeJavaOnlyImmutable typenames (var_type_ v) = true)
                 (GetFields d)))).
  { destruct (IsJavaOnlyImmutable (dt_annotations d)).
    - eexists. split.
      + apply (accumulate_and _ (fun v => CanBeJavaOnlyImmutable typenames (var_type_ v))).
        apply Forall_forall. intros v _ s. apply CheckFieldImmutable_run.
      + rewrite andb_true_iff, forallb_Forall. naive_solver.
    - exists b2. split; [done|]. naive_solver. }
  destruct Hb3 as (b3 & Hrun3 & Hb3). rewrite (bind_result _ _ _ Hrun3).
  destruct (constant_loop (constants_ d) Hconstants b3 ∅) as (b4 & seen' & Hrun4 & Hb4 & _).
  rewrite (bind_result _ _ _ Hrun4). exists b4. split; [done|].
  rewrite Hb4, Hb3, Hb2, forallb_Forall.
  assert (Hvalid : Forall (fun v => bool_decide
                     (result (AidlVariableDeclaration_CheckValid cv typenames v) = Some true)
                     = true) (GetFields d) <->
                   Forall (fun v => result (AidlVariableDeclaration_CheckValid cv typenames v)
                                    = Some true) (GetFields d)).
  { apply Forall_iff. intros v. apply bool_decide_eq_true. }
  rewrite Hvalid. split.
  - intros (((? & ? & _) & ?) & ? & _ & ?). done.
  - intros (? & ? & ? & ? & ?). repeat split; try done; set_solver.
Qed.
End MemberLoops.

(** X15, on parcelable P { int foo; int Foo; }. *)
Lemma getter_names_unique_witness :
  exists b, result (CheckValidForGetterNames MoreExamples.P_foo_Foo) = Some b /\
            (b = true <-> NoDup ["Foo"; "Foo"]).
Proof.
  apply (proj1 (getter_names_unique MoreExamples.P_foo_Foo)).
  repeat constructor; done.
Defined.

(** X16, on parcelable P { int foo; int Foo; }. *)
Lemma CheckValidWithMembers_iff_witness :
  exists b,
    result (CheckValidWithMembers Examples.engine Examples.typenames MoreExamples.P_foo_Foo)
      = Some b.
Proof.
  destruct (CheckValidWithMembers_iff Examples.engine Examples.typenames
              MoreExamples.P_foo_Foo) as (b & Hb & _).
  - repeat constructor; by eexists.
  - constructor.
  - by exists b.
Defined.

(** ** Methods and their arguments *)

Section MethodRules.
Import AidlArgument.
Context (cv : ConstantValueEngine) (typenames : AidlTypenames).

Lemma IsIn_direction (a : AidlArgument) : IsIn a = true <-> GetDirection a <> OUT_DIR.
Proof. unfold IsIn, GetDirection. by destruct (direction_ a). Qed.

Lemma IsOut_not_in (a : AidlArgument) : IsOut a = true <-> GetDirection a <> IN_DIR.
Proof. unfold IsOut, GetDirection. by destruct (direction_ a). Qed.

(** X17. The AidlMethod constructor keeps the argument list and derives
    the two sublists from it, in order: the in-arguments are the arguments
    that are not out, the out-arguments those that are not in. Every argument
    is in at least one of them, and exactly the inout arguments are in both.
    A method built without an id has no id. *)
Theorem method_arguments_split (loc : AidlLocation) (oneway : bool) (type : AidlTypeSpecifier)
    (name : string) (args : list AidlArgument) (comments : string) :
  let m := newMethod loc oneway type name args comments in
  arguments_ m = args /\
  in_arguments_ m = filter (fun a => GetDirection a <> OUT_DIR) args /\
  out_arguments_ m = filter (fun a => GetDirection a <> IN_DIR) args /\
  (forall a, a ∈ args -> a ∈ in_arguments_ m \/ a ∈ out_arguments_ m) /\
  (forall a, a ∈ in_arguments_ m /\ a ∈ out_arguments_ m <->
             a ∈ args /\ GetDirection a = INOUT_DIR) /\
  has_id_ m = false /\
  IsOneway m = oneway.
Proof.
  cbn zeta. unfold newMethod, newMethodWithId. cbn [arguments_ in_arguments_ out_arguments_
    has_id_ IsOneway oneway_].
  assert (Hin : filter (fun a => IsIn a) args = filter (fun a => GetDirection a <> OUT_DIR) args).
  { apply list_filter_iff. intros a. rewrite <- IsIn_direction. apply Is_true_true. }
  assert (Hout : filter (fun a => IsOut a) args =
                 filter (fun a => GetDirection a <> IN_DIR) args).
  { apply list_filter_iff. intros a. rewrite <- IsOut_not_in. apply Is_true_true. }
  rewrite Hin, Hout. split; [done|]. split; [done|]. split; [done|].
  split; [|split; [|done]].
  - intros a Ha. rewrite !list_elem_of_filter.
    destruct (GetDirection a) eqn:Hd; naive_solver.
  - intros a. rewrite !list_elem_of_filter. split.
    + intros [[Hi Ha] [Ho _]]. split; [done|]. by destruct (GetDirection a).
    + intros [Ha Hd]. by rewrite Hd.
Qed.

Lemma reject_if_passed (c : bool) (loc : AidlLocation) (msg : string) :
  result (reject_if c loc msg) = Some true -> c = false.
Proof. rewrite reject_if_result. by destruct c. Qed.

Lemma argument_loop (m : AidlMethod) (l : list AidlArgument) (s s' : gset string) :
  result (loop_or_return (CheckArgument cv typenames m) l s) = Some (Some s') ->
  s' = list_to_set (arg_name <$> l) ∪ s /\
  NoDup (arg_name <$> l) /\
  (forall k, k ∈ arg_name <$> l -> k ∉ s) /\
  Forall (fun arg => result (CheckArgumentRules cv typenames m arg) = Some true) l.
Proof.
  revert s. induction l as [|arg l IH]; intros s Hloop; cbn [loop_or_return] in Hloop.
  - injection Hloop as <-. rewrite fmap_nil. split; [set_solver|].
    split; [constructor|]. split; [|constructor]. intros k Hk. by apply elem_of_nil in Hk.
  - apply bind_result_Some in Hloop as ([s1|] & Harg & Hloop); [|done].
    unfold CheckArgument in Harg.
    destruct (decide (arg_name arg ∈ s)) as [Hin|Hin].
    { rewrite (bool_decide_eq_true_2 _ Hin), error_then in Harg. done. }
    rewrite (bool_decide_eq_false_2 _ Hin) in Harg.
    apply bind_result_Some in Harg as ([] & Hrules & Harg); [|done].
    injection Harg as <-.
    apply IH in Hloop as (-> & Hnodup & Hfresh & Hall).
    rewrite fmap_cons. split; [set_solver|]. split; [|split].
    + constructor; [|done]. intros Hl. apply (Hfresh _ Hl). set_solver.
    + intros k Hk. apply elem_of_cons in Hk as [->|Hk]; [done|].
      intros Hs. apply (Hfresh _ Hk). set_solver.
    + by constructor.
Qed.

(** X18. A method that passes the method and argument checks of
    AidlInterface::CheckValid has: a valid return type that is not
    ParcelableHolder, and void if the method is oneway; pairwise distinct
    argument names; and for every argument a valid type that is not
    ParcelableHolder, a name that is neither a Java keyword nor starts with
    _aidl, no out direction if the method is oneway, a written direction if
    the type can be an out parameter, and direction in if it cannot. *)
Theorem valid_method_rules (m : AidlMethod) :
  result (CheckMethodRules cv typenames m) = Some true ->
  result (AidlTypeSpecifier_CheckValid cv typenames (method_type_ m)) = Some true /\
  AidlTypeSpecifier_GetName (method_type_ m) <> "ParcelableHolder" /\
  (IsOneway m = true -> AidlTypeSpecifier_GetName (method_type_ m) = "void") /\
  NoDup (arg_name <$> arguments_ m) /\
  Forall (fun arg =>
            result (AidlTypeSpecifier_CheckValid cv typenames (arg_type arg)) = Some true /\
            AidlTypeSpecifier_GetName (arg_type arg) <> "ParcelableHolder" /\
            (IsOneway m = true -> IsOut arg = false) /\
            (fst (CanBeOutParameter typenames (arg_type arg)) = true ->
             DirectionWasSpecified arg = true) /\
            (fst (CanBeOutParameter typenames (arg_type arg)) = false ->
             GetDirection arg = IN_DIR) /\
            IsJavaKeyword (arg_name arg) = false /\
            String.prefix "_aidl" (arg_name arg) = false)
    (arguments_ m).
Proof.
  unfold CheckMethodRules. intros H.
  apply and_then_true in H as [Htype H].
  apply and_then_true in H as [Hholder H].
  apply and_then_true in H as [Hone H].
  apply reject_if_passed in Hholder, Hone.
  apply bool_decide_eq_false in Hholder.
  split; [done|]. split; [done|]. split.
  { intros Hm. rewrite Hm in Hone. cbn [andb] in Hone.
    apply negb_false_iff in Hone. by apply bool_decide_eq_true in Hone. }
  apply bind_result_Some in H as ([names|] & Hloop & H);
    [|by rewrite bool_decide_eq_false_2 in H by (by intros [? ?])].
  apply argument_loop in Hloop as (_ & Hnodup & _ & Hall).
  split; [done|]. eapply Forall_impl; [exact Hall|].
  intros arg Hrules. unfold CheckArgumentRules in Hrules.
  apply and_then_true in Hrules as [Hatype Hrules].
  apply and_then_true in Hrules as [Haholder Hrules].
  apply and_then_true in Hrules as [Haout Hrules].
  destruct (CanBeOutParameter typenames (arg_type arg)) as [can_be_out type_aspect].
  apply and_then_true in Hrules as [Hspecified Hrules].
  apply and_then_true in Hrules as [Hdir Hrules].
  apply and_then_true in Hrules as [Hkeyword Hrules].
  apply and_then_true in Hrules as [Hprefix _].
  apply reject_if_passed in Haholder, Haout, Hspecified, Hdir, Hkeyword, Hprefix.
  apply bool_decide_eq_false in Haholder. cbn [fst].
  split; [done|]. split; [done|]. split.
  { intros Hm. rewrite Hm in Haout. done. }
  split.
  { intros ->. rewrite andb_true_r in Hspecified. by apply negb_false_iff in Hspecified. }
  split; [|done].
  intros ->. rewrite andb_true_r in Hdir. apply negb_false_iff in Hdir.
  by apply bool_decide_eq_true in Hdir.
Qed.

Lemma CheckMethod_not_reserved (method_names names' : gmap string AidlMethod)
    (m : AidlMethod) :
  result (CheckMethod cv typenames method_names m) = Some (Some names') ->
  AidlMethod_Signature m ∉ reserved_methods.
Proof.
  unfold CheckMethod. intros H.
  apply bind_result_Some in H as ([] & _ & H); [|done].
  destruct (method_names !! method_name_ m) as [previous|].
  { by rewrite !error_then in H. }
  apply bind_result_Some in H as ([] & Hreserved & H); [|done].
  apply reject_if_passed in Hreserved. unfold string_in in Hreserved.
  by apply bool_decide_eq_false in Hreserved.
Qed.

(** X19. An interface that AidlInterface::CheckValid accepts declares none
    of the reserved methods asBinder(), getInterfaceHash(),
    getInterfaceVersion() and getTransactionName(int), and each of its
    methods passes the method and argument checks. *)
Theorem valid_interface_methods (d : AidlDefinedType) :
  result (AidlInterface_CheckValid cv typenames d) = Some true ->
  Forall (fun m =>
            (AidlMethod_Signature m ∉
               ["asBinder()"; "getInterfaceHash()"; "getInterfaceVersion()";
                "getTransactionName(int)"]) /\
            result (CheckMethodRules cv typenames m) = Some true)
    (methods_ d).
Proof.
  unfold AidlInterface_CheckValid. intros H.
  apply and_then_true in H as [_ H].
  apply bind_result_Some in H as ([names|] & Hloop & H);
    [|by rewrite bool_decide_eq_false_2 in H by (by intros [? ?])].
  clear H. revert Hloop. generalize (∅ : gmap string AidlMethod).
  induction (methods_ d) as [|m l IH]; intros s Hloop; [constructor|].
  cbn [loop_or_return] in Hloop.
  apply bind_result_Some in Hloop as ([s1|] & Hm & Hloop); [|done].
  constructor; [|by apply (IH s1)]. split.
  - by apply CheckMethod_not_reserved in Hm.
  - by apply CheckMethod_continues in Hm as (? & _).
Qed.
End MethodRules.

(** X18, on void copy(in int[] src, out int[] dst, inout int[] both). *)
Lemma valid_method_rules_witness :
  NoDup (arg_name <$> arguments_ MoreExamples.copy_method).
Proof.
  apply (valid_method_rules Examples.engine Examples.typenames MoreExamples.copy_method).
  reflexivity.
Defined.

(** X19, on interface IFoo { void copy(...); }. *)
Lemma valid_interface_methods_witness :
  Forall (fun m =>
            (AidlMethod_Signature m ∉
               ["asBinder()"; "getInterfaceHash()"; "getInterfaceVersion()";
                "getTransactionName(int)"]) /\
            result (CheckMethodRules Examples.engine Examples.typenames m) = Some true)
    (methods_ MoreExamples.IFoo_copy).
Proof.
  apply (valid_interface_methods Examples.engine Examples.typenames MoreExamples.IFoo_copy).
  reflexivity.
Defined.

(** ** Enum declarations *)

Section EnumDeclaration.
Context (cv : ConstantValueEngine) (typenames : AidlTypenames).

Lemma AidlEnumerator_CheckValid_true (bt : AidlTypeSpecifier) (e : AidlEnumerator) :
  result (AidlEnumerator_CheckValid cv bt e) = Some true <->
  exists value, enumerator_value_ e = Some value /\
                cv_CheckValid cv value = true /\
                cv_ValueString cv value bt <> "".
Proof.
  unfold AidlEnumerator_CheckValid.
  destruct (enumerator_value_ e) as [value|]; [|split; [done|by intros (? & ? & _)]].
  destruct (cv_CheckValid cv value) eqn:Hvalid; cbn [negb].
  - rewrite reject_if_result.
    destruct (decide (cv_ValueString cv value bt = "")) as [Hs|Hs].
    + rewrite (bool_decide_eq_true_2 _ Hs). split; [done|].
      intros (? & [= <-] & _ & ?). done.
    + rewrite (bool_decide_eq_false_2 _ Hs). split; [|done]. intros _. by exists value.
  - split; [done|]. intros (? & [= <-] & ? & _). congruence.
Qed.

Lemma AidlEnumerator_CheckValid_total (bt : AidlTypeSpecifier) (e : AidlEnumerator) :
  is_Some (result (AidlEnumerator_CheckValid cv bt e)).
Proof.
  unfold AidlEnumerator_CheckValid.
  destruct (enumerator_value_ e) as [value|]; [|by eexists].
  destruct (cv_CheckValid cv value); cbn [negb]; [|by eexists].
  rewrite reject_if_result. by eexists.
Qed.

Lemma CheckEnumerator_run (bt : AidlTypeSpecifier) (success : bool) (e : AidlEnumerator) :
  result (CheckEnumerator cv bt success e) =
    Some (success && bool_decide (result (AidlEnumerator_CheckValid cv bt e) = Some true)).
Proof.
  unfold CheckEnumerator. destruct success; [|done].
  destruct (AidlEnumerator_CheckValid_total bt e) as [[] H]; by rewrite H.
Qed.

Lemma enumerator_loop (bt : AidlTypeSpecifier) (l : list AidlEnumerator) :
  result (accumulate (CheckEnumerator cv bt) l true) =
    Some (forallb (fun e => bool_decide
                     (result (AidlEnumerator_CheckValid cv bt e) = Some true)) l).
Proof.
  rewrite (accumulate_and (CheckEnumerator cv bt)
             (fun e => bool_decide (result (AidlEnumerator_CheckValid cv bt e) = Some true))).
  - done.
  - apply Forall_forall. intros e _ s. apply CheckEnumerator_run.
Qed.

(** X20. An enum declaration that AidlEnumDeclaration::CheckValid accepts
    has no members, has a backing type, has at least one enumerator, and each
    of its enumerators has a value that is valid and prints under the backing
    type. An enum declaration fresh from its constructor has no backing type
    yet, so CheckValid never accepts it before Autofill has run. *)
Theorem valid_enum_declaration :
  (forall d,
     result (AidlEnumDeclaration_CheckValid cv typenames d) = Some true ->
     members_ d = [] /\
     exists backing_type,
       GetBackingType d = Some backing_type /\
       GetEnumerators d <> [] /\
       Forall (fun e => exists value,
                   enumerator_value_ e = Some value /\
                   cv_CheckValid cv value = true /\
                   cv_ValueString cv value backing_type <> "")
         (GetEnumerators d)) /\
  (forall loc name enumerators package comments,
     result (AidlEnumDeclaration_CheckValid cv typenames
               (newEnumDeclaration loc name enumerators package comments)) <> Some true).
Proof.
  assert (Hvalid : forall d,
    result (AidlEnumDeclaration_CheckValid cv typenames d) = Some true ->
    members_ d = [] /\
    exists backing_type,
      GetBackingType d = Some backing_type /\
      GetEnumerators d <> [] /\
      Forall (fun e => exists value,
                  enumerator_value_ e = Some value /\
                  cv_CheckValid cv value = true /\
                  cv_ValueString cv value backing_type <> "")
        (GetEnumerators d)).
  { intros d H. unfold AidlEnumDeclaration_CheckValid in H.
    apply and_then_true in H as [_ H].
    apply and_then_true in H as [Hmembers H].
    apply reject_if_passed, negb_false_iff, bool_decide_eq_true in Hmembers.
    split; [done|].
    destruct (GetBackingType d) as [bt|]; [|by rewrite error_then in H].
    exists bt. split; [done|].
    rewrite (bind_result _ _ _ (enumerator_loop bt (GetEnumerators d))) in H.
    destruct (forallb _ (GetEnumerators d)) eqn:Hall; [|done]. cbn [negb] in H.
    split; [by destruct (GetEnumerators d)|].
    apply forallb_Forall in Hall. eapply Forall_impl; [exact Hall|].
    intros e He. apply bool_decide_eq_true in He.
    by apply AidlEnumerator_CheckValid_true. }
  split; [exact Hvalid|].
  intros loc name enumerators package comments H.
  apply Hvalid in H as (_ & bt & Hbt & _). done.
Qed.

(** X21. Take an enum declaration that passes the checks of its
    annotations and members, has no members and has a backing type under
    which all its enumerators are valid. If it has no enumerator, CheckValid
    ends in a fatal assertion. Otherwise it returns true; a first enumerator
    whose value does not print as 0 only adds an advisory diagnostic at that
    enumerator. *)
Theorem enum_first_enumerator (d : AidlDefinedType) (backing_type : AidlTypeSpecifier)
    (ds0 : list Diagnostic) :
  AidlDefinedType_CheckValid cv typenames d = (Some true, ds0) ->
  members_ d = [] ->
  GetBackingType d = Some backing_type ->
  Forall (fun e => AidlEnumerator_CheckValid cv backing_type e = (Some true, []))
    (GetEnumerators d) ->
  match GetEnumerators d with
  | [] => AidlEnumDeclaration_CheckValid cv typenames d = (None, ds0)
  | first :: _ =>
      let first_value :=
        from_option (fun v => cv_ValueString cv v backing_type) ""
          (enumerator_value_ first) in
      AidlEnumDeclaration_CheckValid cv typenames d =
        (Some true,
         ds0 ++
         if bool_decide (first_value = "0") then []
         else [Advisory (enumerator_location first) enum_zero
                 ("The first enumerator '" +:+ enumerator_name_ first +:+
                  "' should be 0, but it is " +:+ first_value +:+ ".")])
  end.
Proof.
  intros Hdef Hmembers Hbt Hall. unfold AidlEnumDeclaration_CheckValid.
  rewrite (and_then_run _ _ ds0 Hdef), Hmembers, Hbt.
  rewrite (bool_decide_eq_true_2 ([] = [])) by done. cbn [negb].
  rewrite reject_if_false, pass_and_then.
  assert (Hloop : accumulate (CheckEnumerator cv backing_type) (GetEnumerators d) true =
                  (Some true, [])).
  { induction Hall as [|e l He _ IH]; [done|].
    cbn [accumulate]. unfold CheckEnumerator at 1. by rewrite He, bind_run, IH. }
  rewrite Hloop, bind_run. cbn [negb].
  destruct (GetEnumerators d) as [|first rest].
  - cbn [result diagnostics fst snd AIDL_FATAL]. by rewrite app_nil_r.
  - cbn zeta. case_bool_decide; cbn [negb]; by rewrite ?bind_ret_l.
Qed.

(** X22. When Autofill returns true on an enum declaration, the
    declaration it leaves behind has a backing type and the same enumerators,
    annotations and name. The backing type is a plain specifier, neither an
    array nor generic nor annotated, and it is written byte when the enum has
    no Backing annotation. *)
Theorem Autofill_sets_backing_type (d d' : AidlDefinedType) :
  AsEnumDeclaration d = true ->
  result (AidlEnumDeclaration_Autofill cv typenames d) = Some (true, d') ->
  GetEnumerators d' = GetEnumerators d /\
  dt_annotations d' = dt_annotations d /\
  dt_name_ d' = dt_name_ d /\
  exists backing_type,
    GetBackingType d' = Some backing_type /\
    IsArray backing_type = false /\
    IsGeneric backing_type = false /\
    ts_annotations backing_type = [] /\
    (BackingType (dt_annotations d) = None -> unresolved_name_ backing_type = "byte").
Proof.
  intros Henum H.
  assert (Hresolve : forall bt,
    IsResolved bt = false -> is_array_ bt = false -> type_params_ bt = None ->
    ts_annotations bt = [] ->
    result (ResolveBackingType typenames d bt) = Some (true, d') ->
    GetEnumerators d' = GetEnumerators d /\
    dt_annotations d' = dt_annotations d /\
    dt_name_ d' = dt_name_ d /\
    exists backing_type,
      GetBackingType d' = Some backing_type /\
      IsArray backing_type = false /\
      IsGeneric backing_type = false /\
      ts_annotations backing_type = [] /\
      unresolved_name_ backing_type = unresolved_name_ bt).
  { intros bt Hres Harr Hparams Hannot Hrun.
    rewrite (ResolveBackingType_run typenames d bt Hres) in Hrun.
    unfold AsEnumDeclaration in Henum.
    destruct (is_resolved _); injection Hrun as <-;
      unfold GetEnumerators, GetBackingType, set_backing_type, IsArray, IsGeneric;
      destruct (dt_kind d); try done; cbn;
      (split; [done|]); (split; [done|]); (split; [done|]);
      eexists; (split; [done|]); cbn; rewrite Hparams; done. }
  unfold AidlEnumDeclaration_Autofill in H.
  destruct (BackingType (dt_annotations d)) as [annot|].
  - apply bind_result_Some in H as ([] & _ & H); [|done]. cbn [negb] in H.
    apply bind_result_Some in H as (type & _ & H).
    apply Hresolve in H as (? & ? & ? & bt & ? & ? & ? & ? & ?); [|done..].
    split; [done|]. split; [done|]. split; [done|]. exists bt. naive_solver.
  - apply Hresolve in H as (? & ? & ? & bt & ? & ? & ? & ? & ?); [|done..].
    split; [done|]. split; [done|]. split; [done|]. exists bt. naive_solver.
Qed.
End EnumDeclaration.

(** X20, on enum E { A = 5 } with backing type byte. *)
Lemma valid_enum_declaration_witness :
  members_ MoreExamples.E_A5_byte = [] /\
  exists backing_type,
    GetBackingType MoreExamples.E_A5_byte = Some backing_type /\
    GetEnumerators MoreExamples.E_A5_byte <> [] /\
    Forall (fun e => exists value,
                enumerator_value_ e = Some value /\
                cv_CheckValid Examples.engine value = true /\
                cv_ValueString Examples.engine value backing_type <> "")
      (GetEnumerators MoreExamples.E_A5_byte).
Proof.
  apply (proj1 (valid_enum_declaration Examples.engine Examples.typenames)).
  reflexivity.
Defined.

(** X21, on enum E { A = 5 } and on an enum without enumerators. *)
Lemma enum_first_enumerator_witness :
  AidlEnumDeclaration_CheckValid Examples.engine Examples.typenames MoreExamples.E_A5_byte =
    (Some true,
     [Advisory (Examples.loc 41) enum_zero
        "The first enumerator 'A' should be 0, but it is 5."]) /\
  AidlEnumDeclaration_CheckValid Examples.engine Examples.typenames MoreExamples.E_empty_byte =
    (None, []).
Proof.
  split.
  - apply (enum_first_enumerator Examples.engine Examples.typenames MoreExamples.E_A5_byte
             MoreExamples.byte_backing []); try reflexivity.
    repeat constructor.
  - apply (enum_first_enumerator Examples.engine Examples.typenames MoreExamples.E_empty_byte
             MoreExamples.byte_backing []); try reflexivity.
    constructor.
Defined.

(** X22, on enum E { A, B, C } without a Backing annotation. *)
Lemma Autofill_sets_backing_type_witness :
  exists d', result (AidlEnumDeclaration_Autofill Examples.engine Examples.typenames
                       Examples.E_ABC) = Some (true, d') /\
             exists backing_type,
               GetBackingType d' = Some backing_type /\
               unresolved_name_ backing_type = "byte".
Proof.
  eexists. split; [reflexivity|].
  edestruct (Autofill_sets_backing_type Examples.engine Examples.typenames Examples.E_ABC)
    as (_ & _ & _ & bt & Hbt & _ & _ & _ & Hname); [reflexivity..|].
  exists bt. split; [exact Hbt|]. by apply Hname.
Defined.

(** ** Parcelables and unions *)

Section Parcelables.
Context (cv : ConstantValueEngine) (typenames : AidlTypenames).

Lemma getter_names_valid (d : AidlDefinedType) :
  result (CheckValidForGetterNames d) = Some true ->
  Forall (fun v => var_name_ v <> "") (GetFields d) /\
  NoDup ((fun v => capitalized (var_name_ v)) <$> GetFields d).
Proof.
  intros H. destruct (CheckValidForGetterNames_cases d) as [Hok Hfatal].
  destruct (decide (Forall (fun v => var_name_ v <> "") (GetFields d))) as [Hnames|Hnames].
  - split; [done|]. destruct (Hok Hnames) as (b & Hb & Hiff).
    apply Hiff. congruence.
  - apply not_Forall_Exists in Hnames; [|apply _].
    rewrite Hfatal in H; [done|].
    eapply Exists_impl; [exact Hnames|]. intros v Hv. cbn in Hv.
    by destruct (decide (var_name_ v = "")).
Qed.

Lemma CheckNoParcelableHolder_run (success : bool) (v : AidlVariableDeclaration) :
  result (CheckNoParcelableHolder success v) =
    Some (success &&
          negb (bool_decide (AidlTypeSpecifier_GetName (var_type_ v) = "ParcelableHolder"))).
Proof.
  unfold CheckNoParcelableHolder. case_bool_decide; cbn [negb];
    rewrite ?error_then; cbn [result fst ret];
    by rewrite ?andb_true_r, ?andb_false_r.
Qed.

Lemma AidlParcelable_CheckValid_true (d : AidlDefinedType) :
  result (AidlParcelable_CheckValid cv typenames d) = Some true ->
  result (AidlDefinedType_CheckValid cv typenames d) = Some true /\
  NoDup (default [] (parcelable_type_params d)).
Proof.
  unfold AidlParcelable_CheckValid. intros H.
  apply and_then_true in H as [Hdef Hparams]. split; [done|].
  destruct (AidlParameterizable_CheckValid_run (dt_location d) (parcelable_type_params d))
    as (b & Hrun & Hb).
  rewrite Hrun in Hparams. apply Hb. by injection Hparams.
Qed.

(** X23. A union that AidlUnionDecl::CheckValid accepts has at least one
    field; its field names are not empty and stay distinct after
    capitalizing the first letter; no field is a ParcelableHolder; its type
    parameters are distinct; and its first field either has a useful default
    value or is neither an array nor of an enum type. *)
Theorem valid_union (d : AidlDefinedType) :
  result (AidlUnionDecl_CheckValid cv typenames d) = Some true ->
  result (AidlDefinedType_CheckValid cv typenames d) = Some true /\
  NoDup (default [] (parcelable_type_params d)) /\
  Forall (fun v => var_name_ v <> "") (GetFields d) /\
  NoDup ((fun v => capitalized (var_name_ v)) <$> GetFields d) /\
  Forall (fun v => AidlTypeSpecifier_GetName (var_type_ v) <> "ParcelableHolder")
    (GetFields d) /\
  exists first rest,
    GetFields d = first :: rest /\
    (HasUsefulDefaultValue first = false ->
     IsArray (var_type_ first) = false /\
     GetEnumDeclaration typenames (var_type_ first) = None).
Proof.
  unfold AidlUnionDecl_CheckValid. intros H.
  apply and_then_true in H as [Hparcelable H].
  apply and_then_true in H as [Hgetters H].
  apply AidlParcelable_CheckValid_true in Hparcelable as [Hdef Hparams].
  apply getter_names_valid in Hgetters as [Hnames Hnodup].
  split; [done|]. split; [done|]. split; [done|]. split; [done|].
  rewrite (bind_result _ _ _
             (accumulate_and CheckNoParcelableHolder
                (fun v => negb (bool_decide
                   (AidlTypeSpecifier_GetName (var_type_ v) = "ParcelableHolder")))
                (GetFields d) true
                (proj2 (Forall_forall _ _)
                   (fun v _ s => CheckNoParcelableHolder_run s v)))) in H.
  cbn [andb] in H.
  destruct (GetFields d) as [|first rest] eqn:Hfields; [by rewrite error_then in H|].
  apply and_then_true in H as [Hfirst Hholder].
  injection Hholder as Hholder. split.
  { apply (proj1 (forallb_Forall
                    (fun v => negb (bool_decide
                       (AidlTypeSpecifier_GetName (var_type_ v) = "ParcelableHolder")))
                    (first :: rest))) in Hholder.
    eapply Forall_impl; [exact Hholder|].
    intros v Hv. apply negb_true_iff in Hv. by apply bool_decide_eq_false in Hv. }
  exists first, rest. split; [done|]. intros Huseful.
  unfold CheckFirstMember in Hfirst. rewrite Huseful in Hfirst. cbn [negb] in Hfirst.
  apply and_then_true in Hfirst as [Henum Harray].
  apply reject_if_passed in Henum, Harray. split; [done|].
  rewrite Harray in Henum. cbn [negb andb] in Henum.
  apply bool_decide_eq_false in Henum.
  destruct (GetEnumDeclaration typenames (var_type_ first)); [|done].
  destruct Henum. by eexists.
Qed.

(** X24. A structured parcelable that AidlStructuredParcelable::CheckValid
    accepts passes the checks of its annotations and members and has
    distinct type parameters; if it is FixedSize every field has a type of
    fixed size, and if it is JavaOnlyImmutable its field names are not empty
    and stay distinct after capitalizing the first letter. *)
Theorem valid_structured_parcelable (d : AidlDefinedType) :
  result (AidlStructuredParcelable_CheckValid cv typenames d) = Some true ->
  result (AidlDefinedType_CheckValid cv typenames d) = Some true /\
  NoDup (default [] (parcelable_type_params d)) /\
  (IsFixedSize (dt_annotations d) = true ->
   Forall (fun v => CanBeFixedSize typenames (var_type_ v) = true) (GetFields d)) /\
  (IsJavaOnlyImmutable (dt_annotations d) = true ->
   Forall (fun v => var_name_ v <> "") (GetFields d) /\
   NoDup ((fun v => capitalized (var_name_ v)) <$> GetFields d)).
Proof.
  unfold AidlStructuredParcelable_CheckValid. intros H.
  apply and_then_true in H as [Hparcelable H].
  apply AidlParcelable_CheckValid_true in Hparcelable as [Hdef Hparams].
  split; [done|]. split; [done|].
  apply bind_result_Some in H as (success & Hfixed & H).
  assert (Hsuccess : success = true).
  { destruct (IsJavaOnlyImmutable (dt_annotations d)); [|by injection H].
    apply bind_result_Some in H as ([] & _ & H); cbn [negb] in H; by injection H. }
  subst success. split.
  - intros Hfs. rewrite Hfs in Hfixed.
    rewrite (accumulate_and (CheckFieldFixedSize typenames d)
               (fun v => CanBeFixedSize typenames (var_type_ v))) in Hfixed.
    + injection Hfixed as Hfixed. by apply forallb_Forall in Hfixed.
    + apply Forall_forall. intros v _ s. unfold CheckFieldFixedSize.
      destruct (CanBeFixedSize typenames (var_type_ v)); cbn [negb];
        rewrite ?error_then; cbn [result fst ret];
        by rewrite ?andb_true_r, ?andb_false_r.
  - intros Him. rewrite Him in H.
    apply bind_result_Some in H as ([] & Hgetters & H); [|done].
    by apply getter_names_valid.
Qed.
End Parcelables.

(** X23, on union U { int a; String b = x; }. *)
Lemma valid_union_witness :
  exists first rest, GetFields MoreExamples.U_int_String = first :: rest.
Proof.
  edestruct (valid_union Examples.engine Examples.typenames MoreExamples.U_int_String)
    as (_ & _ & _ & _ & _ & first & rest & Hfields & _); [reflexivity|].
  by exists first, rest.
Defined.

(** X24, on @FixedSize parcelable P { int a; }. *)
Lemma valid_structured_parcelable_witness :
  Forall (fun v => CanBeFixedSize Examples.typenames (var_type_ v) = true)
    (GetFields MoreExamples.P_fixed).
Proof.
  edestruct (valid_structured_parcelable Examples.engine Examples.typenames
               MoreExamples.P_fixed) as (_ & _ & Hfixed & _); [reflexivity|].
  by apply Hfixed.
Defined.

(** ** Backend-specific checks *)

Section Backends.
Import Options.
Context (LanguageToString : Language -> string) (typenames : AidlTypenames).

Lemma Java_check_run (t : AidlTypeSpecifier) :
  result (AidlTypeSpecifier_LanguageSpecificCheckValid LanguageToString typenames JAVA t) =
    Some (negb (IsArray t &&
                (bool_decide (AidlTypeSpecifier_GetName t = "List") ||
                 bool_decide (AidlTypeSpecifier_GetName t = "Map") ||
                 bool_decide (AidlTypeSpecifier_GetName t = "CharSequence")))).
Proof.
  unfold AidlTypeSpecifier_LanguageSpecificCheckValid, LanguageSpecificCheckGeneric.
  assert (is_NDK_or_RUST JAVA = false) as -> by done.
  rewrite (bool_decide_eq_false_2 (JAVA = RUST)), (bool_decide_eq_false_2 (JAVA = NDK)),
    (bool_decide_eq_true_2 (JAVA = JAVA)) by done.
  cbn [andb negb]. rewrite !andb_false_r. cbn [andb negb].
  rewrite !reject_if_false, !pass_and_then.
  rewrite and_then_result.
  destruct (IsArray t); cbn [andb]; [|done].
  rewrite reject_if_result. by destruct (negb _).
Qed.

(** X25. For the Java backend AidlTypeSpecifier::LanguageSpecificCheckValid
    always returns, and it refuses exactly the arrays of List, Map and
    CharSequence. Java is the most permissive backend: a specifier that
    passes the check for any backend passes it for Java. *)
Theorem Java_is_most_permissive (t : AidlTypeSpecifier) :
  (exists b,
     result (AidlTypeSpecifier_LanguageSpecificCheckValid LanguageToString typenames JAVA t)
       = Some b /\
     (b = false <->
      IsArray t = true /\
      AidlTypeSpecifier_GetName t ∈ ["List"; "Map"; "CharSequence"])) /\
  (forall lang,
     result (AidlTypeSpecifier_LanguageSpecificCheckValid LanguageToString typenames lang t)
       = Some true ->
     result (AidlTypeSpecifier_LanguageSpecificCheckValid LanguageToString typenames JAVA t)
       = Some true).
Proof.
  rewrite Java_check_run. split.
  - eexists. split; [done|]. rewrite negb_false_iff, andb_true_iff, !orb_true_iff.
    rewrite !bool_decide_eq_true, !elem_of_cons, elem_of_nil. naive_solver.
  - intros lang H. unfold AidlTypeSpecifier_LanguageSpecificCheckValid in H.
    do 5 apply and_then_true in H as [_ H].
    apply and_then_true in H as [Harray _].
    destruct (IsArray t); cbn [andb negb]; [|done].
    apply reject_if_passed in Harray. by rewrite Harray.
Qed.

(** X26. What the other backends refuse. A specifier that passes the
    check for a backend other than Java is not a Map, not a CharSequence and
    not a List without type parameters. For NDK and Rust it is in addition
    not a FileDescriptor, not an array of IBinder, and not a nullable array
    of ParcelFileDescriptor or of a parcelable; for Rust it is not a
    ParcelableHolder; for NDK a List of it holds neither an interface nor
    IBinder. *)
Theorem backend_restrictions (lang : Language) (t : AidlTypeSpecifier) :
  result (AidlTypeSpecifier_LanguageSpecificCheckValid LanguageToString typenames lang t)
    = Some true ->
  let name := AidlTypeSpecifier_GetName t in
  (lang <> JAVA ->
   name <> "Map" /\ name <> "CharSequence" /\ (name = "List" -> IsGeneric t = true)) /\
  (lang = NDK \/ lang = RUST ->
   name <> "FileDescriptor" /\
   (IsArray t = true -> name <> "IBinder") /\
   (IsArray t = true -> IsNullable (ts_annotations t) = true ->
    name <> "ParcelFileDescriptor" /\
    from_option AsParcelable false (TryGetDefinedType typenames name) = false)) /\
  (lang = RUST -> name <> "ParcelableHolder") /\
  (lang = NDK -> name = "List" -> IsGeneric t = true ->
   exists contained rest,
     GetTypeParameters t = contained :: rest /\
     GetInterface typenames contained = None /\
     AidlTypeSpecifier_GetName contained <> "IBinder").
Proof.
  intros H. cbn zeta. unfold AidlTypeSpecifier_LanguageSpecificCheckValid in H.
  apply and_then_true in H as [Hbinder H].
  apply and_then_true in H as [Hholder H].
  apply and_then_true in H as [Hnullable H].
  apply and_then_true in H as [Hfd H].
  apply and_then_true in H as [Hgeneric H].
  apply and_then_true in H as [_ Hjava].
  apply reject_if_passed in Hbinder, Hholder, Hfd.
  split; [|split; [|split]].
  - intros Hlang. rewrite (bool_decide_eq_false_2 _ Hlang) in Hjava. cbn [negb] in Hjava.
    apply and_then_true in Hjava as [Hlist Hmap].
    apply reject_if_passed in Hlist, Hmap.
    apply orb_false_iff in Hmap as [Hmap Hchar].
    apply bool_decide_eq_false in Hmap, Hchar.
    split; [done|]. split; [done|]. intros Hname.
    rewrite (bool_decide_eq_true_2 _ Hname) in Hlist. cbn [andb] in Hlist.
    by apply negb_false_iff in Hlist.
  - intros Hlang.
    assert (is_NDK_or_RUST lang = true) as Hnr by (by destruct Hlang as [-> | ->]).
    rewrite Hnr in Hbinder, Hnullable, Hfd. rewrite andb_true_r in Hfd.
    apply bool_decide_eq_false in Hfd. split; [done|]. split.
    + intros Harr. rewrite Harr in Hbinder. cbn [andb] in Hbinder.
      by apply bool_decide_eq_false in Hbinder.
    + intros Harr Hnull. rewrite Harr, Hnull in Hnullable. cbn [andb] in Hnullable.
      apply and_then_true in Hnullable as [Hpfd Hparcelable].
      apply reject_if_passed in Hpfd, Hparcelable.
      by apply bool_decide_eq_false in Hpfd.
  - intros ->. rewrite (bool_decide_eq_true_2 (RUST = RUST)) in Hholder by done.
    cbn [andb] in Hholder. by apply bool_decide_eq_false in Hholder.
  - intros -> Hname Hgen. unfold LanguageSpecificCheckGeneric in Hgeneric.
    rewrite Hgen, (bool_decide_eq_true_2 _ Hname) in Hgeneric.
    rewrite (bool_decide_eq_true_2 (NDK = NDK)) in Hgeneric by done.
    cbn [andb] in Hgeneric.
    destruct (GetTypeParameters t) as [|contained rest]; [done|].
    apply and_then_true in Hgeneric as [Hinterface Hibinder].
    apply reject_if_passed in Hinterface, Hibinder.
    apply bool_decide_eq_false in Hinterface, Hibinder.
    exists contained, rest. split; [done|]. split; [|done].
    destruct (GetInterface typenames contained); [|done].
    destruct Hinterface. by eexists.
Qed.

(** X27. AidlInterface::LanguageSpecificCheckValid returns true exactly
    when the return type and every argument type of every method pass the
    check of the backend. *)
Theorem interface_backend_check (lang : Language) (d : AidlDefinedType) :
  result (AidlInterface_LanguageSpecificCheckValid LanguageToString typenames lang d)
    = Some true <->
  Forall (fun m =>
            result (AidlTypeSpecifier_LanguageSpecificCheckValid LanguageToString typenames
                      lang (method_type_ m)) = Some true /\
            Forall (fun arg =>
                      result (AidlTypeSpecifier_LanguageSpecificCheckValid LanguageToString
                                typenames lang (arg_type arg)) = Some true)
              (arguments_ m))
    (methods_ d).
Proof.
  unfold AidlInterface_LanguageSpecificCheckValid. split.
  - intros H. apply all_or_return_true in H.
    eapply Forall_impl; [exact H|]. intros m Hm. cbn beta in Hm.
    apply and_then_true in Hm as [Htype Hargs]. split; [done|].
    by apply all_or_return_true in Hargs.
  - intros H. rewrite all_or_return_true_run; [done|].
    eapply Forall_impl; [exact H|]. intros m [Htype Hargs]. cbn beta.
    rewrite and_then_result, Htype. by rewrite all_or_return_true_run.
Qed.
End Backends.

(** X25, on String[] for the NDK backend. *)
Lemma Java_is_most_permissive_witness :
  result (AidlTypeSpecifier_LanguageSpecificCheckValid MoreExamples.backend_name
            Examples.typenames Options.JAVA MoreExamples.String_array) = Some true.
Proof.
  apply (proj2 (Java_is_most_permissive MoreExamples.backend_name Examples.typenames
                  MoreExamples.String_array) Options.NDK).
  reflexivity.
Defined.

(** X26, on String[] for the Rust backend. *)
Lemma backend_restrictions_witness :
  AidlTypeSpecifier_GetName MoreExamples.String_array <> "ParcelableHolder".
Proof.
  apply (backend_restrictions MoreExamples.backend_name Examples.typenames Options.RUST
           MoreExamples.String_array); reflexivity.
Defined.

(** X27, on interface IFoo { void send(in String[] names); } for C++. *)
Lemma interface_backend_check_witness :
  result (AidlInterface_LanguageSpecificCheckValid MoreExamples.backend_name
            Examples.typenames Options.CPP MoreExamples.IFoo_send) = Some true.
Proof.
  apply (interface_backend_check MoreExamples.backend_name Examples.typenames Options.CPP
           MoreExamples.IFoo_send).
  repeat constructor.
Defined.

(** X17, on void copy(in int[] src, out int[] dst, inout int[] both). *)
Lemma method_arguments_split_witness :
  arg_name <$> in_arguments_ MoreExamples.copy_method = ["src"; "both"] /\
  arg_name <$> out_arguments_ MoreExamples.copy_method = ["dst"; "both"].
Proof.
  destruct (method_arguments_split (Examples.loc 2) false (Examples.resolved "void") "copy"
              MoreExamples.copy_args "") as (_ & Hin & Hout & _).
  unfold MoreExamples.copy_method. rewrite Hin, Hout. split; reflexivity.
Defined.

(** ** The C++ header of a parcelable *)

Lemma substring_all (s : string) : String.substring 0 (String.length s) s = s.
Proof. induction s as [|c s IH]; [done|]. simpl. by rewrite IH. Qed.

Lemma substring_but_last (s : string) :
  s <> "" ->
  exists last, s = String.substring 0 (String.length s - 1) s +:+ String last "".
Proof.
  induction s as [|c s IH]; [done|]. intros _.
  destruct s as [|c' s'].
  - by exists c.
  - destruct IH as [last IH]; [done|]. exists last.
    change (String.length (String c (String c' s')) - 1)
      with (S (String.length s')).
    change (String.length (String c' s') - 1) with (String.length s' - 0) in IH.
    rewrite Nat.sub_0_r in IH.
    change (String.substring 0 (S (String.length s')) (String c (String c' s')))
      with (String c (String.substring 0 (String.length s') (String c' s'))).
    change (String c (String c' s') =
            String c (String.substring 0 (String.length s') (String c' s') +:+
                      String last "")).
    by rewrite <- IH.
Qed.

Lemma strip_cpp_header_ends (cpp_header : string) :
  2 <= String.length cpp_header ->
  exists first last,
    cpp_header = String first (strip_cpp_header cpp_header +:+ String last "").
Proof.
  intros Hlen. unfold strip_cpp_header, substr.
  rewrite bool_decide_eq_true_2 by done.
  destruct cpp_header as [|first rest]; [simpl in Hlen; lia|].
  destruct rest as [|c rest']; [simpl in Hlen; lia|].
  destruct (substring_but_last (String c rest')) as [last Hlast]; [done|].
  exists first, last. f_equal.
  change (String.substring 1 (String.length (String first (String c rest')) - 2)
            (String first (String c rest')))
    with (String.substring 0 (String.length (String c rest') - 1) (String c rest')).
  exact Hlast.
Qed.

Lemma strip_cpp_header_empty (cpp_header : string) :
  strip_cpp_header cpp_header = "" <->
  String.length cpp_header = 0 \/ String.length cpp_header = 2.
Proof.
  destruct (decide (2 <= String.length cpp_header)) as [Hlen|Hlen].
  - destruct (strip_cpp_header_ends cpp_header Hlen) as (first & last & Heq).
    split.
    + intros Hempty. rewrite Hempty in Heq. right. by rewrite Heq.
    + intros [H0|H2]; [lia|]. rewrite Heq in H2.
      destruct (strip_cpp_header cpp_header) as [|c r]; [done|].
      simpl in H2. destruct r; simpl in H2; lia.
  - unfold strip_cpp_header. rewrite bool_decide_eq_false_2 by done.
    destruct cpp_header as [|c [|c' r]]; simpl in *; [naive_solver| |lia].
    split; [done|]. intros [?|?]; lia.
Qed.

Section CppHeader.
Import Options.

(** X28. The AidlParcelable constructor drops the first and the last
    character of a header of two or more characters and keeps a shorter one.
    For the C++ and NDK backends an unstructured parcelable is then refused,
    with one error at its location, exactly when the header it was built
    with had no character or two; the other backends, and structured
    parcelables and unions, are never refused here. *)
Theorem cpp_header_requirement (lang : Language) (loc : AidlLocation)
    (name package comments cpp_header : string) (type_params : option (list string))
    (members : option (list AidlMember)) :
  let d := newParcelable loc name package comments cpp_header type_params members in
  (2 <= String.length cpp_header ->
   exists first last,
     cpp_header = String first (strip_cpp_header cpp_header +:+ String last "") /\
     unstructured_cpp_header d = Some (strip_cpp_header cpp_header)) /\
  (String.length cpp_header < 2 -> unstructured_cpp_header d = Some cpp_header) /\
  (exists b : bool,
     AidlParcelable_LanguageSpecificCheckValid lang d =
       (Some b, if b then @nil Diagnostic
                else [Error loc "Unstructured parcelable must have C++ header defined."]) /\
     (b = false <->
      (lang = CPP \/ lang = NDK) /\
      (String.length cpp_header = 0 \/ String.length cpp_header = 2))) /\
  AidlParcelable_LanguageSpecificCheckValid lang
    (newStructuredParcelable loc name package comments type_params members) = (Some true, []) /\
  AidlParcelable_LanguageSpecificCheckValid lang
    (newUnionDecl loc name package comments type_params members) = (Some true, []).
Proof.
  cbn zeta. split; [|split; [|split; [|split]]].
  - intros Hlen. destruct (strip_cpp_header_ends cpp_header Hlen) as (first & last & Heq).
    by exists first, last.
  - intros Hlen. unfold newParcelable, unstructured_cpp_header, strip_cpp_header. cbn.
    by rewrite bool_decide_eq_false_2 by lia.
  - unfold AidlParcelable_LanguageSpecificCheckValid, newParcelable, unstructured_cpp_header.
    cbn [dt_kind newDefinedType dt_location].
    destruct (decide (strip_cpp_header cpp_header = "")) as [Hempty|Hempty].
    + rewrite (bool_decide_eq_true_2 _ Hempty). apply strip_cpp_header_empty in Hempty.
      destruct lang; [exists true|exists false|exists false|exists true];
        (split; [reflexivity|]); naive_solver.
    + rewrite (bool_decide_eq_false_2 _ Hempty).
      rewrite strip_cpp_header_empty in Hempty.
      destruct lang; exists true; (split; [reflexivity|]); naive_solver.
  - unfold AidlParcelable_LanguageSpecificCheckValid. by destruct lang.
  - unfold AidlParcelable_LanguageSpecificCheckValid. by destruct lang.
Qed.
End CppHeader.

(** X28, on a parcelable built with a header of two characters. *)
Lemma cpp_header_requirement_witness :
  unstructured_cpp_header
    (newParcelable (Examples.loc 1) "P" "" "" "ab" None None) = Some "".
Proof.
  destruct (cpp_header_requirement Options.CPP (Examples.loc 1) "P" "" "" "ab" None None)
    as (Hstrip & _).
  destruct Hstrip as (first & last & _ & Hheader); [simpl; lia|].
  exact Hheader.
Defined.

(** ** Resolution of names against the imports *)

Section ResolveName.
Context (class_name : string).

Lemma import_loop_total (l : list (AidlLocation * string)) (s : string) :
  is_Some (result (loop_or_return (ResolveName_import class_name) l s)).
Proof.
  revert s. induction l as [|i l IH]; intros s; [by eexists|].
  cbn [loop_or_return]. unfold ResolveName_import at 1.
  repeat case_bool_decide; cbn [negb andb];
    rewrite ?error_then, ?bind_ret_l; try apply IH.
  all: rewrite (bind_result _ _ None) by done; by eexists.
Qed.

Lemma import_loop_no_match (l : list (AidlLocation * string)) (s : string) :
  Forall (fun i => imported_type_name_of (snd i) <> class_name) l ->
  loop_or_return (ResolveName_import class_name) l s = (Some (Some s), []).
Proof.
  induction 1 as [|i l Hi _ IH]; [done|].
  cbn [loop_or_return]. unfold ResolveName_import at 1.
  by rewrite (bool_decide_eq_false_2 _ Hi), bind_ret_l.
Qed.

Lemma import_step (s s' : string) (i : AidlLocation * string) :
  result (ResolveName_import class_name s i) = Some (Some s') ->
  (imported_type_name_of (snd i) <> class_name /\ s' = s) \/
  (imported_type_name_of (snd i) = class_name /\ s' = snd i /\ (s = "" \/ s = snd i)).
Proof.
  unfold ResolveName_import.
  destruct (decide (imported_type_name_of (snd i) = class_name)) as [Hm|Hm].
  - rewrite (bool_decide_eq_true_2 _ Hm).
    destruct (decide (s = "")) as [Hs|Hs].
    + rewrite (bool_decide_eq_true_2 _ Hs). cbn [negb andb]. intros [= <-]. naive_solver.
    + rewrite (bool_decide_eq_false_2 _ Hs). cbn [negb andb].
      destruct (decide (s = snd i)) as [Hi|Hi].
      * rewrite (bool_decide_eq_true_2 _ Hi). cbn [negb]. intros [= <-]. naive_solver.
      * rewrite (bool_decide_eq_false_2 _ Hi). cbn [negb]. by rewrite error_then.
  - rewrite (bool_decide_eq_false_2 _ Hm). intros [= <-]. naive_solver.
Qed.

Lemma import_loop_result (l : list (AidlLocation * string)) (s s' : string) :
  result (loop_or_return (ResolveName_import class_name) l s) = Some (Some s') ->
  s' = s \/ (s' ∈ snd <$> l /\ imported_type_name_of s' = class_name).
Proof.
  revert s. induction l as [|i l IH]; intros s H; cbn [loop_or_return] in H.
  { injection H as <-. by left. }
  apply bind_result_Some in H as ([s1|] & Hstep & H); [|done].
  apply IH in H as [->|[Hin Hm]].
  - apply import_step in Hstep as [[_ ->]|(Hm & -> & _)]; [by left|].
    right. split; [|done]. rewrite fmap_cons. by left.
  - right. split; [|done]. rewrite fmap_cons. by right.
Qed.

Lemma import_loop_keeps (l : list (AidlLocation * string)) (s s' : string) :
  s <> "" ->
  result (loop_or_return (ResolveName_import class_name) l s) = Some (Some s') ->
  s' = s.
Proof.
  revert s. induction l as [|i l IH]; intros s Hs H; cbn [loop_or_return] in H.
  { by injection H as <-. }
  apply bind_result_Some in H as ([s1|] & Hstep & H); [|done].
  apply import_step in Hstep as [[_ ->]|(_ & -> & [->| ->])]; try done; by apply IH.
Qed.
End ResolveName.

(** X29. AidlDocument::ResolveName always returns. When no import ends in
    the class part of the name, the name is returned as it is and nothing is
    printed. A name that is returned is either the name as it is or one of
    the imports that end in its class part. When two different imports end in
    the class part, the first of them not empty, no name is returned. *)
Theorem ResolveName_outcomes (doc : AidlDocument) (unresolved_name : string) :
  let class_name := class_name_of unresolved_name in
  is_Some (result (AidlDocument_ResolveName doc unresolved_name)) /\
  (Forall (fun i => imported_type_name_of (snd i) <> class_name) (imports_ doc) ->
   AidlDocument_ResolveName doc unresolved_name = (Some (Some unresolved_name), [])) /\
  (forall resolved,
     result (AidlDocument_ResolveName doc unresolved_name) = Some (Some resolved) ->
     resolved = unresolved_name \/
     (resolved ∈ snd <$> imports_ doc /\ imported_type_name_of resolved = class_name)) /\
  (forall pre first mid second post,
     imports_ doc = pre ++ first :: mid ++ second :: post ->
     imported_type_name_of (snd first) = class_name ->
     imported_type_name_of (snd second) = class_name ->
     snd first <> "" -> snd first <> snd second ->
     result (AidlDocument_ResolveName doc unresolved_name) = Some None).
Proof.
  cbn zeta. unfold AidlDocument_ResolveName.
  set (class_name := class_name_of unresolved_name).
  destruct (import_loop_total class_name (imports_ doc) "") as [o Hloop].
  rewrite (bind_result _ _ _ Hloop).
  split; [|split; [|split]].
  - destruct o as [s|]; [|by eexists]. case_bool_decide; by eexists.
  - intros Hnone. rewrite (import_loop_no_match class_name _ "" Hnone), bind_run.
    by rewrite bool_decide_eq_true_2.
  - intros resolved H. destruct o as [s|]; [|done].
    apply import_loop_result in Hloop.
    case_bool_decide; injection H as <-; [by left|].
    destruct Hloop as [->|Hloop]; [done|by right].
  - intros pre first mid second post Himports Hfirst Hsecond Hne Hdiff.
    destruct o as [s|]; [|done]. exfalso. revert Hloop. rewrite Himports.
    change (pre ++ first :: mid ++ second :: post)
      with (pre ++ (first :: mid) ++ second :: post).
    rewrite app_assoc.
    apply (loop_or_return_blocked _ (fun s => s = snd first)).
    + intros s1 s2 Hrun _. rewrite loop_or_return_app in Hrun.
      apply bind_result_Some in Hrun as ([sp|] & _ & Hrun); [|done].
      cbn [loop_or_return] in Hrun.
      apply bind_result_Some in Hrun as ([sf|] & Hstep & Hrun); [|done].
      apply import_step in Hstep as [[Hno _]|(_ & -> & _)]; [done|].
      by apply import_loop_keeps in Hrun.
    + intros s' -> s'' Hstep.
      apply import_step in Hstep as [[Hno _]|(_ & _ & [?|?])]; done.
Qed.

(** X29, on the imports a.Foo and b.Foo and the name Foo. *)
Lemma ResolveName_outcomes_witness :
  result (AidlDocument_ResolveName MoreExamples.imports_Foo_twice "Foo") = Some None /\
  AidlDocument_ResolveName MoreExamples.imports_Foo_twice "Bar" = (Some (Some "Bar"), []).
Proof.
  split.
  - apply (proj2 (proj2 (proj2 (ResolveName_outcomes MoreExamples.imports_Foo_twice "Foo")))
             [] (Examples.loc 2, "a.Foo") [] (Examples.loc 3, "b.Foo") []); done.
  - apply (proj1 (proj2 (ResolveName_outcomes MoreExamples.imports_Foo_twice "Bar"))).
    repeat constructor; done.
Defined.

(** ** Decoration of enumerator references *)

Lemma find_last_of_app (c : Ascii.ascii) (prefix tail : string) :
  find_last_of c tail = None ->
  find_last_of c (prefix +:+ String c tail) = Some (String.length prefix).
Proof.
  intros Htail. induction prefix as [|x prefix IH].
  - change ("" +:+ String c tail) with (String c tail). cbn [find_last_of].
    by rewrite Htail, bool_decide_eq_true_2.
  - change (String x prefix +:+ String c tail) with (String x (prefix +:+ String c tail)).
    cbn [find_last_of]. by rewrite IH.
Qed.

Lemma substr_from_app (c : Ascii.ascii) (prefix tail : string) :
  substr_from (prefix +:+ String c tail) (String.length prefix + 1) = tail.
Proof.
  unfold substr_from. induction prefix as [|x prefix IH].
  - change ("" +:+ String c tail) with (String c tail).
    change (String.length "" + 1) with 1. cbn [String.length String.substring].
    replace (S (String.length tail) - 1) with (String.length tail) by lia.
    apply substring_all.
  - change (String x prefix +:+ String c tail) with (String x (prefix +:+ String c tail)).
    change (String.length (String x prefix) + 1) with (S (String.length prefix + 1)).
    cbn [String.length String.substring]. exact IH.
Qed.

(** X30. AidlConstantValueDecorator leaves a value alone when the type is
    an array or has no declaration, and ends in a fatal assertion when the
    type has a declaration that is not an enum. For an enum type it replaces
    whatever qualifier the value carries by the name of the type: a
    reference written with or without a qualifier is printed as the type
    name, a dot and the part after the last dot. *)
Theorem AidlConstantValueDecorator_requalifies
    (GetDefinedType : AidlTypeSpecifier -> option AidlDefinedType)
    (type : AidlTypeSpecifier) :
  (IsArray type = true \/ GetDefinedType type = None ->
   forall raw_value,
     AidlConstantValueDecorator GetDefinedType type raw_value = (Some raw_value, [])) /\
  (forall defined_type,
     IsArray type = false -> GetDefinedType type = Some defined_type ->
     AsEnumDeclaration defined_type = false ->
     forall raw_value,
       AidlConstantValueDecorator GetDefinedType type raw_value = (None, [])) /\
  (forall defined_type,
     IsArray type = false -> GetDefinedType type = Some defined_type ->
     AsEnumDeclaration defined_type = true ->
     forall qualifier enumerator,
       find_last_of dot enumerator = None ->
       AidlConstantValueDecorator GetDefinedType type enumerator =
         (Some (AidlTypeSpecifier_GetName type +:+ "." +:+ enumerator), []) /\
       AidlConstantValueDecorator GetDefinedType type (qualifier +:+ "." +:+ enumerator) =
         (Some (AidlTypeSpecifier_GetName type +:+ "." +:+ enumerator), [])).
Proof.
  unfold AidlConstantValueDecorator. split; [|split].
  - intros [Harr|Hnone] raw_value.
    + by rewrite Harr.
    + rewrite Hnone. by destruct (IsArray type).
  - intros d Harr Hd Henum raw_value. by rewrite Harr, Hd, Henum.
  - intros d Harr Hd Henum qualifier enumerator Hfree.
    rewrite Harr, Hd, Henum. cbn [negb AIDL_FATAL_IF]. rewrite !bind_ret_l. split.
    + rewrite Hfree. unfold substr_from. rewrite Nat.sub_0_r.
      by rewrite substring_all.
    + change (qualifier +:+ "." +:+ enumerator)
        with (qualifier +:+ String dot enumerator).
      rewrite (find_last_of_app dot qualifier enumerator Hfree).
      by rewrite substr_from_app.
Qed.

(** X30, on the enum Color and the references RED and p.Color.RED. *)
Lemma AidlConstantValueDecorator_requalifies_witness :
  AidlConstantValueDecorator MoreExamples.handle_of MoreExamples.Color_type "RED" =
    (Some "Color.RED", []) /\
  AidlConstantValueDecorator MoreExamples.handle_of MoreExamples.Color_type "p.Color.RED" =
    (Some "Color.RED", []).
Proof.
  apply (proj2 (proj2 (AidlConstantValueDecorator_requalifies MoreExamples.handle_of
                         MoreExamples.Color_type))
           Examples.Color eq_refl eq_refl eq_refl "p.Color" "RED" eq_refl).
Defined.
